(** * chroma-mcp: the ephemeral in-process state engine

    A shallow embedding of the three in-memory stores of chroma-mcp,
    - [cache.py]         : [CacheEntry], [MemoryCache]
    - [entity_mapper.py] : [Entity], [Relationship], [EntityRelationshipMapper]
    - [swarm.py]         : [PheromoneTrail], [SwarmTracker], [CodeSmellMonitor]
    and the properties of them that the specification states.

    Conventions of the embedding.
    - A Python object that is mutated in place is a record that is threaded
      through the operations: an operation takes the object and returns its
      result together with the updated object.
    - [time.time()] is an argument [now] of every operation that reads the
      clock; the clock is read once per operation. Times and trail strengths
      are Python floats; they are idealised as rationals ([Q]), so rounding
      is not part of the model.
    - Python [int] is [Z], [str] is [string], [Optional[X]] is [option X].
    - A [dict] whose iteration order is observed ([OrderedDict], the trail
      table) is an association list in insertion order; a [dict] that is only
      looked up is a [gmap]; a [set] is a [gset], iterated in an order the
      model does not fix.
    - [hashlib.sha256(..).hexdigest()] and the string escaping of
      [json.dumps] belong to the Python library; they are parameters. *)

From Stdlib Require Import ZArith QArith Qminmax String Ascii List Permutation Sorted Lia.
From Stdlib Require OrderedTypeEx.
From stdpp Require Import gmap strings list fin_maps pretty.

Local Open Scope string_scope.
Local Open Scope list_scope.
Local Open Scope Z_scope.

#[local] Set Warnings "-clear-no-such-hyp".

(** ** Python helpers *)

(** Exceptions the modelled code can raise. *)
Inductive exn := KeyError.

Inductive outcome (A : Type) :=
| Return (a : A)
| Raise (e : exn).
Arguments Return {A} a.
Arguments Raise {A} e.

(** Truth value of an [Optional[str]]: [None] and [""] are falsy. *)
Definition str_truthy (o : option string) : bool :=
  match o with
  | Some s => negb (String.eqb s "")
  | None => false
  end.

(** [a > b] on floats. *)
Definition Qgtb (a b : Q) : bool :=
  match (a ?= b)%Q with Gt => true | _ => false end.

(** [a >= b] on floats. *)
Definition Qgeb (a b : Q) : bool :=
  match (a ?= b)%Q with Lt => false | _ => true end.

(** [l[:stop]] *)
Definition slice_to {A} (stop : Z) (l : list A) : list A :=
  if 0 <=? stop then firstn (Z.to_nat stop) l
  else firstn (Z.to_nat (Z.of_nat (length l) + stop)) l.

(** [l[-n:]] for a positive literal [n] *)
Definition slice_last {A} (n : nat) (l : list A) : list A :=
  skipn (length l - n)%nat l.

(** ** [collections.OrderedDict] with [str] keys

    An association list in insertion order, oldest first. The operations
    keep the keys distinct. *)
Section ordered_dict.
Context {V : Type}.

(** [d.get(k)] *)
Fixpoint od_get (k : string) (d : list (string * V)) : option V :=
  match d with
  | [] => None
  | (k', v) :: r => if String.eqb k' k then Some v else od_get k r
  end.

(** [d[k] = v]: an existing key keeps its place, a new key goes last. *)
Fixpoint od_setitem (k : string) (v : V) (d : list (string * V)) : list (string * V) :=
  match d with
  | [] => [(k, v)]
  | (k', v') :: r =>
      if String.eqb k' k then (k', v) :: r else (k', v') :: od_setitem k v r
  end.

(** [del d[k]] (for a key that is present) *)
Fixpoint od_delitem (k : string) (d : list (string * V)) : list (string * V) :=
  match d with
  | [] => []
  | (k', v') :: r =>
      if String.eqb k' k then r else (k', v') :: od_delitem k r
  end.

(** [d.move_to_end(k)]; [None] stands for the [KeyError] of a missing key. *)
Definition od_move_to_end (k : string) (d : list (string * V)) : option (list (string * V)) :=
  match od_get k d with
  | None => None
  | Some v => Some (od_delitem k d ++ [(k, v)])
  end.

(** [d.keys()], oldest first *)
Definition od_keys (d : list (string * V)) : list string := map fst d.
End ordered_dict.

(** ** [json.dumps(data, sort_keys=True)] *)

(** The values [json.dumps] is applied to. A [JDict] lists the items of a
    Python [dict] in its insertion order; floats are left out. *)
#[warnings="-register-all"] Inductive json :=
| JNull
| JBool (b : bool)
| JInt (z : Z)
| JStr (s : string)
| JList (l : list json)
| JDict (items : list (string * json)).

Section json_dumps.
(** The encoder of string literals (quotes and escapes) of the Python
    library. *)
Variable encode_basestring : string -> string.

(** [sorted(items)] on items that are already encoded: the keys of a dict
    are distinct, so the order is that of the keys. *)
Fixpoint insert_item (x : string * string) (l : list (string * string)) : list (string * string) :=
  match l with
  | [] => [x]
  | y :: r => if String.ltb (fst y) (fst x) then y :: insert_item x r else x :: y :: r
  end.

Definition sorted_items (l : list (string * string)) : list (string * string) :=
  foldr insert_item [] l.

Definition encode_item (kv : string * string) : string :=
  encode_basestring (fst kv) +:+ ": " +:+ snd kv.

Fixpoint json_dumps (j : json) : string :=
  match j with
  | JNull => "null"
  | JBool true => "true"
  | JBool false => "false"
  | JInt z => pretty z
  | JStr s => encode_basestring s
  | JList l => "[" +:+ String.concat ", " (map json_dumps l) +:+ "]"
  | JDict items =>
      "{" +:+ String.concat ", "
               (map encode_item
                  (sorted_items (map (fun kv => (fst kv, json_dumps (snd kv))) items)))
          +:+ "}"
  end.
End json_dumps.

(** ** cache.py *)
Module Cache.
Section with_data.
(** The type of the cached data ([Any]). *)
Context {V : Type}.
Variable encode_basestring : string -> string.
Variable sha256_hexdigest : string -> string.

(** [class CacheEntry] *)
Record CacheEntry := mkCacheEntry {
  data : V;
  timestamp : Q;
  ttl : Z;
  access_count : Z;
  last_access : Q
}.

(** [CacheEntry.__init__] *)
Definition CacheEntry_init (d : V) (t : Z) (now : Q) : CacheEntry :=
  {| data := d; timestamp := now; ttl := t; access_count := 0; last_access := now |}.

(** [CacheEntry.is_expired]: [time.time() - self.timestamp > self.ttl] *)
Definition is_expired (now : Q) (e : CacheEntry) : bool :=
  Qgtb (now - timestamp e) (inject_Z (ttl e)).

(** [CacheEntry.access]: the entry after the access; the caller returns
    its [data]. *)
Definition access (now : Q) (e : CacheEntry) : CacheEntry :=
  {| data := data e; timestamp := timestamp e; ttl := ttl e;
     access_count := access_count e + 1; last_access := now |}.

(** [class MemoryCache] *)
Record MemoryCache := mkMemoryCache {
  max_size : Z;
  default_ttl : Z;
  _cache : list (string * CacheEntry);
  _project_caches : gmap string (list (string * CacheEntry))
}.

(** [MemoryCache.__init__] *)
Definition MemoryCache_init (max_size default_ttl : Z) : MemoryCache :=
  {| max_size := max_size; default_ttl := default_ttl;
     _cache := []; _project_caches := ∅ |}.

(** [_generate_key] *)
Definition _generate_key (d : json) : string :=
  sha256_hexdigest (json_dumps encode_basestring d).

(** [_evict_if_needed]: [while len(cache) >= self.max_size:
    cache.popitem(last=False)]. The boolean is [false] when [popitem]
    raised [KeyError] on the emptied dictionary. *)
Fixpoint _evict_if_needed (max_size : Z) (cache : list (string * CacheEntry))
  : bool * list (string * CacheEntry) :=
  if Z.of_nat (length cache) >=? max_size then
    match cache with
    | [] => (false, [])
    | _ :: rest => _evict_if_needed max_size rest
    end
  else (true, cache).

(** [_cleanup_expired] *)
Definition _cleanup_expired (now : Q) (cache : list (string * CacheEntry))
  : list (string * CacheEntry) :=
  let expired_keys := map fst (filter (fun kv => is_expired now (snd kv) = true) cache) in
  foldl (fun c k => od_delitem k c) cache expired_keys.

(** The [OrderedDict] objects a [MemoryCache] owns: [_get_cache] returns a
    reference to one of them, and the caller mutates it in place. *)
Inductive store_ref :=
| GlobalStore
| ProjectStore (project_id : string).

#[global] Instance store_ref_eq_dec : EqDecision store_ref.
Proof. solve_decision. Defined.

Definition read_store (r : store_ref) (c : MemoryCache) : list (string * CacheEntry) :=
  match r with
  | GlobalStore => _cache c
  | ProjectStore p => default [] (_project_caches c !! p)
  end.

Definition write_store (r : store_ref) (d : list (string * CacheEntry)) (c : MemoryCache)
  : MemoryCache :=
  match r with
  | GlobalStore =>
      {| max_size := max_size c; default_ttl := default_ttl c;
         _cache := d; _project_caches := _project_caches c |}
  | ProjectStore p =>
      {| max_size := max_size c; default_ttl := default_ttl c;
         _cache := _cache c; _project_caches := <[p := d]> (_project_caches c) |}
  end.

(** The store a [project_id] argument names: [if project_id:] sends
    [None] and the empty string to the global store. *)
Definition resolve (project_id : option string) : store_ref :=
  match project_id with
  | Some p => if str_truthy (Some p) then ProjectStore p else GlobalStore
  | None => GlobalStore
  end.

(** [_get_cache]: creates the project's store when it is missing. *)
Definition _get_cache (project_id : option string) (c : MemoryCache)
  : store_ref * MemoryCache :=
  match resolve project_id with
  | ProjectStore p =>
      match _project_caches c !! p with
      | None => (ProjectStore p, write_store (ProjectStore p) [] c)
      | Some _ => (ProjectStore p, c)
      end
  | GlobalStore => (GlobalStore, c)
  end.

(** [ttl or self.default_ttl] *)
Definition ttl_or_default (t : option Z) (c : MemoryCache) : Z :=
  match t with
  | Some t => if t =? 0 then default_ttl c else t
  | None => default_ttl c
  end.

(** [MemoryCache.set] *)
Definition set (key : string) (d : V) (t : option Z) (project_id : option string)
    (now : Q) (c : MemoryCache) : outcome string * MemoryCache :=
  let t := ttl_or_default t c in
  let '(r, c) := _get_cache project_id c in
  let cache := _cleanup_expired now (read_store r c) in
  match _evict_if_needed (max_size c) cache with
  | (false, cache) => (Raise KeyError, write_store r cache c)
  | (true, cache) =>
      let entry := CacheEntry_init d t now in
      let cache := od_setitem key entry cache in
      match od_move_to_end key cache with
      | None => (Raise KeyError, write_store r cache c)
      | Some cache => (Return key, write_store r cache c)
      end
  end.

(** [MemoryCache.get]; [None] is the [None] the method returns. *)
Definition get (key : string) (project_id : option string) (now : Q) (c : MemoryCache)
  : option V * MemoryCache :=
  let '(r, c) := _get_cache project_id c in
  let cache := read_store r c in
  match od_get key cache with
  | None => (None, c)
  | Some entry =>
      if is_expired now entry then (None, write_store r (od_delitem key cache) c)
      else (Some (data entry), write_store r (od_setitem key (access now entry) cache) c)
  end.

(** [cache_query_result] *)
Definition cache_query_result (query : string) (result : V) (collection_name : string)
    (project_id : option string) (t : option Z) (now : Q) (c : MemoryCache)
  : outcome string * MemoryCache :=
  let key :=
    _generate_key
      (JDict [("query", JStr query);
              ("collection", JStr collection_name);
              ("project", match project_id with Some p => JStr p | None => JNull end)]) in
  set key result t project_id now c.

(** [get_query_result] *)
Definition get_query_result (query collection_name : string)
    (project_id : option string) (now : Q) (c : MemoryCache) : option V * MemoryCache :=
  let key :=
    _generate_key
      (JDict [("query", JStr query);
              ("collection", JStr collection_name);
              ("project", match project_id with Some p => JStr p | None => JNull end)]) in
  get key project_id now c.

(** [get_stats] *)
Record CacheStats := mkCacheStats {
  total_entries : Z;
  expired_count : Z;
  active_entries : Z;
  total_accesses : Z;
  stats_max_size : Z;
  stats_default_ttl : Z
}.

Definition get_stats (project_id : option string) (now : Q) (c : MemoryCache)
  : CacheStats * MemoryCache :=
  let '(r, c) := _get_cache project_id c in
  let cache := read_store r c in
  let total := Z.of_nat (length cache) in
  let expired := Z.of_nat (length (filter (fun kv => is_expired now (snd kv) = true) cache)) in
  let accesses := foldr Z.add 0 (map (fun kv => access_count (snd kv)) cache) in
  ({| total_entries := total; expired_count := expired;
      active_entries := total - expired; total_accesses := accesses;
      stats_max_size := max_size c; stats_default_ttl := default_ttl c |}, c).

(** [clear] *)
Definition clear (project_id : option string) (c : MemoryCache) : MemoryCache :=
  match resolve project_id with
  | ProjectStore p =>
      match _project_caches c !! p with
      | Some _ => write_store (ProjectStore p) [] c
      | None => c
      end
  | GlobalStore => write_store GlobalStore [] c
  end.

(** [clear_all_projects] *)
Definition clear_all_projects (c : MemoryCache) : MemoryCache :=
  {| max_size := max_size c; default_ttl := default_ttl c;
     _cache := _cache c; _project_caches := ∅ |}.
End with_data.
End Cache.

(** ** entity_mapper.py *)
Module EntityMapper.
Section with_set_order.
(** The order in which [for rel_id in entity.relationships] visits a
    [set]: some enumeration of the elements. *)
Variable set_iter : gset string -> list string.

(** [class Entity]; [properties] is a [dict]. *)
Record Entity := mkEntity {
  entity_id : string;
  entity_type : string;
  properties : list (string * json);
  relationships : gset string
}.

(** [class Relationship] *)
Record Relationship := mkRelationship {
  relationship_id : string;
  source_id : string;
  target_id : string;
  relationship_type : string;
  rel_properties : list (string * json)
}.

(** [class EntityRelationshipMapper]; the two indices are
    [defaultdict(set)]. *)
Record EntityRelationshipMapper := mkMapper {
  _entities : gmap string Entity;
  _relationships : gmap string Relationship;
  _entity_index : gmap string (gset string);
  _relationship_index : gmap (string * string) (gset string)
}.

Definition EntityRelationshipMapper_init : EntityRelationshipMapper :=
  {| _entities := ∅; _relationships := ∅; _entity_index := ∅; _relationship_index := ∅ |}.

(** [properties or {}] *)
Definition props_or_empty (p : option (list (string * json))) : list (string * json) :=
  match p with
  | Some d => d
  | None => []
  end.

(** [add_entity] *)
Definition add_entity (entity_id entity_type : string)
    (properties : option (list (string * json))) (m : EntityRelationshipMapper)
  : Entity * EntityRelationshipMapper :=
  let entity := {| entity_id := entity_id; entity_type := entity_type;
                   properties := props_or_empty properties; relationships := ∅ |} in
  (entity,
   {| _entities := <[entity_id := entity]> (_entities m);
      _relationships := _relationships m;
      _entity_index :=
        <[entity_type := default ∅ (_entity_index m !! entity_type) ∪ {[entity_id]}]>
          (_entity_index m);
      _relationship_index := _relationship_index m |}).

(** [entity.relationships.add(rid)] *)
Definition attach (rid : string) (e : Entity) : Entity :=
  {| entity_id := entity_id e; entity_type := entity_type e;
     properties := properties e; relationships := relationships e ∪ {[rid]} |}.

(** [add_relationship]; [None] is the [None] the method returns. *)
Definition add_relationship (relationship_id source_id target_id relationship_type : string)
    (properties : option (list (string * json))) (m : EntityRelationshipMapper)
  : option Relationship * EntityRelationshipMapper :=
  if bool_decide (source_id ∉ dom (_entities m)) || bool_decide (target_id ∉ dom (_entities m))
  then (None, m)
  else
    let relationship :=
      {| relationship_id := relationship_id; source_id := source_id;
         target_id := target_id; relationship_type := relationship_type;
         rel_properties := props_or_empty properties |} in
    (Some relationship,
     {| _entities :=
          alter (attach relationship_id) target_id
            (alter (attach relationship_id) source_id (_entities m));
        _relationships := <[relationship_id := relationship]> (_relationships m);
        _entity_index := _entity_index m;
        _relationship_index :=
          <[(source_id, target_id) :=
              default ∅ (_relationship_index m !! (source_id, target_id)) ∪ {[relationship_id]}]>
            (_relationship_index m) |}).

(** The loop of [get_connected]; [self._relationships[rel_id]] raises
    [KeyError] for an id that is not in the map. *)
Fixpoint connect_loop (m : EntityRelationshipMapper) (entity_id : string)
    (type_filter : option string) (rel_ids : list string)
    (connected : list (Entity * Relationship)) : outcome (list (Entity * Relationship)) :=
  match rel_ids with
  | [] => Return connected
  | rel_id :: rest =>
      match _relationships m !! rel_id with
      | None => Raise KeyError
      | Some rel =>
          if str_truthy type_filter
             && negb (bool_decide (Some (relationship_type rel) = type_filter))
          then connect_loop m entity_id type_filter rest connected
          else
            let other_id :=
              if String.eqb (source_id rel) entity_id then target_id rel else source_id rel in
            match _entities m !! other_id with
            | Some other_entity =>
                connect_loop m entity_id type_filter rest (connected ++ [(other_entity, rel)])
            | None => connect_loop m entity_id type_filter rest connected
            end
      end
  end.

(** [get_connected_entities]; [type_filter] is its [relationship_type]
    argument. *)
Definition get_connected_entities (entity_id : string) (type_filter : option string)
    (m : EntityRelationshipMapper) : outcome (list (Entity * Relationship)) :=
  match _entities m !! entity_id with
  | None => Return []
  | Some entity =>
      connect_loop m entity_id type_filter (set_iter (relationships entity)) []
  end.

(** The [for entity, rel in connected] loop of [find_path]: either the
    path that is returned, or the queue after the loop. *)
Fixpoint scan_connected (target_id current_id : string) (path : list (string * string))
    (connected : list (Entity * Relationship))
    (queue : list (string * list (string * string)))
  : list (string * string) + list (string * list (string * string)) :=
  match connected with
  | [] => inr queue
  | (entity, rel) :: rest =>
      let new_path := path ++ [(current_id, relationship_id rel)] in
      if String.eqb (entity_id entity) target_id
      then inl (new_path ++ [(entity_id entity, "")])
      else scan_connected target_id current_id path rest
             (queue ++ [(entity_id entity, new_path)])
  end.

(** The [while queue] loop of [find_path]. One unit of [fuel] is one test
    of the loop condition; the outer [None] is a loop cut short by the
    fuel. The inner option is the value returned. *)
Fixpoint bfs (fuel : nat) (m : EntityRelationshipMapper) (target_id : string) (max_depth : Z)
    (visited : gset string) (queue : list (string * list (string * string)))
  : option (outcome (option (list (string * string)))) :=
  match fuel with
  | O => None
  | S fuel =>
      match queue with
      | [] => Some (Return None)
      | (current_id, path) :: queue =>
          if Z.of_nat (length path) >=? max_depth then
            bfs fuel m target_id max_depth visited queue
          else if bool_decide (current_id ∈ visited) then
            bfs fuel m target_id max_depth visited queue
          else
            let visited := visited ∪ {[current_id]} in
            match get_connected_entities current_id None m with
            | Raise e => Some (Raise e)
            | Return connected =>
                match scan_connected target_id current_id path connected queue with
                | inl found => Some (Return (Some found))
                | inr queue => bfs fuel m target_id max_depth visited queue
                end
            end
      end
  end.

(** [find_path] *)
Definition find_path (fuel : nat) (source_id target_id : string) (max_depth : Z)
    (m : EntityRelationshipMapper) : option (outcome (option (list (string * string)))) :=
  if bool_decide (source_id ∉ dom (_entities m)) || bool_decide (target_id ∉ dom (_entities m))
  then Some (Return None)
  else if String.eqb source_id target_id then Some (Return (Some []))
  else bfs fuel m target_id max_depth ∅ [(source_id, [])].
(** The order in which [d.values()] lists a [dict] with [str] keys: some
    enumeration of the values (Python lists them in insertion order, which
    the maps of the model do not record). *)
Variable dict_values : forall A : Type, gmap string A -> list A.

(** [Entity.to_dict]; [list(self.relationships)] lists the set in its
    iteration order. *)
Record EntityDict := mkEntityDict {
  dict_id : string;
  dict_type : string;
  dict_properties : list (string * json);
  dict_relationships : list string
}.

Definition Entity_to_dict (e : Entity) : EntityDict :=
  {| dict_id := entity_id e; dict_type := entity_type e;
     dict_properties := properties e; dict_relationships := set_iter (relationships e) |}.

(** [Relationship.to_dict] *)
Record RelationshipDict := mkRelationshipDict {
  rdict_id : string;
  rdict_source : string;
  rdict_target : string;
  rdict_type : string;
  rdict_properties : list (string * json)
}.

Definition Relationship_to_dict (r : Relationship) : RelationshipDict :=
  {| rdict_id := relationship_id r; rdict_source := source_id r; rdict_target := target_id r;
     rdict_type := relationship_type r; rdict_properties := rel_properties r |}.

(** [get_entity] *)
Definition get_entity (entity_id : string) (m : EntityRelationshipMapper) : option Entity :=
  _entities m !! entity_id.

(** [get_relationship] *)
Definition get_relationship (relationship_id : string) (m : EntityRelationshipMapper)
  : option Relationship :=
  _relationships m !! relationship_id.

(** [[d[k] for k in ids]]: a missing key raises [KeyError]. *)
Fixpoint getitems {A : Type} (d : gmap string A) (ids : list string) : outcome (list A) :=
  match ids with
  | [] => Return []
  | id :: ids =>
      match d !! id with
      | None => Raise KeyError
      | Some a =>
          match getitems d ids with
          | Return l => Return (a :: l)
          | Raise e => Raise e
          end
      end
  end.

(** [get_entities_by_type] *)
Definition get_entities_by_type (entity_type : string) (m : EntityRelationshipMapper)
  : outcome (list Entity) :=
  let entity_ids := default ∅ (_entity_index m !! entity_type) in
  getitems (_entities m) (set_iter entity_ids).

(** [get_relationships_between] *)
Definition get_relationships_between (source_id target_id : string)
    (m : EntityRelationshipMapper) : outcome (list Relationship) :=
  let rel_ids := default ∅ (_relationship_index m !! (source_id, target_id)) in
  getitems (_relationships m) (set_iter rel_ids).

(** [export_graph] *)
Record GraphExport := mkGraphExport {
  export_entities : list EntityDict;
  export_relationships : list RelationshipDict
}.

Definition export_graph (m : EntityRelationshipMapper) : GraphExport :=
  {| export_entities := map Entity_to_dict (dict_values Entity (_entities m));
     export_relationships :=
       map Relationship_to_dict (dict_values Relationship (_relationships m)) |}.

(** The dictionaries [import_graph] reads. Of an entity it reads ["id"],
    ["type"] and, when present, ["properties"]; of a relationship ["id"],
    ["source"], ["target"], ["type"] and, when present, ["properties"]; the
    two lists themselves may be absent. A dictionary that lacks one of the
    keys read with [[..]] raises [KeyError] in Python and has no
    counterpart here. *)
Record EntityData := mkEntityData {
  data_id : string;
  data_type : string;
  data_properties : option (list (string * json))
}.

Record RelationshipData := mkRelationshipData {
  rdata_id : string;
  rdata_source : string;
  rdata_target : string;
  rdata_type : string;
  rdata_properties : option (list (string * json))
}.

Record GraphData := mkGraphData {
  data_entities : option (list EntityData);
  data_relationships : option (list RelationshipData)
}.

(** An exported graph, read as the argument of [import_graph]. *)
Definition graph_data_of_export (g : GraphExport) : GraphData :=
  {| data_entities :=
       Some (map (fun d => {| data_id := dict_id d; data_type := dict_type d;
                              data_properties := Some (dict_properties d) |})
               (export_entities g));
     data_relationships :=
       Some (map (fun d => {| rdata_id := rdict_id d; rdata_source := rdict_source d;
                              rdata_target := rdict_target d; rdata_type := rdict_type d;
                              rdata_properties := Some (rdict_properties d) |})
               (export_relationships g)) |}.

(** [import_graph]: the four structures are cleared, so the mapper before
    the call does not matter. *)
Definition import_graph (graph_data : GraphData) (m : EntityRelationshipMapper)
  : EntityRelationshipMapper :=
  let m := EntityRelationshipMapper_init in
  let m :=
    foldl (fun m entity_data =>
             snd (add_entity (data_id entity_data) (data_type entity_data)
                    (data_properties entity_data) m))
      m (default [] (data_entities graph_data)) in
  foldl (fun m rel_data =>
           snd (add_relationship (rdata_id rel_data) (rdata_source rel_data)
                  (rdata_target rel_data) (rdata_type rel_data)
                  (rdata_properties rel_data) m))
    m (default [] (data_relationships graph_data)).

(** [get_statistics]; [relationship_type_counts] is a [defaultdict(int)]. *)
Record GraphStatistics := mkGraphStatistics {
  total_entities : Z;
  total_relationships : Z;
  entity_types : gmap string Z;
  relationship_types : gmap string Z
}.

Definition count_relationship_type (counts : gmap string Z) (rel : Relationship)
  : gmap string Z :=
  <[relationship_type rel := default 0 (counts !! relationship_type rel) + 1]> counts.

Definition get_statistics (m : EntityRelationshipMapper) : GraphStatistics :=
  {| total_entities := Z.of_nat (size (_entities m));
     total_relationships := Z.of_nat (size (_relationships m));
     entity_types := (fun entity_ids : gset string => Z.of_nat (size entity_ids))
                       <$> _entity_index m;
     relationship_types :=
       foldl count_relationship_type ∅ (dict_values Relationship (_relationships m)) |}.
End with_set_order.
End EntityMapper.

(** ** swarm.py *)
Module Swarm.
Section with_hash.
Variable sha256_hexdigest : string -> string.

(** [min(a, b)] and [max(a, b)] of Python: the first argument unless the
    second is strictly smaller (larger). *)
Definition py_min (a b : Q) : Q := if Qgtb a b then b else a.
Definition py_max (a b : Q) : Q := if Qgtb b a then b else a.

(** The [metadata] dictionary that [track_operation] stores. *)
Record TrailMetadata := mkTrailMetadata {
  operation_type : string;
  collection : string;
  query : string;
  first_seen : Q
}.

(** [class PheromoneTrail]; [metadata = {}] is [None]. *)
Record PheromoneTrail := mkPheromoneTrail {
  trail_id : string;
  strength : Q;
  last_update : Q;
  access_count : Z;
  metadata : option TrailMetadata
}.

(** [PheromoneTrail.__init__] with [initial_strength = 1.0] *)
Definition PheromoneTrail_init (trail_id : string) (now : Q) : PheromoneTrail :=
  {| trail_id := trail_id; strength := 1; last_update := now;
     access_count := 0; metadata := None |}.

(** [reinforce] *)
Definition reinforce (amount : Q) (now : Q) (t : PheromoneTrail) : PheromoneTrail :=
  {| trail_id := trail_id t;
     strength := py_min 1 (strength t + amount);
     last_update := now;
     access_count := access_count t + 1;
     metadata := metadata t |}.

(** [evaporate] *)
Definition evaporate (rate : Q) (now : Q) (t : PheromoneTrail) : PheromoneTrail :=
  let time_passed := (now - last_update t)%Q in
  let evaporation := (rate * time_passed / 60)%Q in
  {| trail_id := trail_id t;
     strength := py_max 0 (strength t - evaporation);
     last_update := now;
     access_count := access_count t;
     metadata := metadata t |}.

(** The records appended to [_operation_patterns]. *)
Record Pattern := mkPattern {
  timestamp : Q;
  operation : string;
  pattern_trail_id : string
}.

(** [class SwarmTracker]; [_trails] is iterated, so it keeps its
    insertion order; [_operation_patterns] is a [defaultdict(list)]. *)
Record SwarmTracker := mkSwarmTracker {
  evaporation_rate : Q;
  _trails : list (string * PheromoneTrail);
  _operation_patterns : gmap string (list Pattern)
}.

Definition SwarmTracker_init (evaporation_rate : Q) : SwarmTracker :=
  {| evaporation_rate := evaporation_rate; _trails := []; _operation_patterns := ∅ |}.

(** [_generate_trail_id] *)
Definition _generate_trail_id (operation_type collection query : string) : string :=
  let data := operation_type +:+ ":" +:+ collection +:+ ":" +:+ query in
  String.substring 0 16 (sha256_hexdigest data).

(** [query or ""] *)
Definition query_or_empty (query : option string) : string :=
  match query with
  | Some q => q
  | None => ""
  end.

(** [self._trails[trail_id].metadata = md] *)
Definition set_metadata (md : TrailMetadata) (t : PheromoneTrail) : PheromoneTrail :=
  {| trail_id := trail_id t; strength := strength t; last_update := last_update t;
     access_count := access_count t; metadata := Some md |}.

(** [track_operation]; the [metadata] argument of the method is not used
    by its body and is left out. *)
Definition track_operation (operation_type collection_name : string) (query : option string)
    (now : Q) (s : SwarmTracker) : string * SwarmTracker :=
  let query_str := query_or_empty query in
  let trail_id := _generate_trail_id operation_type collection_name query_str in
  let trails :=
    match od_get trail_id (_trails s) with
    | Some _ => _trails s
    | None =>
        od_setitem trail_id
          (set_metadata
             {| operation_type := operation_type; collection := collection_name;
                query := query_str; first_seen := now |}
             (PheromoneTrail_init trail_id now))
          (_trails s)
    end in
  let trails :=
    match od_get trail_id trails with
    | Some trail => od_setitem trail_id (reinforce (1 # 10) now trail) trails
    | None => trails
    end in
  let patterns :=
    default [] (_operation_patterns s !! collection_name)
      ++ [{| timestamp := now; operation := operation_type; pattern_trail_id := trail_id |}] in
  (trail_id,
   {| evaporation_rate := evaporation_rate s;
      _trails := trails;
      _operation_patterns := <[collection_name := patterns]> (_operation_patterns s) |}).

(** The dictionaries [get_hot_trails] returns. *)
Record HotTrail := mkHotTrail {
  hot_trail_id : string;
  hot_strength : Q;
  hot_access_count : Z;
  hot_metadata : option TrailMetadata
}.

Definition hot_of (t : PheromoneTrail) : HotTrail :=
  {| hot_trail_id := trail_id t; hot_strength := strength t;
     hot_access_count := access_count t; hot_metadata := metadata t |}.

(** [hot_trails.sort(key=lambda x: x["strength"], reverse=True)]: a stable
    sort, the strongest first; equal strengths keep their order. *)
Fixpoint insert_hot (x : HotTrail) (l : list HotTrail) : list HotTrail :=
  match l with
  | [] => [x]
  | y :: r =>
      if Qgtb (hot_strength y) (hot_strength x) then y :: insert_hot x r else x :: y :: r
  end.

Definition sort_hot (l : list HotTrail) : list HotTrail := foldr insert_hot [] l.

(** [get_hot_trails] *)
Definition get_hot_trails (min_strength : Q) (limit : Z) (now : Q) (s : SwarmTracker)
  : list HotTrail * SwarmTracker :=
  let trails :=
    map (fun kt => (fst kt, evaporate (evaporation_rate s) now (snd kt))) (_trails s) in
  let hot_trails :=
    map (fun kt => hot_of (snd kt))
      (filter (fun kt => Qgeb (strength (snd kt)) min_strength = true) trails) in
  (slice_to limit (sort_hot hot_trails),
   {| evaporation_rate := evaporation_rate s;
      _trails := trails;
      _operation_patterns := _operation_patterns s |}).

(** The dictionary [get_collection_patterns] returns: the short form for
    a collection without patterns, the summary otherwise.
    [operation_counts] is the [defaultdict(int)] of the analysis. *)
Inductive CollectionPatterns :=
| NoPatterns (collection : string)
| PatternSummary (collection : string) (total_operations : Z)
    (operation_counts : gmap string Z) (recent_operations : Z)
    (patterns : list Pattern).

Definition count_operation (counts : gmap string Z) (p : Pattern) : gmap string Z :=
  <[operation p := default 0 (counts !! operation p) + 1]> counts.

(** [get_collection_patterns] *)
Definition get_collection_patterns (collection_name : string) (now : Q) (s : SwarmTracker)
  : CollectionPatterns :=
  let patterns := default [] (_operation_patterns s !! collection_name) in
  match patterns with
  | [] => NoPatterns collection_name
  | _ =>
      let window := slice_last 100 patterns in
      let operation_counts := foldl count_operation ∅ window in
      let recent_operations :=
        filter (fun p => Qgtb 3600 (now - timestamp p) = true) window in
      PatternSummary collection_name (Z.of_nat (length patterns)) operation_counts
        (Z.of_nat (length recent_operations)) (slice_last 10 patterns)
  end.
End with_hash.

(** ** swarm.py: [CodeSmellMonitor] *)
Section with_json.
(** The dictionaries that are passed as ["where"], and [json.dumps] on
    them (its output is ASCII, so [len] counts its characters). *)
Context {Filter : Type}.
Variable json_dumps : Filter -> string.

(** The [params] of an operation as far as the checks read them:
    ["n_results"] (an [int]), ["documents"] (a list) and ["where"], which is
    a dictionary or some other value. Each of the keys may be absent. *)
Record Params := mkParams {
  n_results : option Z;
  documents : option (list string);
  where_ : option (option Filter)
}.

(** What a check returns when it finds something. *)
Record CheckResult := mkCheckResult {
  check_description : string;
  check_severity : string;
  check_suggestion : string
}.

(** The dictionary that [analyze_operation] stores for a finding. *)
Record Smell := mkSmell {
  smell_type : string;
  smell_operation : string;
  smell_collection : string;
  smell_description : string;
  smell_severity : string;
  smell_suggestion : string;
  smell_timestamp : Q
}.

(** [class CodeSmellMonitor]; [_checks] is fixed, see below. *)
Record CodeSmellMonitor := mkCodeSmellMonitor {
  _smells : list Smell
}.

Definition CodeSmellMonitor_init : CodeSmellMonitor := {| _smells := [] |}.

(** [_check_excessive_queries]; [params.get("n_results", 0)] *)
Definition _check_excessive_queries (operation_type collection_name : string)
    (params : Params) : option CheckResult :=
  if String.eqb operation_type "query" && (default 0 (n_results params) >? 100)
  then Some {| check_description :=
                 "Query requesting " +:+ pretty (default 0 (n_results params))
                 +:+ " results, which may be excessive";
               check_severity := "warning";
               check_suggestion := "Consider paginating results or reducing n_results" |}
  else None.

(** [_check_large_batch_size] *)
Definition _check_large_batch_size (operation_type collection_name : string)
    (params : Params) : option CheckResult :=
  if String.eqb operation_type "add" then
    match documents params with
    | Some docs =>
        let doc_count := Z.of_nat (length docs) in
        if doc_count >? 1000
        then Some {| check_description :=
                       "Adding " +:+ pretty doc_count +:+ " documents in single batch";
                     check_severity := "warning";
                     check_suggestion :=
                       "Consider batching into smaller groups (e.g., 500 documents)" |}
        else None
    | None => None
    end
  else None.

(** [_check_inefficient_filtering] *)
Definition _check_inefficient_filtering (operation_type collection_name : string)
    (params : Params) : option CheckResult :=
  match where_ params with
  | Some (Some filter) =>
      let filter_str := json_dumps filter in
      if Z.of_nat (String.length filter_str) >? 500
      then Some {| check_description := "Complex metadata filter detected";
                   check_severity := "info";
                   check_suggestion :=
                     "Consider simplifying filters or using indexed fields" |}
      else None
  | _ => None
  end.

(** [_check_duplicate_operations] *)
Definition _check_duplicate_operations (operation_type collection_name : string)
    (params : Params) : option CheckResult :=
  None.

(** [self._checks], in the order of the dictionary. *)
Definition _checks : list (string * (string -> string -> Params -> option CheckResult)) :=
  [("excessive_queries", _check_excessive_queries);
   ("large_batch_size", _check_large_batch_size);
   ("inefficient_filtering", _check_inefficient_filtering);
   ("duplicate_operations", _check_duplicate_operations)].

(** One round of the loop of [analyze_operation]: the pair is [smells] and
    [self._smells]. *)
Definition run_check (operation_type collection_name : string) (params : Params) (now : Q)
    (acc : list Smell * list Smell)
    (check : string * (string -> string -> Params -> option CheckResult))
  : list Smell * list Smell :=
  match snd check operation_type collection_name params with
  | Some result =>
      let smell :=
        {| smell_type := fst check; smell_operation := operation_type;
           smell_collection := collection_name;
           smell_description := check_description result;
           smell_severity := check_severity result;
           smell_suggestion := check_suggestion result;
           smell_timestamp := now |} in
      (fst acc ++ [smell], snd acc ++ [smell])
  | None => acc
  end.

(** [analyze_operation] *)
Definition analyze_operation (operation_type collection_name : string) (params : Params)
    (now : Q) (mon : CodeSmellMonitor) : list Smell * CodeSmellMonitor :=
  let acc := foldl (run_check operation_type collection_name params now)
               ([], _smells mon) _checks in
  let smells := fst acc in
  let stored := snd acc in
  let stored := if Z.of_nat (length stored) >? 1000 then slice_last 1000 stored else stored in
  (smells, {| _smells := stored |}).

(** [get_smell_report]; the report of a monitor without smells has no
    ["by_severity"]. *)
Inductive SmellReport :=
| NoSmells
| SmellSummary (total_smells : Z) (by_type by_severity : gmap string Z) (recent : list Smell).

Definition count_smell (key : Smell -> string) (counts : gmap string Z) (smell : Smell)
  : gmap string Z :=
  <[key smell := default 0 (counts !! key smell) + 1]> counts.

Definition get_smell_report (mon : CodeSmellMonitor) : SmellReport :=
  match _smells mon with
  | [] => NoSmells
  | _ =>
      SmellSummary (Z.of_nat (length (_smells mon)))
        (foldl (count_smell smell_type) ∅ (_smells mon))
        (foldl (count_smell smell_severity) ∅ (_smells mon))
        (slice_last 10 (_smells mon))
  end.
End with_json.
End Swarm.

(** ** Runs of cache operations

    The calls a client makes on a [MemoryCache], and the cache after a
    sequence of them; an exception leaves the cache as the failed call left
    it. *)
Section cache_runs.
Context {V : Type}.

Inductive cache_op :=
| OpSet (key : string) (d : V) (t : option Z) (project_id : option string) (now : Q)
| OpGet (key : string) (project_id : option string) (now : Q)
| OpClear (project_id : option string)
| OpClearAllProjects.

Definition cache_step (c : Cache.MemoryCache) (o : cache_op) : Cache.MemoryCache :=
  match o with
  | OpSet key d t project_id now => snd (Cache.set key d t project_id now c)
  | OpGet key project_id now => snd (Cache.get key project_id now c)
  | OpClear project_id => Cache.clear project_id c
  | OpClearAllProjects => Cache.clear_all_projects c
  end.

Definition cache_run (ops : list cache_op) (c : Cache.MemoryCache) : Cache.MemoryCache :=
  foldl cache_step c ops.

(** The number of entries of the store a scope names. *)
Definition store_len (r : Cache.store_ref) (c : Cache.MemoryCache) : Z :=
  Z.of_nat (length (Cache.read_store (V := V) r c)).
End cache_runs.

(** ** Concrete caches used as examples *)

(** [set k1; set k2; get k1; set k3] at time 0 on a new cache of capacity 2
    (global scope). *)
Definition lru_scenario : Cache.MemoryCache (V := string) :=
  cache_run [OpSet "k1" "v1" None None 0; OpSet "k2" "v2" None None 0;
             OpGet "k1" None 0; OpSet "k3" "v3" None None 0]
    (Cache.MemoryCache_init 2 3600).

(** [set("k", "v", ttl=5)] at time 0 on a new cache. *)
Definition ttl_scenario : Cache.MemoryCache (V := string) :=
  snd (Cache.set "k" "v" (Some 5) None 0 (Cache.MemoryCache_init 10 3600)).

(** [set("k", "v", project_id="")] at time 0 on a new cache. *)
Definition empty_tenant_scenario : Cache.MemoryCache (V := string) :=
  snd (Cache.set "k" "v" None (Some "") 0 (Cache.MemoryCache_init 10 3600)).

(** ** The chain graph

    The mapper after [add_entity A], [add_entity B], [add_entity C],
    [add_relationship r1 A B] and [add_relationship r2 B C] on a new
    mapper: entities A, B, C and the relationships r1 from A to B and r2
    from B to C, nothing else. Maps and sets are extensional, so any order
    of these calls that adds the endpoints first builds the same mapper. *)
Definition chain_graph (A B C r1 r2 tyA tyB tyC ty1 ty2 : string)
    (pA pB pC p1 p2 : option (list (string * json))) : EntityMapper.EntityRelationshipMapper :=
  let m := EntityMapper.EntityRelationshipMapper_init in
  let m := snd (EntityMapper.add_entity A tyA pA m) in
  let m := snd (EntityMapper.add_entity B tyB pB m) in
  let m := snd (EntityMapper.add_entity C tyC pC m) in
  let m := snd (EntityMapper.add_relationship r1 A B ty1 p1 m) in
  snd (EntityMapper.add_relationship r2 B C ty2 p2 m).

(** ** Reordering the fields of dictionaries

    [json_reorder j1 j2]: [j2] is [j1] with the items of some of its
    dictionaries, at any depth, listed in another order. The keys of a
    dictionary that is reordered are distinct, as the keys of a Python
    [dict] are. *)
#[warnings="-register-all"] Inductive json_reorder : json -> json -> Prop :=
| reorder_refl (j : json) : json_reorder j j
| reorder_items (items1 items2 : list (string * json)) :
    NoDup (map fst items1) ->
    items1 ≡ₚ items2 ->
    json_reorder (JDict items1) (JDict items2)
| reorder_in_values (items1 items2 : list (string * json)) :
    Forall2 (fun kv1 kv2 => fst kv1 = fst kv2 /\ json_reorder (snd kv1) (snd kv2))
      items1 items2 ->
    json_reorder (JDict items1) (JDict items2)
| reorder_in_elements (l1 l2 : list json) :
    Forall2 json_reorder l1 l2 ->
    json_reorder (JList l1) (JList l2)
| reorder_trans (j1 j2 j3 : json) :
    json_reorder j1 j2 -> json_reorder j2 j3 -> json_reorder j1 j3.

(** ** Runs of the tracker *)

(** The operation log of a collection: [self._operation_patterns[c]], the
    empty list when the collection has no entry yet. *)
Definition operation_log (collection_name : string) (s : Swarm.SwarmTracker) : list Swarm.Pattern :=
  default [] (Swarm._operation_patterns s !! collection_name).

(** A sequence of [track_operation] calls that name one collection; each
    call has its own operation type, query and time. *)
Definition track_calls (sha256_hexdigest : string -> string) (collection_name : string)
    (calls : list (string * option string * Q)) (s : Swarm.SwarmTracker) : Swarm.SwarmTracker :=
  foldl (fun s call =>
           snd (Swarm.track_operation sha256_hexdigest (fst (fst call)) collection_name
                  (snd (fst call)) (snd call) s))
    s calls.

(** [n] identical calls. *)
Definition same_call (n : nat) : list (string * option string * Q) :=
  repeat ("query", None, 0%Q) n.

(** A tracker with three trails, tracked at time 0. The identity stands in
    for the hash, so a trail id is the first 16 characters of
    [operation:collection:query]. *)
Definition three_trails : Swarm.SwarmTracker :=
  track_calls (fun data => data) "docs"
    [("query", None, 0%Q); ("add", None, 0%Q); ("update", None, 0%Q)]
    (Swarm.SwarmTracker_init (1 # 100)).

(** The order of a ranking: the stronger trail first. *)
Definition stronger_first (a b : Swarm.HotTrail) : Prop :=
  (Swarm.hot_strength b <= Swarm.hot_strength a)%Q.

(** The shape of a chain, stated on the lookups: what the three entities
    and the two relationships are. *)
Record is_chain (m : EntityMapper.EntityRelationshipMapper) (A B C r1 r2 : string)
    (eA eB eC : EntityMapper.Entity) (rel1 rel2 : EntityMapper.Relationship) : Prop := {
  chain_A : EntityMapper._entities m !! A = Some eA;
  chain_B : EntityMapper._entities m !! B = Some eB;
  chain_C : EntityMapper._entities m !! C = Some eC;
  chain_idA : EntityMapper.entity_id eA = A;
  chain_idB : EntityMapper.entity_id eB = B;
  chain_idC : EntityMapper.entity_id eC = C;
  chain_relsA : EntityMapper.relationships eA = {[r1]};
  chain_relsB : EntityMapper.relationships eB = {[r1]} ∪ {[r2]};
  chain_relsC : EntityMapper.relationships eC = {[r2]};
  chain_r1 : EntityMapper._relationships m !! r1 = Some rel1;
  chain_r2 : EntityMapper._relationships m !! r2 = Some rel2;
  chain_rel1 : rel1 = EntityMapper.mkRelationship r1 A B
                        (EntityMapper.relationship_type rel1) (EntityMapper.rel_properties rel1);
  chain_rel2 : rel2 = EntityMapper.mkRelationship r2 B C
                        (EntityMapper.relationship_type rel2) (EntityMapper.rel_properties rel2)
}.

(** ** The search loop

    The entities of the map, as the loop of [find_path] meets them. *)
Definition is_entity (m : EntityMapper.EntityRelationshipMapper) (e : EntityMapper.Entity) : Prop :=
  exists k, EntityMapper._entities m !! k = Some e.

(** The identifiers the queue can hold: the source and the identifiers of
    the entities of the map. *)
Definition queue_ids (m : EntityMapper.EntityRelationshipMapper) (source_id : string)
  : gset string :=
  list_to_set (source_id :: map (fun ke => EntityMapper.entity_id (snd ke))
                             (map_to_list (EntityMapper._entities m))).

(** ** Runs of the tracker with a clock *)

(** The calls a client makes on a [SwarmTracker]. *)
Inductive tracker_op :=
| OpTrack (operation_type collection_name : string) (query : option string) (now : Q)
| OpHotTrails (min_strength : Q) (limit : Z) (now : Q).

Definition tracker_op_time (o : tracker_op) : Q :=
  match o with
  | OpTrack _ _ _ now => now
  | OpHotTrails _ _ now => now
  end.

Definition tracker_step (sha256_hexdigest : string -> string) (s : Swarm.SwarmTracker)
    (o : tracker_op) : Swarm.SwarmTracker :=
  match o with
  | OpTrack operation_type collection_name query now =>
      snd (Swarm.track_operation sha256_hexdigest operation_type collection_name query now s)
  | OpHotTrails min_strength limit now => snd (Swarm.get_hot_trails min_strength limit now s)
  end.

Definition tracker_run (sha256_hexdigest : string -> string) (ops : list tracker_op)
    (s : Swarm.SwarmTracker) : Swarm.SwarmTracker :=
  foldl (tracker_step sha256_hexdigest) s ops.

(** The clock does not run backwards: the calls are made at times that do
    not decrease, starting from [T]. *)
Fixpoint clock_from (T : Q) (ops : list tracker_op) : Prop :=
  match ops with
  | [] => True
  | o :: ops => (T <= tracker_op_time o)%Q /\ clock_from (tracker_op_time o) ops
  end.

(** Every trail has a strength between 0 and 1. *)
Definition strengths_in_range (s : Swarm.SwarmTracker) : Prop :=
  Forall (fun kt => (0 <= Swarm.strength (snd kt) <= 1)%Q) (Swarm._trails s).

(** No trail was updated after [T]. *)
Definition updated_by (T : Q) (s : Swarm.SwarmTracker) : Prop :=
  Forall (fun kt => (Swarm.last_update (snd kt) <= T)%Q) (Swarm._trails s).



(** ** Mappers built through the interface *)

(** The calls that change an [EntityRelationshipMapper]. *)
Inductive mapper_op :=
| OpAddEntity (entity_id entity_type : string) (properties : option (list (string * json)))
| OpAddRelationship (relationship_id source_id target_id relationship_type : string)
    (properties : option (list (string * json)))
| OpImportGraph (graph_data : EntityMapper.GraphData).

Definition mapper_step (m : EntityMapper.EntityRelationshipMapper) (o : mapper_op)
  : EntityMapper.EntityRelationshipMapper :=
  match o with
  | OpAddEntity entity_id entity_type properties =>
      snd (EntityMapper.add_entity entity_id entity_type properties m)
  | OpAddRelationship relationship_id source_id target_id relationship_type properties =>
      snd (EntityMapper.add_relationship relationship_id source_id target_id
             relationship_type properties m)
  | OpImportGraph graph_data => EntityMapper.import_graph graph_data m
  end.

Definition mapper_run (ops : list mapper_op) (m : EntityMapper.EntityRelationshipMapper)
  : EntityMapper.EntityRelationshipMapper :=
  foldl mapper_step m ops.

(** The references between the four structures of a mapper resolve: an
    entity is stored under its own id and its relationship ids are keys of
    the relationship map; a relationship is stored under its own id and its
    endpoints are keys of the entity map; the ids in the two indices are
    keys of the maps they index. *)
Definition mapper_consistent (m : EntityMapper.EntityRelationshipMapper) : Prop :=
  (forall k e, EntityMapper._entities m !! k = Some e ->
     EntityMapper.entity_id e = k
     /\ EntityMapper.relationships e ⊆ dom (EntityMapper._relationships m))
  /\ (forall rid rel, EntityMapper._relationships m !! rid = Some rel ->
       EntityMapper.relationship_id rel = rid
       /\ EntityMapper.source_id rel ∈ dom (EntityMapper._entities m)
       /\ EntityMapper.target_id rel ∈ dom (EntityMapper._entities m))
  /\ (forall ty ids, EntityMapper._entity_index m !! ty = Some ids ->
       ids ⊆ dom (EntityMapper._entities m))
  /\ (forall st ids, EntityMapper._relationship_index m !! st = Some ids ->
       ids ⊆ dom (EntityMapper._relationships m)).

(** Every relationship id that an entity holds names a relationship with
    that entity as source or target. *)
Definition adjacency_sound (m : EntityMapper.EntityRelationshipMapper) : Prop :=
  forall k e rid,
    EntityMapper._entities m !! k = Some e ->
    rid ∈ EntityMapper.relationships e ->
    exists rel,
      EntityMapper._relationships m !! rid = Some rel
      /\ (EntityMapper.source_id rel = k \/ EntityMapper.target_id rel = k).

(** The pair index lists, for a pair, exactly the relationships from the
    first to the second. *)
Definition pair_index_exact (m : EntityMapper.EntityRelationshipMapper) : Prop :=
  forall s t rid,
    rid ∈ default ∅ (EntityMapper._relationship_index m !! (s, t))
    <-> exists rel,
          EntityMapper._relationships m !! rid = Some rel
          /\ EntityMapper.source_id rel = s /\ EntityMapper.target_id rel = t.

(** A sequence of calls in which no relationship id is used twice: every
    [add_relationship] names an id that is not yet a key of the
    relationship map. (Graph imports are left out.) *)
Fixpoint fresh_relationship_ids (ops : list mapper_op)
    (m : EntityMapper.EntityRelationshipMapper) : Prop :=
  match ops with
  | [] => True
  | o :: ops =>
      match o with
      | OpAddEntity _ _ _ => True
      | OpAddRelationship rid _ _ _ _ => rid ∉ dom (EntityMapper._relationships m)
      | OpImportGraph _ => False
      end
      /\ fresh_relationship_ids ops (mapper_step m o)
  end.

(** One hop of a path: the relationship [rid] has [u] at one end and [v],
    an entity of the map, at the other. *)
Definition is_hop (m : EntityMapper.EntityRelationshipMapper) (u rid v : string) : Prop :=
  exists rel,
    EntityMapper._relationships m !! rid = Some rel
    /\ ((EntityMapper.source_id rel = u /\ EntityMapper.target_id rel = v)
        \/ (EntityMapper.target_id rel = u /\ EntityMapper.source_id rel = v))
    /\ v ∈ dom (EntityMapper._entities m).

(** [hops] leads from [u] to [v]: each pair names the entity the hop
    leaves and the relationship it takes. *)
Fixpoint is_walk (m : EntityMapper.EntityRelationshipMapper) (u : string)
    (hops : list (string * string)) (v : string) : Prop :=
  match hops with
  | [] => u = v
  | (x, rid) :: hops => x = u /\ exists w, is_hop m u rid w /\ is_walk m w hops v
  end.

(** ** server.py: the path tool

    [chroma_find_entity_path] on the mapper that [get_er_mapper()] returns.
    [if path:] is false for [None] and for the empty list. *)
Inductive PathReport :=
| PathFound (path : list (string * string)) (length : Z)
| PathNotFound.

Definition chroma_find_entity_path (set_iter : gset string -> list string) (fuel : nat)
    (source_id target_id : string) (max_depth : Z) (mapper : EntityMapper.EntityRelationshipMapper)
  : option (outcome PathReport) :=
  match EntityMapper.find_path set_iter fuel source_id target_id max_depth mapper with
  | None => None
  | Some (Raise e) => Some (Raise e)
  | Some (Return path) =>
      Some (Return
              match path with
              | Some (hop :: hops) =>
                  PathFound (hop :: hops) (Z.of_nat (length (hop :: hops)))
              | Some [] | None => PathNotFound
              end)
  end.

(** The sum of the values of a dictionary of counts. *)
Definition sum_counts (counts : gmap string Z) : Z :=
  map_fold (fun _ n acc => n + acc) 0 counts.

(** The dictionaries that [import_graph] iterates over when it is given
    the export of a mapper. *)
Definition exported_entity_data (set_iter : gset string -> list string)
    (dict_values : forall A : Type, gmap string A -> list A)
    (m : EntityMapper.EntityRelationshipMapper) : list EntityMapper.EntityData :=
  default [] (EntityMapper.data_entities
                (EntityMapper.graph_data_of_export
                   (EntityMapper.export_graph set_iter dict_values m))).

Definition exported_relationship_data (set_iter : gset string -> list string)
    (dict_values : forall A : Type, gmap string A -> list A)
    (m : EntityMapper.EntityRelationshipMapper) : list EntityMapper.RelationshipData :=
  default [] (EntityMapper.data_relationships
                (EntityMapper.graph_data_of_export
                   (EntityMapper.export_graph set_iter dict_values m))).

(** ** Monitors built through the interface *)

(** A call of [analyze_operation]: operation type, collection, parameters
    and the time of the call. *)
Record analyze_call (Filter : Type) := mkAnalyzeCall {
  call_operation : string;
  call_collection : string;
  call_params : Swarm.Params (Filter := Filter);
  call_time : Q
}.
Arguments call_operation {Filter} _.
Arguments call_collection {Filter} _.
Arguments call_params {Filter} _.
Arguments call_time {Filter} _.

Definition monitor_step {Filter : Type} (json_dumps : Filter -> string)
    (mon : Swarm.CodeSmellMonitor) (c : analyze_call Filter) : Swarm.CodeSmellMonitor :=
  snd (Swarm.analyze_operation json_dumps (call_operation c) (call_collection c)
         (call_params c) (call_time c) mon).

Definition monitor_run {Filter : Type} (json_dumps : Filter -> string)
    (calls : list (analyze_call Filter)) (mon : Swarm.CodeSmellMonitor)
  : Swarm.CodeSmellMonitor :=
  foldl (monitor_step json_dumps) mon calls.

(** * Properties *)

(** ** Comparisons on rationals *)

Lemma Qgtb_true (a b : Q) : Qgtb a b = true <-> (b < a)%Q.
Proof.
  unfold Qgtb. rewrite Qlt_alt, <- (Qcompare_antisym a b).
  destruct (a ?= b)%Q; simpl; split; congruence.
Qed.

Lemma Qgtb_false (a b : Q) : Qgtb a b = false <-> (a <= b)%Q.
Proof.
  unfold Qgtb. rewrite Qle_alt.
  destruct (a ?= b)%Q; split; congruence.
Qed.

Lemma Qgeb_true (a b : Q) : Qgeb a b = true <-> (b <= a)%Q.
Proof.
  unfold Qgeb. rewrite Qle_alt, <- (Qcompare_antisym a b).
  destruct (a ?= b)%Q; simpl; split; congruence.
Qed.

(** ** Ordered dictionaries *)
Section ordered_dict_facts.
Context {V : Type}.
Implicit Types (d : list (string * V)) (k : string) (v : V).

Lemma od_get_setitem_eq k v d : od_get k (od_setitem k v d) = Some v.
Proof.
  induction d as [|[k' v'] d IH]; simpl.
  - by rewrite String.eqb_refl.
  - destruct (String.eqb k' k) eqn:E; simpl; rewrite E; [done | apply IH].
Qed.


Lemma od_keys_setitem_present k v v' d :
  od_get k d = Some v' -> od_keys (od_setitem k v d) = od_keys d.
Proof.
  unfold od_keys. induction d as [|[k0 v0] d IH]; simpl; [done |].
  destruct (String.eqb k0 k) eqn:E; simpl; [done |].
  intros H. f_equal. by apply IH.
Qed.

Lemma od_length_setitem_present k v v' d :
  od_get k d = Some v' -> length (od_setitem k v d) = length d.
Proof.
  intros H. apply (od_keys_setitem_present k v) in H.
  unfold od_keys in H. apply (f_equal (@length string)) in H.
  by rewrite !length_map in H.
Qed.

Lemma od_delitem_setitem k v d : od_delitem k (od_setitem k v d) = od_delitem k d.
Proof.
  induction d as [|[k0 v0] d IH]; simpl.
  - by rewrite String.eqb_refl.
  - destruct (String.eqb k0 k) eqn:E; simpl; rewrite E; [done | by rewrite IH].
Qed.


Lemma od_length_delitem_present k v d :
  od_get k d = Some v -> S (length (od_delitem k d)) = length d.
Proof.
  induction d as [|[k0 v0] d IH]; simpl; [done |].
  destruct (String.eqb k0 k); simpl; [done |].
  intros H. by rewrite IH.
Qed.

Lemma od_get_delitem_ne k k' d : k <> k' -> od_get k' (od_delitem k d) = od_get k' d.
Proof.
  intros Hne. induction d as [|[k0 v0] d IH]; simpl; [done |].
  destruct (String.eqb k0 k) eqn:E; simpl.
  - apply String.eqb_eq in E; subst k0.
    apply String.eqb_neq in Hne. by rewrite Hne.
  - destruct (String.eqb k0 k'); [done | apply IH].
Qed.

Lemma od_get_None_keys k d : od_get k d = None <-> k ∉ od_keys d.
Proof.
  induction d as [|[k0 v0] d IH]; simpl.
  - split; [intros _; apply not_elem_of_nil | done].
  - rewrite not_elem_of_cons. destruct (String.eqb k0 k) eqn:E.
    + apply String.eqb_eq in E. split; [done | intros [? _]; congruence].
    + apply String.eqb_neq in E. rewrite IH. split; [intros ?; split; congruence | tauto].
Qed.

Lemma od_get_delitem_eq k d : NoDup (od_keys d) -> od_get k (od_delitem k d) = None.
Proof.
  induction d as [|[k0 v0] d IH]; simpl; [done |].
  intros Hnd. apply NoDup_cons in Hnd as [Hk0 Hnd].
  destruct (String.eqb k0 k) eqn:E; simpl.
  - apply String.eqb_eq in E; subst k0. by apply od_get_None_keys.
  - rewrite E. by apply IH.
Qed.

Lemma od_get_app_r k v d : od_get k (d ++ [(k, v)]) = Some (default v (od_get k d)).
Proof.
  induction d as [|[k0 v0] d IH]; simpl.
  - by rewrite String.eqb_refl.
  - destruct (String.eqb k0 k); [done | apply IH].
Qed.

Lemma od_get_app_ne k k' v d : k <> k' -> od_get k' (d ++ [(k, v)]) = od_get k' d.
Proof.
  intros Hne. induction d as [|[k0 v0] d IH]; simpl.
  - apply String.eqb_neq in Hne. by rewrite Hne.
  - destruct (String.eqb k0 k'); [done | apply IH].
Qed.

Lemma od_move_to_end_setitem k v d :
  od_move_to_end k (od_setitem k v d) = Some (od_delitem k d ++ [(k, v)]).
Proof.
  unfold od_move_to_end. by rewrite od_get_setitem_eq, od_delitem_setitem.
Qed.
End ordered_dict_facts.

(** ** cache.py: the stores of a [MemoryCache] *)
Section cache_facts.
Context {V : Type}.
Implicit Types (c : Cache.MemoryCache (V := V)) (r : Cache.store_ref)
  (d : list (string * Cache.CacheEntry (V := V))).

Lemma read_write_store r d c : Cache.read_store r (Cache.write_store r d c) = d.
Proof. destruct r; simpl; [done | by rewrite lookup_insert_eq]. Qed.

Lemma read_write_store_ne r r' d c :
  r <> r' -> Cache.read_store r' (Cache.write_store r d c) = Cache.read_store r' c.
Proof.
  intros Hne. destruct r as [|p], r' as [|p']; simpl; try done.
  rewrite lookup_insert_ne; [done | congruence].
Qed.



Lemma write_write_store r d d' c :
  Cache.write_store r d (Cache.write_store r d' c) = Cache.write_store r d c.
Proof. destruct r; simpl; [done | by rewrite insert_insert_eq]. Qed.

Lemma get_cache_ref project_id c : fst (Cache._get_cache project_id c) = Cache.resolve project_id.
Proof.
  unfold Cache._get_cache. destruct (Cache.resolve project_id) as [|p]; [done |].
  by destruct (Cache._project_caches c !! p).
Qed.

(** Creating a missing project store is not visible through [read_store]. *)
Lemma get_cache_read project_id r c :
  Cache.read_store r (snd (Cache._get_cache project_id c)) = Cache.read_store r c.
Proof.
  unfold Cache._get_cache. destruct (Cache.resolve project_id) as [|p]; [done |].
  destruct (Cache._project_caches c !! p) eqn:E; [done |]. simpl.
  destruct r as [|p']; simpl; [done |].
  destruct (decide (p = p')) as [->|Hne].
  - by rewrite lookup_insert_eq, E.
  - by rewrite lookup_insert_ne.
Qed.

Lemma get_cache_max_size project_id c :
  Cache.max_size (snd (Cache._get_cache project_id c)) = Cache.max_size c.
Proof.
  unfold Cache._get_cache. destruct (Cache.resolve project_id) as [|p]; [done |].
  by destruct (Cache._project_caches c !! p).
Qed.

Lemma get_cache_default_ttl project_id c :
  Cache.default_ttl (snd (Cache._get_cache project_id c)) = Cache.default_ttl c.
Proof.
  unfold Cache._get_cache. destruct (Cache.resolve project_id) as [|p]; [done |].
  by destruct (Cache._project_caches c !! p).
Qed.

(** *** Eviction *)

Lemma evict_if_needed_step (max_size : Z) d :
  Cache._evict_if_needed max_size d =
    if Z.of_nat (length d) >=? max_size then
      match d with
      | [] => (false, [])
      | _ :: rest => Cache._evict_if_needed max_size rest
      end
    else (true, d).
Proof. by destruct d. Qed.

(** A completed eviction drops a prefix of the order (the oldest entries)
    and leaves fewer than [max_size] entries; it fails only when
    [max_size] is not positive, on the emptied store. *)
Lemma evict_if_needed_spec (max_size : Z) d :
  match Cache._evict_if_needed max_size d with
  | (true, d') => (exists dropped, d = dropped ++ d') /\ Z.of_nat (length d') < max_size
  | (false, d') => d' = [] /\ max_size <= 0
  end.
Proof.
  induction d as [|kv d IH]; rewrite evict_if_needed_step;
    match goal with
    | |- context [Z.of_nat ?n >=? _] => destruct (Z.geb_spec (Z.of_nat n) max_size) as [Hge|Hlt]
    end.
  - split; [done | simpl in Hge; lia].
  - split; [by exists nil | done].
  - destruct (Cache._evict_if_needed max_size d) as [[] d']; [| done].
    destruct IH as [[dropped ->] Hlen]. split; [by exists (kv :: dropped) | done].
  - split; [by exists nil | done].
Qed.

Lemma evict_if_needed_ok (max_size : Z) d :
  1 <= max_size -> fst (Cache._evict_if_needed max_size d) = true.
Proof.
  intros Hpos. pose proof (evict_if_needed_spec max_size d) as H.
  destruct (Cache._evict_if_needed max_size d) as [[] d']; [done |]. lia.
Qed.

(** Below capacity nothing is evicted. *)
Lemma evict_if_needed_below (max_size : Z) d :
  Z.of_nat (length d) < max_size -> Cache._evict_if_needed max_size d = (true, d).
Proof.
  intros Hlt. rewrite evict_if_needed_step.
  destruct (Z.geb_spec (Z.of_nat (length d)) max_size); [lia | done].
Qed.

(** *** [set] and [get], store by store *)

Lemma set_unfold key (v : V) t project_id now c :
  Cache.set key v t project_id now c =
    let r := Cache.resolve project_id in
    let c0 := snd (Cache._get_cache project_id c) in
    let ev := Cache._evict_if_needed (Cache.max_size c)
                (Cache._cleanup_expired now (Cache.read_store r c)) in
    if fst ev
    then (Return key,
          Cache.write_store r
            (od_delitem key (snd ev)
               ++ [(key, Cache.CacheEntry_init v (Cache.ttl_or_default t c) now)]) c0)
    else (Raise KeyError, Cache.write_store r (snd ev) c0).
Proof.
  unfold Cache.set.
  pose proof (get_cache_ref project_id c) as Hr.
  pose proof (get_cache_read project_id (Cache.resolve project_id) c) as Hread.
  pose proof (get_cache_max_size project_id c) as Hmax.
  destruct (Cache._get_cache project_id c) as [r c0]; simpl in *. subst r.
  rewrite Hread, Hmax.
  destruct (Cache._evict_if_needed _ _) as [[] d']; simpl; [| done].
  by rewrite od_move_to_end_setitem.
Qed.

Lemma get_unfold key project_id now c :
  Cache.get key project_id now c =
    let r := Cache.resolve project_id in
    let c0 := snd (Cache._get_cache project_id c) in
    match od_get key (Cache.read_store r c) with
    | None => (None, c0)
    | Some entry =>
        if Cache.is_expired now entry
        then (None, Cache.write_store r (od_delitem key (Cache.read_store r c)) c0)
        else (Some (Cache.data entry),
              Cache.write_store r
                (od_setitem key (Cache.access now entry) (Cache.read_store r c)) c0)
    end.
Proof.
  unfold Cache.get.
  pose proof (get_cache_ref project_id c) as Hr.
  pose proof (get_cache_read project_id (Cache.resolve project_id) c) as Hread.
  destruct (Cache._get_cache project_id c) as [r c0]; simpl in *. subst r.
  by rewrite Hread.
Qed.
End cache_facts.

(** ** cache.py: the size bound *)
Section cache_bound.
Context {V : Type}.
Implicit Types (c : Cache.MemoryCache (V := V)) (r : Cache.store_ref).




Lemma clear_max_size project_id c : Cache.max_size (Cache.clear project_id c) = Cache.max_size c.
Proof.
  unfold Cache.clear. destruct (Cache.resolve project_id) as [|p]; [done |].
  by destruct (Cache._project_caches c !! p).
Qed.



(** The store a completed [set] leaves behind. *)
Lemma set_store key (v : V) t project_id now c :
  let r := Cache.resolve project_id in
  let ev := Cache._evict_if_needed (Cache.max_size c)
              (Cache._cleanup_expired now (Cache.read_store r c)) in
  fst (Cache.set key v t project_id now c) = Return key ->
  fst ev = true
  /\ Cache.read_store r (snd (Cache.set key v t project_id now c))
     = od_delitem key (snd ev) ++ [(key, Cache.CacheEntry_init v (Cache.ttl_or_default t c) now)].
Proof.
  cbv zeta. rewrite set_unfold. cbv zeta.
  destruct (fst (Cache._evict_if_needed _ _)); simpl; [| done].
  intros _. by rewrite read_write_store.
Qed.

Lemma set_store_other key (v : V) t project_id now c r :
  Cache.resolve project_id <> r ->
  Cache.read_store r (snd (Cache.set key v t project_id now c)) = Cache.read_store r c.
Proof.
  intros Hne. rewrite set_unfold. cbv zeta.
  destruct (fst (Cache._evict_if_needed _ _)); simpl;
    by rewrite read_write_store_ne, get_cache_read.
Qed.

Lemma get_store_other key project_id now c r :
  Cache.resolve project_id <> r ->
  Cache.read_store r (snd (Cache.get key project_id now c)) = Cache.read_store r c.
Proof.
  intros Hne. rewrite get_unfold. cbv zeta.
  destruct (od_get key _) as [entry|]; [destruct (Cache.is_expired now entry) |]; simpl;
    rewrite ?read_write_store_ne by done; apply get_cache_read.
Qed.

Lemma clear_store_other project_id c r :
  Cache.resolve project_id <> r ->
  Cache.read_store r (Cache.clear project_id c) = Cache.read_store r c.
Proof.
  intros Hne. unfold Cache.clear. destruct (Cache.resolve project_id) as [|p] eqn:E.
  - by rewrite read_write_store_ne.
  - destruct (Cache._project_caches c !! p); [by rewrite read_write_store_ne | done].
Qed.

Lemma clear_store project_id c :
  Cache.read_store (Cache.resolve project_id) (Cache.clear project_id c) = [].
Proof.
  unfold Cache.clear. destruct (Cache.resolve project_id) as [|p] eqn:E; [done |].
  destruct (Cache._project_caches c !! p) eqn:E'; [apply read_write_store |].
  simpl. by rewrite E'.
Qed.


(** What [get_stats] counts: all entries of the store, and those of them
    that are not expired. *)
Lemma get_stats_counts project_id now c :
  Cache.total_entries (fst (Cache.get_stats project_id now c))
  = store_len (Cache.resolve project_id) c
  /\ Cache.active_entries (fst (Cache.get_stats project_id now c))
     <= store_len (Cache.resolve project_id) c.
Proof.
  unfold Cache.get_stats, store_len.
  pose proof (get_cache_ref project_id c) as Hr.
  pose proof (get_cache_read project_id (Cache.resolve project_id) c) as Hread.
  destruct (Cache._get_cache project_id c) as [r c0]; simpl in *. subst r.
  rewrite Hread. split; [done | lia].
Qed.


End cache_bound.


(** ** cache.py: expiry and order *)
Section cache_expiry.
Context {V : Type}.
Implicit Types (c : Cache.MemoryCache (V := V)) (r : Cache.store_ref)
  (d : list (string * Cache.CacheEntry (V := V))) (e : Cache.CacheEntry (V := V)).

Lemma is_expired_true now e :
  Cache.is_expired now e = true <-> (inject_Z (Cache.ttl e) < now - Cache.timestamp e)%Q.
Proof. apply Qgtb_true. Qed.

Lemma is_expired_false now e :
  Cache.is_expired now e = false <-> (now - Cache.timestamp e <= inject_Z (Cache.ttl e))%Q.
Proof. apply Qgtb_false. Qed.

Lemma is_expired_access now now' e :
  Cache.is_expired now (Cache.access now' e) = Cache.is_expired now e.
Proof. done. Qed.

Lemma od_keys_delitem_sublist k d : od_keys (od_delitem k d) `sublist_of` od_keys d.
Proof.
  unfold od_keys. induction d as [|[k0 v0] d IH]; simpl; [done |].
  destruct (String.eqb k0 k); simpl; [by apply sublist_cons | by apply sublist_skip].
Qed.

Lemma od_delitem_NoDup k d : NoDup (od_keys d) -> NoDup (od_keys (od_delitem k d)).
Proof. intros Hnd. eapply sublist_NoDup; [done | apply od_keys_delitem_sublist]. Qed.

Lemma od_delitem_absent k d : od_get k d = None -> od_delitem k d = d.
Proof.
  induction d as [|[k0 v0] d IH]; simpl; [done |].
  destruct (String.eqb k0 k); [done |]. intros H. by rewrite IH.
Qed.

Lemma cleanup_keys_sublist now d :
  od_keys (Cache._cleanup_expired now d) `sublist_of` od_keys d.
Proof.
  unfold Cache._cleanup_expired.
  generalize (map fst (filter (fun kv => Cache.is_expired now (snd kv) = true) d)) as ks.
  intros ks. revert d. induction ks as [|k ks IH]; intros d; simpl; [done |].
  etrans; [apply IH | apply od_keys_delitem_sublist].
Qed.

(** When no entry is expired the cleanup changes nothing. *)
Lemma cleanup_none_expired now d :
  Forall (fun kv => Cache.is_expired now (snd kv) = false) d ->
  Cache._cleanup_expired now d = d.
Proof.
  intros Hall. unfold Cache._cleanup_expired.
  replace (filter (fun kv => Cache.is_expired now (snd kv) = true) d) with (@nil (string * Cache.CacheEntry (V := V))); [done |].
  symmetry. induction Hall as [|kv d Hkv Hall IH]; [done |].
  rewrite filter_cons. destruct (decide _) as [Hexp|]; [congruence | done].
Qed.

Lemma evict_keys_NoDup (max_size : Z) d :
  NoDup (od_keys d) -> NoDup (od_keys (snd (Cache._evict_if_needed max_size d))).
Proof.
  intros Hnd. pose proof (evict_if_needed_spec max_size d) as H.
  destruct (Cache._evict_if_needed max_size d) as [[] d']; simpl.
  - destruct H as [[dropped ->] _]. unfold od_keys in *.
    rewrite map_app in Hnd. by apply NoDup_app in Hnd as (_ & _ & ?).
  - destruct H as [-> _]. constructor.
Qed.

(** The entry a completed [set] stores is the one [od_get] finds. *)
Lemma set_then_lookup key (v : V) t project_id now c :
  let r := Cache.resolve project_id in
  NoDup (od_keys (Cache.read_store r c)) ->
  fst (Cache.set key v t project_id now c) = Return key ->
  od_get key (Cache.read_store r (snd (Cache.set key v t project_id now c)))
  = Some (Cache.CacheEntry_init v (Cache.ttl_or_default t c) now)
  /\ NoDup (od_keys (Cache.read_store r (snd (Cache.set key v t project_id now c)))).
Proof.
  intros r Hnd Hret. destruct (set_store _ _ _ _ _ _ Hret) as [_ Hstore]. fold r in Hstore.
  rewrite Hstore.
  assert (Hnd' : NoDup (od_keys (snd (Cache._evict_if_needed (Cache.max_size c)
                   (Cache._cleanup_expired now (Cache.read_store r c)))))).
  { apply evict_keys_NoDup. eapply sublist_NoDup; [done | apply cleanup_keys_sublist]. }
  split.
  - by rewrite od_get_app_r, od_get_delitem_eq.
  - unfold od_keys. rewrite map_app. simpl. apply NoDup_app. split; [| split].
    + by apply od_delitem_NoDup.
    + intros k Hk Hin. apply list_elem_of_singleton in Hin. subst k.
      revert Hk. apply od_get_None_keys. by apply od_get_delitem_eq.
    + apply NoDup_singleton.
Qed.

Lemma get_stats_total project_id now c :
  Cache.total_entries (fst (Cache.get_stats project_id now c))
  = store_len (Cache.resolve project_id) c.
Proof. apply get_stats_counts. Qed.

(** A hit: the data is returned, the access is recorded in the entry, and
    the entry stays where it is in the order. *)
Lemma get_hit key project_id now c e :
  let r := Cache.resolve project_id in
  od_get key (Cache.read_store r c) = Some e ->
  Cache.is_expired now e = false ->
  fst (Cache.get key project_id now c) = Some (Cache.data e)
  /\ Cache.read_store r (snd (Cache.get key project_id now c))
     = od_setitem key (Cache.access now e) (Cache.read_store r c).
Proof.
  intros r Hget Hexp. rewrite get_unfold. cbv zeta. fold r. rewrite Hget, Hexp. simpl.
  by rewrite read_write_store.
Qed.

(** A lookup of an expired entry: a miss, and the entry is deleted. *)
Lemma get_expired key project_id now c e :
  let r := Cache.resolve project_id in
  od_get key (Cache.read_store r c) = Some e ->
  Cache.is_expired now e = true ->
  fst (Cache.get key project_id now c) = None
  /\ Cache.read_store r (snd (Cache.get key project_id now c))
     = od_delitem key (Cache.read_store r c).
Proof.
  intros r Hget Hexp. rewrite get_unfold. cbv zeta. fold r. rewrite Hget, Hexp. simpl.
  by rewrite read_write_store.
Qed.

Lemma get_absent key project_id now c :
  od_get key (Cache.read_store (Cache.resolve project_id) c) = None ->
  fst (Cache.get key project_id now c) = None.
Proof. intros Hget. rewrite get_unfold. cbv zeta. by rewrite Hget. Qed.

(** The keys of every store stay distinct, as the keys of a dictionary
    are: the operations keep this, and a new cache has it. *)
Lemma cache_step_NoDup c (o : cache_op) :
  (forall r, NoDup (od_keys (Cache.read_store r c))) ->
  forall r, NoDup (od_keys (Cache.read_store r (cache_step c o))).
Proof.
  intros Hinv r.
  destruct o as [key v t project_id now | key project_id now | project_id |]; simpl.
  - destruct (decide (Cache.resolve project_id = r)) as [<-|Hne];
      [| by rewrite set_store_other].
    destruct (fst (Cache.set key v t project_id now c)) eqn:Hres.
    + pose proof Hres as Hres'. rewrite set_unfold in Hres'. cbv zeta in Hres'.
      destruct (fst (Cache._evict_if_needed _ _)); simpl in Hres'; [| done].
      injection Hres' as <-. by apply set_then_lookup.
    + revert Hres. rewrite set_unfold. cbv zeta.
      destruct (fst (Cache._evict_if_needed _ _)) eqn:Hev; simpl; [done |].
      intros _. rewrite read_write_store. apply evict_keys_NoDup.
      eapply sublist_NoDup; [apply Hinv | apply cleanup_keys_sublist].
  - destruct (decide (Cache.resolve project_id = r)) as [<-|Hne];
      [| by rewrite get_store_other].
    rewrite get_unfold. cbv zeta.
    destruct (od_get key _) as [entry|] eqn:Hget;
      [destruct (Cache.is_expired now entry) |]; simpl.
    + rewrite read_write_store. by apply od_delitem_NoDup.
    + rewrite read_write_store, (od_keys_setitem_present _ _ _ _ Hget). apply Hinv.
    + rewrite get_cache_read. apply Hinv.
  - destruct (decide (Cache.resolve project_id = r)) as [<-|Hne];
      [| by rewrite clear_store_other].
    rewrite clear_store. constructor.
  - destruct r as [|p]; [apply (Hinv Cache.GlobalStore) |].
    simpl. rewrite lookup_empty. constructor.
Qed.

Lemma cache_run_NoDup (ops : list cache_op) c :
  (forall r, NoDup (od_keys (Cache.read_store r c))) ->
  forall r, NoDup (od_keys (Cache.read_store r (cache_run ops c))).
Proof.
  revert c. induction ops as [|o ops IH]; intros c Hinv r; [apply Hinv |].
  unfold cache_run in *. simpl. apply IH. by apply cache_step_NoDup.
Qed.

Lemma cache_init_NoDup (max_size default_ttl : Z) r :
  NoDup (od_keys (Cache.read_store r (Cache.MemoryCache_init (V := V) max_size default_ttl))).
Proof. destruct r; simpl; [| rewrite lookup_empty]; constructor. Qed.
End cache_expiry.

(** ** cache.py: which entry a full store loses *)
Section cache_eviction_order.
Context {V : Type}.
Implicit Types (c : Cache.MemoryCache (V := V)) (r : Cache.store_ref)
  (d : list (string * Cache.CacheEntry (V := V))) (e : Cache.CacheEntry (V := V)).



Lemma set_returns key (v : V) t project_id now c :
  1 <= Cache.max_size c -> fst (Cache.set key v t project_id now c) = Return key.
Proof.
  intros Hpos. rewrite set_unfold. cbv zeta. by rewrite evict_if_needed_ok.
Qed.




End cache_eviction_order.





(** ** cache.py: time to live *)

(** C2 (as the code has it): an entry stored by [set(key, value, ttl = T)]
    with [T] not 0, in a cache with capacity at least 1, is returned by [get]
    at every time at most [T] after the insertion, the boundary included,
    and is a miss at every time more than [T] after it ([is_expired] tests
    [elapsed > ttl]). The [get] that finds the entry expired deletes it: the
    key is no longer in the store, every later [get] of it is a miss, and
    [get_stats] counts one entry less. *)
Theorem get_honours_ttl_boundary_included :
  forall (V : Type) (c : Cache.MemoryCache (V := V)) (key : string) (v : V) (T : Z)
         (project_id : option string) (now : Q),
    T <> 0 ->
    1 <= Cache.max_size c ->
    NoDup (od_keys (Cache.read_store (Cache.resolve project_id) c)) ->
    let c1 := snd (Cache.set key v (Some T) project_id now c) in
    forall now' : Q,
      ((now' - now <= inject_Z T)%Q -> fst (Cache.get key project_id now' c1) = Some v)
      /\ ((inject_Z T < now' - now)%Q ->
          let c2 := snd (Cache.get key project_id now' c1) in
          fst (Cache.get key project_id now' c1) = None
          /\ od_get key (Cache.read_store (Cache.resolve project_id) c2) = None
          /\ (forall now'', fst (Cache.get key project_id now'' c2) = None)
          /\ (forall now'',
                 Cache.total_entries (fst (Cache.get_stats project_id now'' c2))
                 = Cache.total_entries (fst (Cache.get_stats project_id now'' c1)) - 1)).
Proof.
  intros V c key v T project_id now HT Hpos Hnd c1 now'.
  assert (Hret : fst (Cache.set key v (Some T) project_id now c) = Return key)
    by by apply set_returns.
  destruct (set_then_lookup key v (Some T) project_id now c Hnd Hret) as [Hget Hnd1].
  fold c1 in Hget, Hnd1.
  assert (Httl : Cache.ttl_or_default (Some T) c = T).
  { unfold Cache.ttl_or_default. destruct (Z.eqb_spec T 0); [done | done]. }
  rewrite Httl in Hget.
  split.
  - intros Hle.
    destruct (get_hit key project_id now' c1 _ Hget) as [-> _]; [| done].
    by apply is_expired_false.
  - intros Hlt c2.
    destruct (get_expired key project_id now' c1 _ Hget) as [Hres Hstore].
    { by apply is_expired_true. }
    fold c2 in Hstore.
    assert (Hgone : od_get key (Cache.read_store (Cache.resolve project_id) c2) = None).
    { rewrite Hstore. by apply od_get_delitem_eq. }
    split; [done |]. split; [done |]. split.
    + intros now''. by apply get_absent.
    + intros now''. rewrite !get_stats_total. unfold store_len. rewrite Hstore.
      rewrite <- (od_length_delitem_present _ _ _ Hget). lia.
Qed.

Lemma get_honours_ttl_boundary_included_witness :
  fst (Cache.get "k" None 5 ttl_scenario) = Some "v"
  /\ fst (Cache.get "k" None 6 ttl_scenario) = None.
Proof.
  pose proof (get_honours_ttl_boundary_included string (Cache.MemoryCache_init 10 3600)
                "k" "v" 5 None 0%Q ltac:(lia) ltac:(simpl; lia) ltac:(constructor)) as H.
  split.
  - apply (proj1 (H 5%Q)). unfold Qle; simpl; lia.
  - apply (proj2 (H 6%Q)). unfold Qlt; simpl; lia.
Defined.

(** C2, counterexample: an entry set with [ttl = 5] at time 0 is still
    returned at time 5, that is at a time equal to [T] after the insertion,
    where the specification has a miss. *)
Lemma get_at_exactly_ttl_is_a_hit :
  fst (Cache.get "k" None 5 ttl_scenario) = Some "v"
  /\ fst (Cache.get "k" None 5 ttl_scenario) <> None.
Proof. split; by vm_compute. Qed.

(** ** cache.py: tenant scopes *)
Section cache_scopes.
Context {V : Type}.
Implicit Types (c : Cache.MemoryCache (V := V)).

(** What [get] returns is determined by the store of its scope. *)
Lemma get_result_of_store key project_id now c c' :
  Cache.read_store (Cache.resolve project_id) c = Cache.read_store (Cache.resolve project_id) c' ->
  fst (Cache.get key project_id now c) = fst (Cache.get key project_id now c').
Proof.
  intros Heq. rewrite !get_unfold. cbv zeta. rewrite Heq.
  destruct (od_get key _) as [entry|]; [destruct (Cache.is_expired now entry) |]; done.
Qed.

Lemma resolve_nonempty (s : string) : s <> "" -> Cache.resolve (Some s) = Cache.ProjectStore s.
Proof.
  intros Hne. unfold Cache.resolve, str_truthy.
  apply String.eqb_neq in Hne. by rewrite Hne.
Qed.
End cache_scopes.

(** C8 (as the code has it): a scope is the store its [project_id]
    resolves to: the project's own store for a non-empty identifier, the
    global store for [None] and also for the empty identifier. For two
    scopes that resolve to different stores (two different non-empty
    identifiers, or a non-empty identifier and the tenant-less scope),
    [set], [get] and [clear] in one leave the entries of the other, and what
    a [get] there returns, unchanged. [clear_all_projects] leaves every
    project store empty and the global store as it was. *)
Theorem scopes_with_different_stores_are_isolated :
  forall (V : Type) (c : Cache.MemoryCache (V := V)) (p q : option string),
    Cache.resolve p <> Cache.resolve q ->
    (forall key (v : V) t now,
        Cache.read_store (Cache.resolve q) (snd (Cache.set key v t p now c))
        = Cache.read_store (Cache.resolve q) c
        /\ forall key' now',
            fst (Cache.get key' q now' (snd (Cache.set key v t p now c)))
            = fst (Cache.get key' q now' c))
    /\ (forall key now,
        Cache.read_store (Cache.resolve q) (snd (Cache.get key p now c))
        = Cache.read_store (Cache.resolve q) c)
    /\ Cache.read_store (Cache.resolve q) (Cache.clear p c) = Cache.read_store (Cache.resolve q) c
    /\ (forall s, Cache.read_store (Cache.ProjectStore s) (Cache.clear_all_projects c) = [])
    /\ Cache.read_store Cache.GlobalStore (Cache.clear_all_projects c)
       = Cache.read_store Cache.GlobalStore c
    /\ Cache.resolve None = Cache.GlobalStore
    /\ Cache.resolve (Some "") = Cache.GlobalStore
    /\ (forall s, s <> "" -> Cache.resolve (Some s) = Cache.ProjectStore s).
Proof.
  intros V c p q Hne.
  split; [| split; [| split; [| split; [| split; [| split; [| split]]]]]].
  - intros key v t now. split; [by apply set_store_other |].
    intros key' now'. apply get_result_of_store. by apply set_store_other.
  - intros key now. by apply get_store_other.
  - by apply clear_store_other.
  - intros s. simpl. by rewrite lookup_empty.
  - done.
  - done.
  - done.
  - apply resolve_nonempty.
Qed.

Lemma scopes_with_different_stores_are_isolated_witness :
  Cache.read_store (Cache.resolve None)
    (snd (Cache.set "k" "v" None (Some "tenant") 0 (Cache.MemoryCache_init (V := string) 10 3600)))
  = [].
Proof.
  pose proof (scopes_with_different_stores_are_isolated string
                (Cache.MemoryCache_init 10 3600) (Some "tenant") None ltac:(discriminate)) as H.
  exact (proj1 (proj1 H "k" "v" None 0%Q)).
Defined.

(** C8, counterexample: the tenant identifier [""] and the tenant-less scope
    are two different scopes, yet a [set] under [project_id = ""] changes
    what the tenant-less [get] returns. *)
Lemma empty_tenant_writes_the_global_store :
  Some "" <> (None : option string)
  /\ fst (Cache.get "k" None 0 (Cache.MemoryCache_init (V := string) 10 3600)) = None
  /\ fst (Cache.get "k" None 0 empty_tenant_scenario) = Some "v".
Proof. repeat split; by vm_compute. Qed.

(** ** entity_mapper.py: relationships need their endpoints *)
Section mapper_facts.
Implicit Types (m : EntityMapper.EntityRelationshipMapper).

Lemma add_relationship_missing rid src tgt ty props m :
  src ∉ dom (EntityMapper._entities m) \/ tgt ∉ dom (EntityMapper._entities m) ->
  EntityMapper.add_relationship rid src tgt ty props m = (None, m).
Proof.
  intros H. unfold EntityMapper.add_relationship.
  destruct H as [H|H].
  - by rewrite (bool_decide_eq_true_2 _ H).
  - rewrite (bool_decide_eq_true_2 _ H). by rewrite orb_true_r.
Qed.

Lemma add_relationship_present rid src tgt ty props m :
  src ∈ dom (EntityMapper._entities m) -> tgt ∈ dom (EntityMapper._entities m) ->
  EntityMapper.add_relationship rid src tgt ty props m =
    (Some (EntityMapper.mkRelationship rid src tgt ty (EntityMapper.props_or_empty props)),
     EntityMapper.mkMapper
       (alter (EntityMapper.attach rid) tgt
          (alter (EntityMapper.attach rid) src (EntityMapper._entities m)))
       (<[rid := EntityMapper.mkRelationship rid src tgt ty (EntityMapper.props_or_empty props)]>
          (EntityMapper._relationships m))
       (EntityMapper._entity_index m)
       (<[(src, tgt) :=
            default ∅ (EntityMapper._relationship_index m !! (src, tgt)) ∪ {[rid]}]>
          (EntityMapper._relationship_index m))).
Proof.
  intros Hs Ht. unfold EntityMapper.add_relationship.
  rewrite !bool_decide_eq_false_2; [done | by intros ? | by intros ?].
Qed.

Lemma attach_relationships rid e :
  rid ∈ EntityMapper.relationships (EntityMapper.attach rid e).
Proof. simpl. set_solver. Qed.

Lemma attach_relationships_mono rid rid' e :
  rid ∈ EntityMapper.relationships e ->
  rid ∈ EntityMapper.relationships (EntityMapper.attach rid' e).
Proof. simpl. set_solver. Qed.
End mapper_facts.

(** C3: [add_relationship] with a source or a target that is not a key of
    the entity map returns [None] and returns the mapper as it was (nothing
    is created, no endpoint is added). With both present it returns the new
    relationship, stores it under its id in the relationship map, adds the
    id to the relationship sets of both endpoint entities and to the entry
    of the pair (source, target) in the relationship index; the set of
    entities is the same as before. *)
Theorem add_relationship_requires_both_endpoints :
  forall (m : EntityMapper.EntityRelationshipMapper)
         (rid src tgt ty : string) (props : option (list (string * json))),
    (src ∉ dom (EntityMapper._entities m) \/ tgt ∉ dom (EntityMapper._entities m) ->
     EntityMapper.add_relationship rid src tgt ty props m = (None, m))
    /\ (src ∈ dom (EntityMapper._entities m) -> tgt ∈ dom (EntityMapper._entities m) ->
        let rel := EntityMapper.mkRelationship rid src tgt ty (EntityMapper.props_or_empty props) in
        let m' := snd (EntityMapper.add_relationship rid src tgt ty props m) in
        fst (EntityMapper.add_relationship rid src tgt ty props m) = Some rel
        /\ EntityMapper._relationships m' !! rid = Some rel
        /\ (exists e, EntityMapper._entities m' !! src = Some e
                      /\ rid ∈ EntityMapper.relationships e)
        /\ (exists e, EntityMapper._entities m' !! tgt = Some e
                      /\ rid ∈ EntityMapper.relationships e)
        /\ (exists ids, EntityMapper._relationship_index m' !! (src, tgt) = Some ids
                        /\ rid ∈ ids)
        /\ dom (EntityMapper._entities m') = dom (EntityMapper._entities m)).
Proof.
  intros m rid src tgt ty props. split; [apply add_relationship_missing |].
  intros Hs Ht rel m'. subst m'. rewrite (add_relationship_present _ _ _ _ _ _ Hs Ht). simpl.
  apply elem_of_dom in Hs as [es Hes]. apply elem_of_dom in Ht as [et Het].
  split; [done |]. split; [by rewrite lookup_insert_eq |].
  split; [| split; [| split]].
  - destruct (decide (src = tgt)) as [->|Hne].
    + exists (EntityMapper.attach rid (EntityMapper.attach rid es)).
      rewrite !lookup_alter_eq, Hes. simpl. split; [done | set_solver].
    + exists (EntityMapper.attach rid es).
      rewrite lookup_alter_ne by done. rewrite lookup_alter_eq, Hes. simpl.
      split; [done | set_solver].
  - destruct (decide (src = tgt)) as [->|Hne].
    + exists (EntityMapper.attach rid (EntityMapper.attach rid es)).
      rewrite !lookup_alter_eq, Hes. simpl. split; [done | set_solver].
    + exists (EntityMapper.attach rid et).
      rewrite lookup_alter_eq. rewrite lookup_alter_ne by done. rewrite Het. simpl.
      split; [done | set_solver].
  - eexists. rewrite lookup_insert_eq. split; [done | set_solver].
  - by rewrite !dom_alter_L.
Qed.

(** ** entity_mapper.py: paths along a chain *)
Section chain_paths.
Variable set_iter : gset string -> list string.
Hypothesis set_iter_perm : forall X : gset string, set_iter X ≡ₚ elements X.

Implicit Types (m : EntityMapper.EntityRelationshipMapper).

Lemma set_iter_singleton (x : string) : set_iter {[x]} = [x].
Proof.
  apply Permutation_singleton_r. by rewrite set_iter_perm, elements_singleton.
Qed.

Lemma set_iter_pair (x y : string) :
  x <> y -> set_iter ({[x]} ∪ {[y]}) = [x; y] \/ set_iter ({[x]} ∪ {[y]}) = [y; x].
Proof.
  intros Hne. apply Permutation_length_2_inv. symmetry.
  rewrite set_iter_perm, elements_union_singleton by (by rewrite elem_of_singleton).
  by rewrite elements_singleton.
Qed.

Lemma find_path_missing fuel x y d m :
  x ∉ dom (EntityMapper._entities m) \/ y ∉ dom (EntityMapper._entities m) ->
  EntityMapper.find_path set_iter fuel x y d m = Some (Return None).
Proof.
  intros H. unfold EntityMapper.find_path. destruct H as [H|H].
  - by rewrite (bool_decide_eq_true_2 _ H).
  - rewrite (bool_decide_eq_true_2 _ H). by rewrite orb_true_r.
Qed.

Lemma find_path_same fuel x d m :
  x ∈ dom (EntityMapper._entities m) ->
  EntityMapper.find_path set_iter fuel x x d m = Some (Return (Some [])).
Proof.
  intros H. unfold EntityMapper.find_path.
  rewrite bool_decide_eq_false_2 by (by intros ?). simpl.
  by rewrite String.eqb_refl.
Qed.

Section on_a_chain.
Context {m : EntityMapper.EntityRelationshipMapper} {A B C r1 r2 : string}
  {eA eB eC : EntityMapper.Entity} {rel1 rel2 : EntityMapper.Relationship}.
Hypothesis Hchain : is_chain m A B C r1 r2 eA eB eC rel1 rel2.
Hypothesis HAB : A <> B.
Hypothesis HBC : B <> C.
Hypothesis HAC : A <> C.
Hypothesis Hr : r1 <> r2.

Lemma chain_connected_A :
  EntityMapper.get_connected_entities set_iter A None m = Return [(eB, rel1)].
Proof.
  destruct Hchain. unfold EntityMapper.get_connected_entities.
  rewrite chain_A0, chain_relsA0, set_iter_singleton. simpl.
  rewrite chain_r3. simpl. rewrite chain_rel3. simpl.
  by rewrite String.eqb_refl, chain_B0.
Qed.

Lemma chain_connected_B :
  EntityMapper.get_connected_entities set_iter B None m = Return [(eA, rel1); (eC, rel2)]
  \/ EntityMapper.get_connected_entities set_iter B None m = Return [(eC, rel2); (eA, rel1)].
Proof.
  destruct Hchain. unfold EntityMapper.get_connected_entities.
  rewrite chain_B0, chain_relsB0.
  assert (EAB : String.eqb A B = false) by by apply String.eqb_neq.
  destruct (set_iter_pair r1 r2 Hr) as [-> | ->]; [left | right]; simpl;
    rewrite chain_r3, chain_r4; simpl; rewrite chain_rel3, chain_rel4; simpl;
    by rewrite EAB, String.eqb_refl, chain_A0, chain_C0.
Qed.

Lemma chain_unvisited_A : A ∉ (∅ : gset string).
Proof. apply not_elem_of_empty. Qed.

Lemma chain_unvisited_B : B ∉ (∅ ∪ {[A]} : gset string).
Proof.
  rewrite elem_of_union, elem_of_singleton, elem_of_empty. intros [[]|?]. congruence.
Qed.

Lemma chain_bfs_found (fuel : nat) (d : Z) :
  2 <= d -> (2 <= fuel)%nat ->
  EntityMapper.bfs set_iter fuel m C d ∅ [(A, [])]
  = Some (Return (Some [(A, r1); (B, r2); (C, "")])).
Proof.
  intros Hd Hfuel. destruct Hchain.
  destruct fuel as [|[|fuel]]; [lia | lia |].
  assert (EBC : String.eqb B C = false) by by apply String.eqb_neq.
  assert (EAC : String.eqb A C = false) by by apply String.eqb_neq.
  cbn [EntityMapper.bfs]. change (Z.of_nat (length [])) with 0.
  destruct (Z.geb_spec 0 d); [lia |].
  rewrite (bool_decide_eq_false_2 _ chain_unvisited_A).
  rewrite chain_connected_A. cbn [EntityMapper.scan_connected app].
  rewrite chain_idB0, EBC.
  change (Z.of_nat (length [(A, EntityMapper.relationship_id rel1)])) with 1.
  destruct (Z.geb_spec 1 d); [lia |].
  rewrite (bool_decide_eq_false_2 _ chain_unvisited_B).
  destruct chain_connected_B as [-> | ->]; cbn [EntityMapper.scan_connected app];
    rewrite ?chain_idA0, ?chain_idC0, ?EAC, ?String.eqb_refl;
    rewrite chain_rel3, chain_rel4; simpl; done.
Qed.

Lemma chain_bfs_depth_1 (fuel : nat) :
  (3 <= fuel)%nat ->
  EntityMapper.bfs set_iter fuel m C 1 ∅ [(A, [])] = Some (Return None).
Proof.
  intros Hfuel. destruct Hchain.
  destruct fuel as [|[|[|fuel]]]; [lia | lia | lia |].
  assert (EBC : String.eqb B C = false) by by apply String.eqb_neq.
  cbn [EntityMapper.bfs]. change (Z.of_nat (length [])) with 0.
  change (0 >=? 1) with false. cbv iota.
  rewrite (bool_decide_eq_false_2 _ chain_unvisited_A).
  rewrite chain_connected_A. cbn [EntityMapper.scan_connected app].
  rewrite chain_idB0, EBC.
  change (Z.of_nat (length [(A, EntityMapper.relationship_id rel1)])) with 1.
  change (1 >=? 1) with true. done.
Qed.
End on_a_chain.

(** The mapper built by the five calls is a chain. *)
Lemma chain_graph_is_chain (A B C r1 r2 tyA tyB tyC ty1 ty2 : string)
    (pA pB pC p1 p2 : option (list (string * json))) :
  A <> B -> B <> C -> A <> C -> r1 <> r2 ->
  exists eA eB eC rel1 rel2,
    is_chain (chain_graph A B C r1 r2 tyA tyB tyC ty1 ty2 pA pB pC p1 p2)
      A B C r1 r2 eA eB eC rel1 rel2.
Proof.
  intros HAB HBC HAC Hr. unfold chain_graph. cbv zeta.
  set (m3 := snd (EntityMapper.add_entity C tyC pC _)).
  assert (HA3 : A ∈ dom (EntityMapper._entities m3)).
  { subst m3. cbn. apply elem_of_dom. rewrite !lookup_insert_ne by done.
    rewrite lookup_insert_eq. by eexists. }
  assert (HB3 : B ∈ dom (EntityMapper._entities m3)).
  { subst m3. cbn. apply elem_of_dom. rewrite lookup_insert_ne by done.
    rewrite lookup_insert_eq. by eexists. }
  assert (HC3 : C ∈ dom (EntityMapper._entities m3)).
  { subst m3. cbn. apply elem_of_dom. rewrite lookup_insert_eq. by eexists. }
  rewrite (add_relationship_present r1 A B ty1 p1 m3 HA3 HB3). cbn [snd].
  rewrite add_relationship_present;
    cbn [snd EntityMapper._entities]; [| by rewrite !dom_alter_L | by rewrite !dom_alter_L].
  subst m3. cbn [snd EntityMapper.add_entity EntityMapper._entities EntityMapper._relationships
                 EntityMapper.EntityRelationshipMapper_init].
  eexists _, _, _, _, _.
  split; cbn [EntityMapper._entities EntityMapper._relationships].
  - rewrite !lookup_alter_ne by done. rewrite lookup_alter_eq.
    rewrite !lookup_insert_ne by done. rewrite lookup_insert_eq. reflexivity.
  - rewrite lookup_alter_ne by done. rewrite lookup_alter_eq, lookup_alter_eq.
    rewrite lookup_alter_ne by done.
    rewrite lookup_insert_ne by done. rewrite lookup_insert_eq. reflexivity.
  - rewrite lookup_alter_eq. rewrite !lookup_alter_ne by done.
    rewrite lookup_insert_eq. reflexivity.
  - done.
  - done.
  - done.
  - simpl. by rewrite (left_id_L ∅ (∪)).
  - simpl. by rewrite (left_id_L ∅ (∪)).
  - simpl. by rewrite (left_id_L ∅ (∪)).
  - rewrite lookup_insert_ne by done. rewrite lookup_insert_eq. reflexivity.
  - rewrite lookup_insert_eq. reflexivity.
  - done.
  - done.
Qed.
End chain_paths.

(** ** entity_mapper.py: the search loop terminates *)
Section bfs_terminates.
Variable set_iter : gset string -> list string.
Hypothesis set_iter_perm : forall X : gset string, set_iter X ≡ₚ elements X.
Variable m : EntityMapper.EntityRelationshipMapper.

Lemma connect_loop_spec entity_id type_filter rel_ids connected result :
  EntityMapper.connect_loop m entity_id type_filter rel_ids connected = Return result ->
  Forall (fun er => is_entity m (fst er)) connected ->
  Forall (fun er => is_entity m (fst er)) result
  /\ (length result <= length connected + length rel_ids)%nat
  /\ Forall (fun rid => rid ∈ dom (EntityMapper._relationships m)) rel_ids.
Proof.
  revert connected. induction rel_ids as [|rid rel_ids IH]; intros connected; simpl.
  - intros [= <-] Hall. split; [done |]. split; [lia | constructor].
  - destruct (EntityMapper._relationships m !! rid) as [rel|] eqn:Hrel; [| done].
    assert (Hdom : rid ∈ dom (EntityMapper._relationships m)) by (apply elem_of_dom; eauto).
    destruct (_ && _).
    + intros Hres Hall. destruct (IH _ Hres Hall) as (? & ? & ?).
      split; [done |]. split; [lia | by constructor].
    + destruct (EntityMapper._entities m !! _) as [other|] eqn:Hother.
      * intros Hres Hall. destruct (IH _ Hres) as (? & Hlen & ?).
        { apply Forall_app. split; [done |]. repeat constructor. by eexists. }
        rewrite length_app in Hlen. simpl in Hlen.
        split; [done |]. split; [lia | by constructor].
      * intros Hres Hall. destruct (IH _ Hres Hall) as (? & ? & ?).
        split; [done |]. split; [lia | by constructor].
Qed.

Lemma get_connected_spec entity_id type_filter result :
  EntityMapper.get_connected_entities set_iter entity_id type_filter m = Return result ->
  Forall (fun er => is_entity m (fst er)) result
  /\ (length result <= size (EntityMapper._relationships m))%nat.
Proof.
  unfold EntityMapper.get_connected_entities.
  destruct (EntityMapper._entities m !! entity_id) as [entity|]; [| intros [= <-]; split; [done | simpl; lia]].
  intros Hres. destruct (connect_loop_spec _ _ _ _ _ Hres) as (Hall & Hlen & Hdom); [done |].
  split; [done |]. simpl in Hlen.
  rewrite (Permutation_length (set_iter_perm _)) in Hlen.
  rewrite <- size_dom. etrans; [exact Hlen |].
  change (length (elements (EntityMapper.relationships entity)))
    with (size (EntityMapper.relationships entity)).
  apply subseteq_size. intros rid Hrid.
  rewrite Forall_forall in Hdom. apply Hdom.
  rewrite (set_iter_perm _). by apply elem_of_elements.
Qed.

Lemma scan_connected_spec target_id current_id path connected queue queue' :
  EntityMapper.scan_connected target_id current_id path connected queue = inr queue' ->
  exists new,
    queue' = queue ++ new
    /\ length new = length connected
    /\ (Forall (fun er => is_entity m (fst er)) connected ->
        Forall (fun ip => exists e, is_entity m e /\ fst ip = EntityMapper.entity_id e) new).
Proof.
  revert queue. induction connected as [|[entity rel] connected IH]; intros queue; simpl.
  - intros [= <-]. exists []. by rewrite app_nil_r.
  - destruct (String.eqb _ _); [done |].
    intros Hres. destruct (IH _ Hres) as (new & -> & Hlen & Hall).
    eexists (_ :: new). rewrite <- app_assoc. split; [done |].
    split; [simpl; lia |].
    intros Hc. apply Forall_cons in Hc as [He Hc].
    constructor; [by exists entity | by apply Hall].
Qed.

Lemma queue_ids_entity source_id e :
  is_entity m e -> EntityMapper.entity_id e ∈ queue_ids m source_id.
Proof.
  intros [k Hk]. unfold queue_ids. apply elem_of_list_to_set. right.
  apply list_elem_of_fmap. exists (k, e). split; [done |]. by apply elem_of_map_to_list.
Qed.

Lemma bfs_terminates source_id target_id max_depth (fuel : nat) visited queue :
  (length queue
   + size (queue_ids m source_id ∖ visited) * S (size (EntityMapper._relationships m)) < fuel)%nat ->
  Forall (fun ip => fst ip ∈ queue_ids m source_id) queue ->
  is_Some (EntityMapper.bfs set_iter fuel m target_id max_depth visited queue).
Proof.
  set (D := size (EntityMapper._relationships m)).
  revert visited queue. induction fuel as [|fuel IH]; intros visited queue Hlt Hq; [lia |].
  destruct queue as [|[current_id path] queue]; simpl; [by eexists |].
  apply Forall_cons in Hq as [Hcur Hq]. simpl in Hlt, Hcur.
  destruct (_ >=? _); [apply IH; [lia | done] |].
  destruct (bool_decide (current_id ∈ visited)) eqn:Hvis; [apply IH; [lia | done] |].
  apply bool_decide_eq_false in Hvis.
  destruct (EntityMapper.get_connected_entities set_iter current_id None m)
    as [connected|e] eqn:Hconn; [| by eexists].
  destruct (get_connected_spec _ _ _ Hconn) as [Hent Hlen]. fold D in Hlen.
  destruct (EntityMapper.scan_connected target_id current_id path connected queue)
    as [found|queue'] eqn:Hscan; [by eexists |].
  destruct (scan_connected_spec _ _ _ _ _ _ Hscan) as (new & -> & Hnew & Hids).
  assert (Hsize : S (size (queue_ids m source_id ∖ (visited ∪ {[current_id]})))
                  = size (queue_ids m source_id ∖ visited)).
  { replace (queue_ids m source_id ∖ visited)
      with ({[current_id]} ∪ (queue_ids m source_id ∖ (visited ∪ {[current_id]}))).
    - rewrite (size_union {[current_id]} (queue_ids m source_id ∖ (visited ∪ {[current_id]}))).
      + rewrite size_singleton. lia.
      + intros x Hx1 Hx2. apply elem_of_singleton in Hx1 as ->.
        apply elem_of_difference in Hx2 as [_ Hx2]. apply Hx2.
        apply elem_of_union. right. by apply elem_of_singleton.
    - apply set_eq. intros x. rewrite elem_of_union, !elem_of_difference, elem_of_union,
        elem_of_singleton.
      split; [intros [->|[? ?]]; [done | tauto] |].
      intros [? ?]. destruct (decide (x = current_id)); [by left | right; tauto]. }
  apply IH.
  - rewrite length_app, Hnew. rewrite <- Hsize in Hlt. lia.
  - apply Forall_app. split; [done |].
    eapply Forall_impl; [by apply Hids |].
    intros ip (e & He & ->). by apply queue_ids_entity.
Qed.

Lemma bfs_fuel_mono target_id max_depth (fuel fuel' : nat) visited queue result :
  EntityMapper.bfs set_iter fuel m target_id max_depth visited queue = Some result ->
  (fuel <= fuel')%nat ->
  EntityMapper.bfs set_iter fuel' m target_id max_depth visited queue = Some result.
Proof.
  revert fuel' visited queue. induction fuel as [|fuel IH]; intros fuel' visited queue; [done |].
  intros Hres Hle. destruct fuel' as [|fuel']; [lia |]. simpl in *.
  destruct queue as [|[current_id path] queue]; [done |].
  destruct (_ >=? _); [apply IH; [done | lia] |].
  destruct (bool_decide _); [apply IH; [done | lia] |].
  destruct (EntityMapper.get_connected_entities _ _ _ _); [| done].
  destruct (EntityMapper.scan_connected _ _ _ _ _); [done |].
  apply IH; [done | lia].
Qed.

(** [find_path] returns on every mapper: some amount of fuel is enough,
    and more fuel does not change the result. *)
Lemma find_path_terminates source_id target_id max_depth :
  exists (fuel0 : nat) result,
    forall fuel : nat, (fuel0 <= fuel)%nat ->
      EntityMapper.find_path set_iter fuel source_id target_id max_depth m = Some result.
Proof.
  set (fuel0 := S (1 + size (queue_ids m source_id ∖ ∅)
                       * S (size (EntityMapper._relationships m)))).
  destruct (bfs_terminates source_id target_id max_depth fuel0 ∅ [(source_id, [])])
    as [result Hres].
  - simpl. lia.
  - repeat constructor. simpl. unfold queue_ids. apply elem_of_list_to_set. by left.
  - unfold EntityMapper.find_path.
    destruct (_ || _); [by exists 0%nat, (Return None) |].
    destruct (String.eqb _ _); [by exists 0%nat, (Return (Some [])) |].
    exists fuel0, result. intros fuel Hle. by apply bfs_fuel_mono with fuel0.
Qed.
End bfs_terminates.

(** C4: on the graph with exactly the entities A, B, C and the
    relationships r1 from A to B and r2 from B to C, whatever order the
    relationship sets are iterated in: [find_path(A, C, max_depth)] with
    [max_depth >= 2] returns the two hops through B (the loop needs two
    iterations), [find_path(A, C, 1)] returns [None], and
    [find_path(A, A, d)] returns the empty path for every [d]. On every
    mapper, [find_path] with a source or target that is not in the entity
    map returns [None]. *)
Theorem find_path_on_chain :
  forall (set_iter : gset string -> list string),
    (forall X : gset string, set_iter X ≡ₚ elements X) ->
    forall (A B C r1 r2 tyA tyB tyC ty1 ty2 : string)
           (pA pB pC p1 p2 : option (list (string * json))),
      A <> B -> B <> C -> A <> C -> r1 <> r2 ->
      let g := chain_graph A B C r1 r2 tyA tyB tyC ty1 ty2 pA pB pC p1 p2 in
      (forall (d : Z) (fuel : nat), 2 <= d -> (2 <= fuel)%nat ->
          EntityMapper.find_path set_iter fuel A C d g
          = Some (Return (Some [(A, r1); (B, r2); (C, "")])))
      /\ (forall fuel : nat, (3 <= fuel)%nat ->
          EntityMapper.find_path set_iter fuel A C 1 g = Some (Return None))
      /\ (forall (d : Z) (fuel : nat),
          EntityMapper.find_path set_iter fuel A A d g = Some (Return (Some [])))
      /\ (forall (m : EntityMapper.EntityRelationshipMapper) (x y : string) (d : Z) (fuel : nat),
          x ∉ dom (EntityMapper._entities m) \/ y ∉ dom (EntityMapper._entities m) ->
          EntityMapper.find_path set_iter fuel x y d m = Some (Return None)).
Proof.
  intros set_iter Hperm A B C r1 r2 tyA tyB tyC ty1 ty2 pA pB pC p1 p2 HAB HBC HAC Hr g.
  destruct (chain_graph_is_chain A B C r1 r2 tyA tyB tyC ty1 ty2 pA pB pC p1 p2
              HAB HBC HAC Hr) as (eA & eB & eC & rel1 & rel2 & Hchain).
  fold g in Hchain.
  assert (HA : A ∈ dom (EntityMapper._entities g)).
  { apply elem_of_dom. rewrite (chain_A _ _ _ _ _ _ _ _ _ _ _ Hchain). by eexists. }
  assert (HC : C ∈ dom (EntityMapper._entities g)).
  { apply elem_of_dom. rewrite (chain_C _ _ _ _ _ _ _ _ _ _ _ Hchain). by eexists. }
  assert (EAC : String.eqb A C = false) by by apply String.eqb_neq.
  assert (Hstart : forall fuel d,
    EntityMapper.find_path set_iter fuel A C d g
    = EntityMapper.bfs set_iter fuel g C d ∅ [(A, [])]).
  { intros fuel d. unfold EntityMapper.find_path.
    rewrite !bool_decide_eq_false_2 by (by intros ?). simpl. by rewrite EAC. }
  split; [| split; [| split]].
  - intros d fuel Hd Hfuel. rewrite Hstart.
    by apply (chain_bfs_found set_iter Hperm Hchain).
  - intros fuel Hfuel. rewrite Hstart.
    by apply (chain_bfs_depth_1 set_iter Hperm Hchain).
  - intros d fuel. by apply find_path_same.
  - intros m x y d fuel. apply find_path_missing.
Qed.

Lemma find_path_on_chain_witness :
  EntityMapper.find_path elements 2 "A" "C" 5
    (chain_graph "A" "B" "C" "r1" "r2" "User" "User" "User" "FOLLOWS" "FOLLOWS"
       None None None None None)
  = Some (Return (Some [("A", "r1"); ("B", "r2"); ("C", "")])).
Proof.
  refine (proj1 (find_path_on_chain elements (fun X => reflexivity _)
                   "A" "B" "C" "r1" "r2" "User" "User" "User" "FOLLOWS" "FOLLOWS"
                   None None None None None _ _ _ _) 5 2%nat _ _);
    solve [discriminate | lia].
Defined.

Lemma add_relationship_requires_both_endpoints_witness :
  EntityMapper.add_relationship "r1" "A" "B" "FOLLOWS" None
    EntityMapper.EntityRelationshipMapper_init
  = (None, EntityMapper.EntityRelationshipMapper_init)
  /\ fst (EntityMapper.add_relationship "r1" "A" "B" "FOLLOWS" None
            (snd (EntityMapper.add_entity "B" "User" None
                    (snd (EntityMapper.add_entity "A" "User" None
                            EntityMapper.EntityRelationshipMapper_init)))))
     = Some (EntityMapper.mkRelationship "r1" "A" "B" "FOLLOWS" []).
Proof.
  split.
  - apply (proj1 (add_relationship_requires_both_endpoints
                    EntityMapper.EntityRelationshipMapper_init "r1" "A" "B" "FOLLOWS" None)).
    left. simpl. rewrite dom_empty_L. apply not_elem_of_empty.
  - refine (proj1 (proj2 (add_relationship_requires_both_endpoints _ "r1" "A" "B" "FOLLOWS" None)
                     _ _)); simpl; apply elem_of_dom.
    + rewrite lookup_insert_ne by discriminate. rewrite lookup_insert_eq. by eexists.
    + rewrite lookup_insert_eq. by eexists.
Defined.

(** ** cache.py: key derivation *)
Section str_order.
Implicit Types (a b c : string).

Lemma str_ltb_trans a b c :
  String.ltb a b = true -> String.ltb b c = true -> String.ltb a c = true.
Proof.
  unfold String.ltb.
  destruct (String.compare a b) eqn:E1; try discriminate.
  destruct (String.compare b c) eqn:E2; try discriminate.
  intros _ _.
  apply OrderedTypeEx.String_as_OT.cmp_lt in E1, E2.
  pose proof (OrderedTypeEx.String_as_OT.lt_trans _ _ _ E1 E2) as H.
  apply OrderedTypeEx.String_as_OT.cmp_lt in H.
  unfold OrderedTypeEx.String_as_OT.cmp in H. by rewrite H.
Qed.

Lemma str_ltb_flip a b : a <> b -> String.ltb a b = negb (String.ltb b a).
Proof.
  intros Hne. unfold String.ltb. rewrite (String.compare_antisym a b).
  destruct (String.compare b a) eqn:E; simpl; try done.
  apply String.compare_eq_iff in E. congruence.
Qed.

Lemma str_ltb_irrefl a : String.ltb a a = false.
Proof.
  unfold String.ltb. pose proof (String.compare_antisym a a) as H.
  by destruct (String.compare a a).
Qed.

(** [c <= a] and [a < b] give [c < b]. *)
Lemma str_nlt_ltb_trans a b c :
  String.ltb a c = false -> String.ltb a b = true -> String.ltb c b = true.
Proof.
  intros Hac Hab. destruct (decide (a = c)) as [->|Hne]; [done |].
  rewrite str_ltb_flip in Hac by done. apply negb_false_iff in Hac.
  by apply str_ltb_trans with a.
Qed.
End str_order.

Section json_facts.
Variable encode_basestring : string -> string.

Lemma insert_item_comm (x y : string * string) (l : list (string * string)) :
  fst x <> fst y ->
  insert_item x (insert_item y l) = insert_item y (insert_item x l).
Proof.
  intros Hne.
  assert (Hxy : String.ltb (fst x) (fst y) = negb (String.ltb (fst y) (fst x)))
    by by apply str_ltb_flip.
  induction l as [|z l IH]; simpl.
  - rewrite Hxy. by destruct (String.ltb (fst y) (fst x)).
  - destruct (String.ltb (fst z) (fst y)) eqn:Ezy, (String.ltb (fst z) (fst x)) eqn:Ezx; simpl;
      rewrite ?Ezy, ?Ezx.
    + by rewrite IH.
    + by rewrite (str_nlt_ltb_trans _ _ _ Ezx Ezy).
    + by rewrite (str_nlt_ltb_trans _ _ _ Ezy Ezx).
    + rewrite Hxy. by destruct (String.ltb (fst y) (fst x)).
Qed.

(** With distinct keys the sorted list does not depend on the order of the
    items. *)
Lemma sorted_items_perm (l1 l2 : list (string * string)) :
  NoDup (map fst l1) -> l1 ≡ₚ l2 -> sorted_items l1 = sorted_items l2.
Proof.
  intros Hnd Hperm. unfold sorted_items.
  apply (foldr_permutation eq insert_item []); [| done].
  intros j1 a1 j2 a2 b Hj H1 H2. apply insert_item_comm.
  intros Heq. apply Hj.
  apply (NoDup_lookup (map fst l1) j1 j2 (fst a1)); [done | |].
  - by rewrite list_lookup_fmap, H1.
  - by rewrite list_lookup_fmap, H2, Heq.
Qed.

Lemma json_dumps_items_perm (items1 items2 : list (string * json)) :
  NoDup (map fst items1) -> items1 ≡ₚ items2 ->
  json_dumps encode_basestring (JDict items1) = json_dumps encode_basestring (JDict items2).
Proof.
  intros Hnd Hperm. simpl.
  erewrite sorted_items_perm; [reflexivity | by rewrite map_map | by apply Permutation_map].
Qed.

(** Reordering dictionaries at any depth does not change the output of
    [json.dumps(.., sort_keys=True)]. *)
Lemma json_dumps_reorder :
  forall j1 j2 : json,
    json_reorder j1 j2 ->
    json_dumps encode_basestring j1 = json_dumps encode_basestring j2.
Proof.
  fix IH 3. intros j1 j2 H. destruct H as [j | items1 items2 Hnd Hperm | items1 items2 Hall
                                            | l1 l2 Hall | j1 j2 j3 H12 H23].
  - reflexivity.
  - by apply json_dumps_items_perm.
  - simpl.
    replace (map (fun kv => (fst kv, json_dumps encode_basestring (snd kv))) items2)
      with (map (fun kv => (fst kv, json_dumps encode_basestring (snd kv))) items1);
      [reflexivity |].
    induction Hall as [|[k1 v1] [k2 v2] items1 items2 [Hk Hv] Hall IHall]; [done |].
    simpl in *. subst k2. rewrite (IH _ _ Hv). by rewrite IHall.
  - simpl.
    replace (map (json_dumps encode_basestring) l2)
      with (map (json_dumps encode_basestring) l1); [reflexivity |].
    induction Hall as [|x1 x2 l1 l2 Hx Hall IHall]; [done |].
    simpl. rewrite (IH _ _ Hx). by rewrite IHall.
  - rewrite (IH _ _ H12). apply (IH _ _ H23).
Qed.
End json_facts.

(** C6: the key of a query result is a function of (query, collection,
    project): [cache_query_result(q, r, c, t)] stores [r] under it and
    returns it, and [get_query_result(q, c, t)] at a time at which the entry
    has not expired finds [r] again (capacity at least 1, so that the [set]
    completes, and nothing in between). [_generate_key] gives the same key
    for two inputs that differ only in the order in which dictionaries, at
    any depth, list their items; in particular the key of a query does not
    depend on the order of the three fields of its dictionary. *)
Theorem query_key_roundtrip_and_field_order :
  forall (V : Type) (encode_basestring sha256_hexdigest : string -> string),
    (forall (c : Cache.MemoryCache (V := V)) (q : string) (res : V) (coll : string)
            (project_id : option string) (t : option Z) (now now' : Q),
        1 <= Cache.max_size c ->
        NoDup (od_keys (Cache.read_store (Cache.resolve project_id) c)) ->
        (now' - now <= inject_Z (Cache.ttl_or_default t c))%Q ->
        let stored :=
          Cache.cache_query_result encode_basestring sha256_hexdigest q res coll project_id t now c in
        fst stored
        = Return (Cache._generate_key encode_basestring sha256_hexdigest
                    (JDict [("project", match project_id with Some p => JStr p | None => JNull end);
                            ("collection", JStr coll);
                            ("query", JStr q)]))
        /\ fst (Cache.get_query_result encode_basestring sha256_hexdigest q coll project_id now'
                  (snd stored)) = Some res)
    /\ (forall j1 j2 : json,
        json_reorder j1 j2 ->
        Cache._generate_key encode_basestring sha256_hexdigest j1
        = Cache._generate_key encode_basestring sha256_hexdigest j2).
Proof.
  intros V enc sha. split.
  - intros c q res coll project_id t now now' Hpos Hnd Hle stored. subst stored.
    unfold Cache.cache_query_result, Cache.get_query_result. cbv zeta.
    set (key := Cache._generate_key enc sha
                  (JDict [("query", JStr q); ("collection", JStr coll); _])).
    assert (Hret : fst (Cache.set key res t project_id now c) = Return key)
      by by apply set_returns.
    split.
    + rewrite Hret. reflexivity.
    + destruct (set_then_lookup key res t project_id now c Hnd Hret) as [Hget _].
      destruct (get_hit key project_id now' _ _ Hget) as [-> _]; [| done].
      by apply is_expired_false.
  - intros j1 j2 H. unfold Cache._generate_key. f_equal. by apply json_dumps_reorder.
Qed.

Lemma query_key_roundtrip_and_field_order_witness :
  fst (Cache.get_query_result (fun s => s) (fun s => s) "q" "coll" None 3600
         (snd (Cache.cache_query_result (fun s => s) (fun s => s) "q" "r" "coll" None None 0
                 (Cache.MemoryCache_init 10 3600))))
  = Some "r"
  /\ Cache._generate_key (fun s => s) (fun s => s) (JDict [("a", JInt 1); ("b", JNull)])
     = Cache._generate_key (fun s => s) (fun s => s) (JDict [("b", JNull); ("a", JInt 1)]).
Proof.
  destruct (query_key_roundtrip_and_field_order string (fun s => s) (fun s => s))
    as (Hround & Hkey).
  split.
  - refine (proj2 (Hround (Cache.MemoryCache_init 10 3600) "q" "r" "coll" None None 0%Q 3600%Q
                     _ _ _)).
    + simpl. lia.
    + constructor.
    + unfold Qle. simpl. lia.
  - apply Hkey, reorder_items.
    + simpl. repeat constructor; rewrite ?elem_of_cons, ?elem_of_nil; intuition discriminate.
    + apply perm_swap.
Defined.

(** ** swarm.py: trail identity *)


(** ** swarm.py: the operation log *)
Section swarm_log.
Variable sha256_hexdigest : string -> string.
Implicit Types (s : Swarm.SwarmTracker).

Lemma track_operation_log op coll q now s :
  operation_log coll (snd (Swarm.track_operation sha256_hexdigest op coll q now s))
  = operation_log coll s
      ++ [Swarm.mkPattern now op
            (Swarm._generate_trail_id sha256_hexdigest op coll (Swarm.query_or_empty q))].
Proof. unfold operation_log. simpl. by rewrite lookup_insert_eq. Qed.

Lemma track_operation_log_other op coll coll' q now s :
  coll <> coll' ->
  operation_log coll' (snd (Swarm.track_operation sha256_hexdigest op coll q now s))
  = operation_log coll' s.
Proof. intros Hne. unfold operation_log. simpl. by rewrite lookup_insert_ne. Qed.

Lemma track_calls_cons coll op q now calls s :
  track_calls sha256_hexdigest coll ((op, q, now) :: calls) s
  = track_calls sha256_hexdigest coll calls
      (snd (Swarm.track_operation sha256_hexdigest op coll q now s)).
Proof. done. Qed.

Lemma track_calls_log_length coll calls s :
  length (operation_log coll (track_calls sha256_hexdigest coll calls s))
  = (length (operation_log coll s) + length calls)%nat.
Proof.
  revert s. induction calls as [|[[op q] now] calls IH]; intros s.
  - simpl. lia.
  - rewrite track_calls_cons, IH, track_operation_log, length_app. simpl. lia.
Qed.

Lemma slice_last_length {A} (n : nat) (l : list A) : (length (slice_last n l) <= n)%nat.
Proof. unfold slice_last. rewrite length_skipn. lia. Qed.

Lemma slice_last_suffix {A} (n : nat) (l : list A) : slice_last n l `suffix_of` l.
Proof. unfold slice_last. apply suffix_drop. Qed.
End swarm_log.

(** C9 (as the code has it): [track_operation] appends one record to the
    log of its collection and to no other; nothing ever shortens a log, so
    after N calls that name a collection its log has N more records than
    before, without bound. The windows are taken when the log is read:
    [get_collection_patterns] reports the full length as
    [total_operations], counts recent operations among the last 100 records
    and returns the last 10 records. *)
Theorem operation_log_grows_with_every_track :
  forall (sha256_hexdigest : string -> string) (s : Swarm.SwarmTracker) (coll : string),
    (forall op q now,
        operation_log coll (snd (Swarm.track_operation sha256_hexdigest op coll q now s))
        = operation_log coll s
            ++ [Swarm.mkPattern now op
                  (Swarm._generate_trail_id sha256_hexdigest op coll (Swarm.query_or_empty q))]
        /\ forall coll', coll <> coll' ->
             operation_log coll' (snd (Swarm.track_operation sha256_hexdigest op coll q now s))
             = operation_log coll' s)
    /\ (forall calls : list (string * option string * Q),
        length (operation_log coll (track_calls sha256_hexdigest coll calls s))
        = (length (operation_log coll s) + length calls)%nat)
    /\ (forall now,
        match Swarm.get_collection_patterns coll now s with
        | Swarm.NoPatterns c => c = coll /\ operation_log coll s = []
        | Swarm.PatternSummary c total counts recent patterns =>
            c = coll
            /\ total = Z.of_nat (length (operation_log coll s))
            /\ 0 <= recent <= 100
            /\ patterns = slice_last 10 (operation_log coll s)
            /\ patterns `suffix_of` operation_log coll s
            /\ (length patterns <= 10)%nat
        end).
Proof.
  intros sha s coll. split; [| split].
  - intros op q now. split; [apply track_operation_log |].
    intros coll' Hne. by apply track_operation_log_other.
  - intros calls. apply track_calls_log_length.
  - intros now. unfold Swarm.get_collection_patterns. fold (operation_log coll s).
    destruct (operation_log coll s) as [|p log] eqn:Hlog; [done |].
    split; [done |]. split; [done |]. split; [| split; [done | split]].
    + split; [lia |].
      pose proof (length_filter (fun p0 => Qgtb 3600 (now - Swarm.timestamp p0) = true)
                    (slice_last 100 (p :: log))) as H1.
      pose proof (slice_last_length 100 (p :: log)) as H2. lia.
    + apply slice_last_suffix.
    + apply slice_last_length.
Qed.

Lemma operation_log_grows_with_every_track_witness :
  length (operation_log "docs"
            (track_calls (fun data => data) "docs" (same_call 101)
               (Swarm.SwarmTracker_init (1 # 100)))) = 101%nat.
Proof.
  rewrite (proj1 (proj2 (operation_log_grows_with_every_track (fun data => data)
                           (Swarm.SwarmTracker_init (1 # 100)) "docs"))).
  reflexivity.
Defined.

(** C9, counterexample: no bound holds for the stored log; after [B + 1]
    calls it has [B + 1] records. *)
Lemma operation_log_has_no_bound :
  ~ exists B : nat, forall N : nat,
      (length (operation_log "docs"
                 (track_calls (fun data => data) "docs" (same_call N)
                    (Swarm.SwarmTracker_init (1 # 100)))) <= B)%nat.
Proof.
  intros [B HB]. specialize (HB (S B)).
  rewrite track_calls_log_length in HB. unfold same_call in HB.
  rewrite repeat_length in HB. simpl in HB. lia.
Qed.

(** ** swarm.py: evaporation and ranking *)
Section swarm_ranking.
Implicit Types (h x y : Swarm.HotTrail) (l : list Swarm.HotTrail) (t : Swarm.PheromoneTrail).


Lemma py_max_lower (a b : Q) : (a <= Swarm.py_max a b)%Q.
Proof.
  unfold Swarm.py_max. destruct (Qgtb b a) eqn:E.
  - apply Qgtb_true in E. by apply Qlt_le_weak.
  - apply Qle_refl.
Qed.


#[local] Instance stronger_first_trans : Transitive stronger_first.
Proof. intros a b c Hab Hbc. unfold stronger_first in *. by apply Qle_trans with (Swarm.hot_strength b). Qed.

Lemma insert_hot_perm x l : Swarm.insert_hot x l ≡ₚ x :: l.
Proof.
  induction l as [|y l IH]; simpl; [done |].
  destruct (Qgtb _ _); [| done]. rewrite IH. apply perm_swap.
Qed.

Lemma sort_hot_perm l : Swarm.sort_hot l ≡ₚ l.
Proof.
  induction l as [|x l IH]; simpl; [done |].
  unfold Swarm.sort_hot in *. simpl. by rewrite insert_hot_perm, IH.
Qed.




Lemma slice_to_nonneg {A} (limit : Z) (l : list A) :
  0 <= limit ->
  slice_to limit l = firstn (Z.to_nat limit) l /\ Z.of_nat (length (slice_to limit l)) <= limit.
Proof.
  intros Hlimit. unfold slice_to. destruct (Z.leb_spec 0 limit); [| lia].
  split; [done |]. rewrite length_firstn. lia.
Qed.


Lemma slice_to_firstn {A} (limit : Z) (l : list A) : exists n, slice_to limit l = firstn n l.
Proof. unfold slice_to. destruct (0 <=? limit); eauto. Qed.
End swarm_ranking.




(** * Further properties *)

(** ** cache.py: cleanup, statistics, overwriting, clearing *)
Section cache_more.
Context {V : Type}.
Implicit Types (c : Cache.MemoryCache (V := V)) (r : Cache.store_ref)
  (d : list (string * Cache.CacheEntry (V := V))) (e : Cache.CacheEntry (V := V)).

Lemma od_delitem_filter (k : string) d :
  NoDup (od_keys d) -> od_delitem k d = filter (fun kv => fst kv <> k) d.
Proof.
  induction d as [|[k0 v0] d IH]; simpl; [done |].
  intros Hnd. apply NoDup_cons in Hnd as [Hk0 Hnd]. rewrite filter_cons. simpl.
  destruct (String.eqb k0 k) eqn:E.
  - apply String.eqb_eq in E. subst k0. destruct (decide (k <> k)) as [Hkk|_]; [done |].
    rewrite <- IH by done. symmetry. apply od_delitem_absent. by apply od_get_None_keys.
  - apply String.eqb_neq in E. destruct (decide (k0 <> k)); [| done]. by rewrite IH.
Qed.

Lemma foldl_delitem_filter (ks : list string) d :
  NoDup (od_keys d) ->
  foldl (fun acc k => od_delitem k acc) d ks = filter (fun kv => fst kv ∉ ks) d.
Proof.
  revert d. induction ks as [|k ks IH]; intros d Hnd; simpl.
  - symmetry. induction d as [|kv d IHd]; [done |].
    rewrite filter_cons. destruct (decide _) as [|Hin]; [| by destruct Hin; apply not_elem_of_nil].
    f_equal. apply IHd. by apply NoDup_cons in Hnd as [_ ?].
  - rewrite IH by by apply od_delitem_NoDup.
    rewrite od_delitem_filter by done. rewrite list_filter_filter.
    apply list_filter_iff. intros kv. rewrite not_elem_of_cons. tauto.
Qed.

Lemma od_keys_unique (k : string) (v v' : Cache.CacheEntry (V := V)) d :
  NoDup (od_keys d) -> (k, v) ∈ d -> (k, v') ∈ d -> v = v'.
Proof.
  induction d as [|[k0 v0] d IH]; simpl; [by intros _ ?%elem_of_nil |].
  intros Hnd H1 H2. apply NoDup_cons in Hnd as [Hk0 Hnd].
  apply elem_of_cons in H1 as [H1|H1], H2 as [H2|H2].
  - congruence.
  - injection H1 as -> ->. destruct Hk0. unfold od_keys.
    apply list_elem_of_fmap. by exists (k0, v').
  - injection H2 as -> ->. destruct Hk0. unfold od_keys.
    apply list_elem_of_fmap. by exists (k0, v).
  - by apply IH.
Qed.

Lemma filter_ext_elem {A} (P Q : A -> Prop) `{!forall x, Decision (P x)}
    `{!forall x, Decision (Q x)} (l : list A) :
  (forall x, x ∈ l -> P x <-> Q x) -> filter P l = filter Q l.
Proof.
  induction l as [|x l IH]; intros Hext; [done |].
  rewrite !filter_cons.
  assert (Hl : filter P l = filter Q l).
  { apply IH. intros y Hy. apply Hext. by right. }
  pose proof (Hext x ltac:(by left)) as Hx.
  destruct (decide (P x)), (decide (Q x)); rewrite ?Hl; tauto.
Qed.

Lemma sum_access_setitem (key : string) (now : Q) e d :
  od_get key d = Some e ->
  foldr Z.add 0 (map (fun kv => Cache.access_count (snd kv))
                   (od_setitem key (Cache.access now e) d))
  = foldr Z.add 0 (map (fun kv => Cache.access_count (snd kv)) d) + 1.
Proof.
  induction d as [|[k0 v0] d IH]; simpl; [done |].
  destruct (String.eqb k0 key); simpl.
  - intros [= ->]. lia.
  - intros H. rewrite IH by done. lia.
Qed.

Lemma get_stats_unfold project_id now c :
  Cache.get_stats project_id now c =
    let store := Cache.read_store (Cache.resolve project_id) c in
    let total := Z.of_nat (length store) in
    let expired :=
      Z.of_nat (length (filter (fun kv => Cache.is_expired now (snd kv) = true) store)) in
    (Cache.mkCacheStats total expired (total - expired)
       (foldr Z.add 0 (map (fun kv => Cache.access_count (snd kv)) store))
       (Cache.max_size c) (Cache.default_ttl c),
     snd (Cache._get_cache project_id c)).
Proof.
  unfold Cache.get_stats.
  pose proof (get_cache_ref project_id c) as Hr.
  pose proof (get_cache_read project_id (Cache.resolve project_id) c) as Hread.
  pose proof (get_cache_max_size project_id c) as Hmax.
  pose proof (get_cache_default_ttl project_id c) as Httl.
  destruct (Cache._get_cache project_id c) as [r c0]; simpl in *. subst r.
  by rewrite Hread, Hmax, Httl.
Qed.
End cache_more.

(** X1: [_cleanup_expired] removes exactly the expired entries of a
    store (one whose keys are distinct, as a dictionary's are) and keeps
    the others in their order. *)
Theorem cleanup_expired_keeps_exactly_the_live_entries :
  forall (V : Type) (now : Q) (d : list (string * Cache.CacheEntry (V := V))),
    NoDup (od_keys d) ->
    Cache._cleanup_expired now d
    = filter (fun kv => Cache.is_expired now (snd kv) = false) d.
Proof.
  intros V now d Hnd. unfold Cache._cleanup_expired.
  rewrite foldl_delitem_filter by done.
  apply filter_ext_elem. intros [k v] Hkv. simpl. split.
  - intros Hk. destruct (Cache.is_expired now v) eqn:E; [| done].
    destruct Hk. apply list_elem_of_fmap. exists (k, v). split; [done |].
    by apply list_elem_of_filter.
  - intros Hlive Hk. apply list_elem_of_fmap in Hk as ([k' v'] & Heq & Hin).
    simpl in Heq. subst k'. apply list_elem_of_filter in Hin as [Hexp Hin]. simpl in Hexp.
    rewrite (od_keys_unique k v v' d Hnd Hkv Hin) in Hlive. congruence.
Qed.

Lemma cleanup_expired_keeps_exactly_the_live_entries_witness :
  od_keys
    (Cache._cleanup_expired 10
       [("old", Cache.CacheEntry_init "a" 5 0); ("new", Cache.CacheEntry_init "b" 5 7);
        ("edge", Cache.CacheEntry_init "c" 5 5)])
  = ["new"; "edge"].
Proof.
  rewrite cleanup_expired_keeps_exactly_the_live_entries; [by vm_compute |].
  repeat constructor; rewrite ?elem_of_cons, ?elem_of_nil; intuition discriminate.
Defined.

(** X2: [get_stats] only reads: the entries of every store, [max_size] and
    [default_ttl] are the same afterwards, so expired entries are counted
    and not removed. It reports the number of entries of its scope's
    store, how many of them are expired at the time of the call, and the
    rest as active: the two counts add up to the total. *)
Theorem get_stats_counts_without_cleaning :
  forall (V : Type) (c : Cache.MemoryCache (V := V)) (project_id : option string) (now : Q),
    let stats := fst (Cache.get_stats project_id now c) in
    let c' := snd (Cache.get_stats project_id now c) in
    let store := Cache.read_store (Cache.resolve project_id) c in
    (forall r, Cache.read_store r c' = Cache.read_store r c)
    /\ Cache.max_size c' = Cache.max_size c
    /\ Cache.default_ttl c' = Cache.default_ttl c
    /\ Cache.total_entries stats = Z.of_nat (length store)
    /\ Cache.expired_count stats
       = Z.of_nat (length (filter (fun kv => Cache.is_expired now (snd kv) = true) store))
    /\ Cache.expired_count stats + Cache.active_entries stats = Cache.total_entries stats
    /\ 0 <= Cache.expired_count stats <= Cache.total_entries stats
    /\ Cache.stats_max_size stats = Cache.max_size c
    /\ Cache.stats_default_ttl stats = Cache.default_ttl c.
Proof.
  intros V c project_id now stats c' store. subst stats c'.
  rewrite get_stats_unfold. cbv zeta. simpl. fold store.
  pose proof (length_filter (fun kv => Cache.is_expired now (snd kv) = true) store).
  split; [intros r; apply get_cache_read |].
  split; [apply get_cache_max_size |]. split; [apply get_cache_default_ttl |].
  repeat split; lia.
Qed.

(** X3: a [get] that returns data is counted once: [total_accesses] of
    [get_stats] is then one more than before, and the number of entries is
    the same. *)
Theorem get_hit_adds_one_access :
  forall (V : Type) (c : Cache.MemoryCache (V := V)) (key : string)
         (project_id : option string) (now now' : Q) (v : V),
    fst (Cache.get key project_id now c) = Some v ->
    let c' := snd (Cache.get key project_id now c) in
    Cache.total_accesses (fst (Cache.get_stats project_id now' c'))
    = Cache.total_accesses (fst (Cache.get_stats project_id now' c)) + 1
    /\ Cache.total_entries (fst (Cache.get_stats project_id now' c'))
       = Cache.total_entries (fst (Cache.get_stats project_id now' c)).
Proof.
  intros V c key project_id now now' v Hres c'. subst c'.
  rewrite !get_stats_unfold. cbv zeta. simpl.
  revert Hres. rewrite get_unfold. cbv zeta.
  destruct (od_get key _) as [e|] eqn:Hget; [| done].
  destruct (Cache.is_expired now e); [done |]. simpl. intros _.
  rewrite read_write_store. split.
  - by apply sum_access_setitem.
  - by rewrite (od_length_setitem_present _ _ _ _ Hget).
Qed.

Lemma get_hit_adds_one_access_witness :
  Cache.total_accesses (fst (Cache.get_stats None 1 (snd (Cache.get "k" None 1 ttl_scenario))))
  = Cache.total_accesses (fst (Cache.get_stats None 1 ttl_scenario)) + 1.
Proof.
  refine (proj1 (get_hit_adds_one_access string ttl_scenario "k" None 1%Q 1%Q "v" _)).
  by vm_compute.
Defined.

(** X4: a [set] into a store that is at capacity (nothing expired) evicts
    the head of the order also when its key is already in the store: the
    old entry of the key is replaced in the same call, so the store ends
    one entry short of [max_size], and the evicted head can no longer be
    read. *)
Theorem set_existing_key_on_full_store_still_evicts :
  forall (V : Type) (c : Cache.MemoryCache (V := V)) (key : string) (v : V) (t : option Z)
         (project_id : option string) (now : Q)
         (head : string * Cache.CacheEntry (V := V)) (rest : list (string * Cache.CacheEntry (V := V)))
         (old : Cache.CacheEntry (V := V)),
    let r := Cache.resolve project_id in
    Cache.read_store r c = head :: rest ->
    NoDup (od_keys (head :: rest)) ->
    Forall (fun kv => Cache.is_expired now (snd kv) = false) (head :: rest) ->
    Z.of_nat (length (head :: rest)) = Cache.max_size c ->
    od_get key rest = Some old ->
    let c' := snd (Cache.set key v t project_id now c) in
    Cache.read_store r c'
    = od_delitem key rest ++ [(key, Cache.CacheEntry_init v (Cache.ttl_or_default t c) now)]
    /\ store_len r c' = Cache.max_size c - 1
    /\ od_get (fst head) (Cache.read_store r c') = None
    /\ fst (Cache.get (fst head) project_id now c') = None.
Proof.
  intros V c key v t project_id now head rest old r Hstore Hnd Hexp Hlen Hold c'.
  assert (Hret : fst (Cache.set key v t project_id now c) = Return key).
  { apply set_returns. simpl in Hlen. lia. }
  destruct (set_store _ _ _ _ _ _ Hret) as [_ Hnew]. fold r c' in Hnew.
  rewrite Hstore, cleanup_none_expired in Hnew by done.
  rewrite evict_if_needed_step in Hnew.
  destruct (Z.geb_spec (Z.of_nat (length (head :: rest))) (Cache.max_size c)); [| lia].
  rewrite evict_if_needed_below in Hnew by (simpl in Hlen; lia). simpl in Hnew.
  apply NoDup_cons in Hnd as [Hhead Hnd].
  change (fst head ∉ od_keys rest) in Hhead. change (NoDup (od_keys rest)) in Hnd.
  assert (Hkey : fst head <> key).
  { intros Heq. rewrite Heq in Hhead. apply od_get_None_keys in Hhead. congruence. }
  assert (Hgone : od_get (fst head) (Cache.read_store r c') = None).
  { rewrite Hnew, od_get_app_ne by done. apply od_get_None_keys.
    intros Hin. apply Hhead.
    eapply elem_of_sublist; [exact Hin | apply (od_keys_delitem_sublist key rest)]. }
  split; [done |]. split; [| split; [done | by apply get_absent]].
  unfold store_len. rewrite Hnew, length_app. simpl.
  pose proof (od_length_delitem_present _ _ _ Hold). simpl in Hlen. lia.
Qed.

Lemma set_existing_key_on_full_store_still_evicts_witness :
  od_keys (Cache.read_store Cache.GlobalStore
             (snd (Cache.set "k3" "again" None None 0 lru_scenario)))
  = ["k3"].
Proof.
  destruct (set_existing_key_on_full_store_still_evicts string lru_scenario "k3" "again"
              None None 0%Q ("k2", Cache.CacheEntry_init "v2" 3600 0)
              [("k3", Cache.CacheEntry_init "v3" 3600 0)] (Cache.CacheEntry_init "v3" 3600 0))
    as [-> _]; try by vm_compute.
  - repeat constructor; rewrite ?elem_of_cons, ?elem_of_nil; intuition discriminate.
  - repeat constructor.
Defined.

(** X5: [clear] leaves the store of its scope empty, so every [get] there
    misses and [get_stats] reports no entries, and keeps [max_size] and
    [default_ttl]. It never allocates: for a project that has no store the
    cache is returned as it was, whereas a [get] for such a project leaves
    an empty store behind. *)
Theorem clear_empties_its_store_and_never_allocates :
  forall (V : Type) (c : Cache.MemoryCache (V := V)) (project_id : option string),
    Cache.read_store (Cache.resolve project_id) (Cache.clear project_id c) = []
    /\ (forall key now, fst (Cache.get key project_id now (Cache.clear project_id c)) = None)
    /\ (forall now,
          Cache.total_entries (fst (Cache.get_stats project_id now (Cache.clear project_id c))) = 0)
    /\ Cache.max_size (Cache.clear project_id c) = Cache.max_size c
    /\ Cache.default_ttl (Cache.clear project_id c) = Cache.default_ttl c
    /\ (forall p : string,
          p <> "" -> Cache._project_caches c !! p = None ->
          Cache.clear (Some p) c = c
          /\ forall key now,
               Cache._project_caches (snd (Cache.get key (Some p) now c)) !! p = Some []).
Proof.
  intros V c project_id.
  split; [apply clear_store |]. split; [| split; [| split; [| split]]].
  - intros key now. apply get_absent. by rewrite clear_store.
  - intros now. rewrite get_stats_total. unfold store_len. by rewrite clear_store.
  - apply clear_max_size.
  - unfold Cache.clear. destruct (Cache.resolve project_id) as [|p]; [done |].
    by destruct (Cache._project_caches c !! p).
  - intros p Hp Hnone. unfold Cache.clear, Cache.get, Cache._get_cache.
    rewrite (resolve_nonempty p Hp), Hnone. split; [done |].
    intros key now. simpl. rewrite lookup_insert_eq. simpl. by rewrite lookup_insert_eq.
Qed.

Lemma clear_empties_its_store_and_never_allocates_witness :
  Cache.clear (Some "tenant") lru_scenario = lru_scenario.
Proof.
  refine (proj1 (proj2 (proj2 (proj2 (proj2 (proj2
            (clear_empties_its_store_and_never_allocates string lru_scenario (Some "tenant"))))))
            "tenant" _ _)); [discriminate | by vm_compute].
Defined.

(** ** swarm.py: strengths, lazy evaporation, tracking *)
Section swarm_more.
Variable sha256_hexdigest : string -> string.
Implicit Types (s : Swarm.SwarmTracker) (t : Swarm.PheromoneTrail).

Lemma py_min_upper (a b : Q) : (Swarm.py_min a b <= a)%Q.
Proof.
  unfold Swarm.py_min. destruct (Qgtb a b) eqn:E; [| apply Qle_refl].
  apply Qgtb_true in E. by apply Qlt_le_weak.
Qed.

Lemma py_min_lower (a b c : Q) : (c <= a)%Q -> (c <= b)%Q -> (c <= Swarm.py_min a b)%Q.
Proof. intros Ha Hb. unfold Swarm.py_min. by destruct (Qgtb a b). Qed.

Lemma py_max_upper (a b c : Q) : (a <= c)%Q -> (b <= c)%Q -> (Swarm.py_max a b <= c)%Q.
Proof. intros Ha Hb. unfold Swarm.py_max. by destruct (Qgtb b a). Qed.

Lemma reinforce_in_range now t :
  (0 <= Swarm.strength t <= 1)%Q ->
  (0 <= Swarm.strength (Swarm.reinforce (1 # 10) now t) <= 1)%Q.
Proof.
  intros [H0 H1]. simpl. split; [| apply py_min_upper].
  apply py_min_lower; [done |].
  apply Qle_trans with (Swarm.strength t); [done |].
  rewrite <- (Qplus_0_r (Swarm.strength t)) at 1. by apply Qplus_le_r.
Qed.

(** What evaporation removes is not negative when the rate is not and the
    clock has not run backwards. *)
Lemma evaporation_nonneg (rate now last : Q) :
  (0 <= rate)%Q -> (last <= now)%Q -> (0 <= rate * (now - last) / 60)%Q.
Proof.
  intros Hrate Hnow. apply Qle_shift_div_l; [done |]. rewrite Qmult_0_l.
  apply Qmult_le_0_compat; [done |]. by apply (proj1 (Qle_minus_iff last now)).
Qed.

Lemma evaporate_in_range rate now t :
  (0 <= rate)%Q -> (Swarm.last_update t <= now)%Q ->
  (0 <= Swarm.strength t <= 1)%Q ->
  (0 <= Swarm.strength (Swarm.evaporate rate now t) <= 1)%Q
  /\ (Swarm.strength (Swarm.evaporate rate now t) <= Swarm.strength t)%Q.
Proof.
  intros Hrate Hnow [H0 H1]. simpl.
  pose proof (evaporation_nonneg rate now (Swarm.last_update t) Hrate Hnow) as Hev.
  assert (Hle : (Swarm.strength t - rate * (now - Swarm.last_update t) / 60
                 <= Swarm.strength t)%Q).
  { apply Qle_minus_iff. ring_simplify. apply Hev. }
  split; [split |].
  - apply py_max_lower.
  - apply py_max_upper; [done |]. by apply Qle_trans with (Swarm.strength t).
  - by apply py_max_upper.
Qed.

Lemma od_setitem_Forall {A} (P : string * A -> Prop) (k : string) (v : A) (d : list (string * A)) :
  Forall P d -> P (k, v) -> (forall k', P (k, v) -> P (k', v)) -> Forall P (od_setitem k v d).
Proof.
  intros Hall Hkv Hany. induction Hall as [|[k0 v0] d Hx Hall IH]; simpl.
  - by constructor.
  - destruct (String.eqb k0 k); constructor; auto.
Qed.

Lemma od_get_Forall {A} (P : string * A -> Prop) (k : string) (v : A) (d : list (string * A)) :
  Forall P d -> od_get k d = Some v -> exists k', P (k', v).
Proof.
  induction 1 as [|[k0 v0] d Hx Hall IH]; simpl; [done |].
  destruct (String.eqb k0 k); [intros [= <-]; by exists k0 | done].
Qed.

Lemma track_operation_trails op coll q now s :
  let tid := Swarm._generate_trail_id sha256_hexdigest op coll (Swarm.query_or_empty q) in
  Swarm._trails (snd (Swarm.track_operation sha256_hexdigest op coll q now s))
  = match od_get tid (Swarm._trails s) with
    | Some t => od_setitem tid (Swarm.reinforce (1 # 10) now t) (Swarm._trails s)
    | None =>
        Swarm._trails s
          ++ [(tid, Swarm.mkPheromoneTrail tid 1 now 1
                      (Some (Swarm.mkTrailMetadata op coll (Swarm.query_or_empty q) now)))]
    end.
Proof.
  intros tid. unfold Swarm.track_operation. fold tid. cbn [snd Swarm._trails].
  destruct (od_get tid (Swarm._trails s)) as [t|] eqn:Hget.
  - by rewrite Hget.
  - rewrite od_get_setitem_eq.
    assert (Hnew : forall (v v' : Swarm.PheromoneTrail) d,
              od_get tid d = None -> od_setitem tid v' (od_setitem tid v d) = d ++ [(tid, v')]).
    { intros v v' d. induction d as [|[k0 v0] d IH]; simpl.
      - by rewrite String.eqb_refl.
      - destruct (String.eqb k0 tid) eqn:E; [done |]. simpl. rewrite E.
        intros H. by rewrite IH. }
    by rewrite Hnew.
Qed.
End swarm_more.

Section swarm_invariant.
Variable sha256_hexdigest : string -> string.
Implicit Types (s : Swarm.SwarmTracker) (t : Swarm.PheromoneTrail).

Lemma tracker_step_rate s (o : tracker_op) :
  Swarm.evaporation_rate (tracker_step sha256_hexdigest s o) = Swarm.evaporation_rate s.
Proof. by destruct o. Qed.

Lemma tracker_step_keeps_range (T : Q) s (o : tracker_op) :
  (0 <= Swarm.evaporation_rate s)%Q ->
  (T <= tracker_op_time o)%Q ->
  strengths_in_range s -> updated_by T s ->
  strengths_in_range (tracker_step sha256_hexdigest s o)
  /\ updated_by (tracker_op_time o) (tracker_step sha256_hexdigest s o).
Proof.
  intros Hrate HT Hrange Hupd. unfold strengths_in_range, updated_by in *.
  assert (Hupd' : Forall (fun kt => (Swarm.last_update (snd kt) <= tracker_op_time o)%Q)
                    (Swarm._trails s)).
  { eapply Forall_impl; [exact Hupd |]. intros kt Hkt. by apply Qle_trans with T. }
  destruct o as [op coll q now | min_strength limit now];
    cbn [tracker_step tracker_op_time] in *.
  - rewrite !track_operation_trails. cbv zeta.
    destruct (od_get _ (Swarm._trails s)) as [t|] eqn:Hget.
    + destruct (od_get_Forall _ _ _ _ Hrange Hget) as [k' Ht]. simpl in Ht.
      split; apply od_setitem_Forall; simpl; try done.
      * by apply (reinforce_in_range now t).
      * apply Qle_refl.
    + split; apply Forall_app; (split; [done |]); repeat constructor; simpl; try done.
      apply Qle_refl.
  - split.
    + apply Forall_fmap. rewrite Forall_forall in Hrange, Hupd'. apply Forall_forall.
      intros kt Hkt. simpl. by apply (evaporate_in_range _ _ (snd kt)); auto.
    + apply Forall_fmap, Forall_forall. intros kt _. simpl. apply Qle_refl.
Qed.

Lemma tracker_run_keeps_range (ops : list tracker_op) (T : Q) s :
  (0 <= Swarm.evaporation_rate s)%Q ->
  clock_from T ops ->
  strengths_in_range s -> updated_by T s ->
  strengths_in_range (tracker_run sha256_hexdigest ops s).
Proof.
  revert T s. induction ops as [|o ops IH]; intros T s Hrate Hclock Hrange Hupd; [done |].
  destruct Hclock as [HT Hclock].
  destruct (tracker_step_keeps_range T s o Hrate HT Hrange Hupd) as [Hrange' Hupd'].
  unfold tracker_run in *. simpl. apply (IH (tracker_op_time o)); try done.
  by rewrite tracker_step_rate.
Qed.
End swarm_invariant.

Lemma clock_from_app (T : Q) (ops : list tracker_op) (o : tracker_op) :
  clock_from T (ops ++ [o]) -> clock_from T ops.
Proof.
  revert T. induction ops as [|o' ops IH]; intros T; simpl; [done |].
  intros [? ?]. split; [done | by apply IH].
Qed.

Lemma hot_trails_come_from_trails (min_strength : Q) (limit : Z) (now : Q)
    (s : Swarm.SwarmTracker) (P : Q -> Prop) :
  Forall (fun kt => P (Swarm.strength (snd kt)))
    (Swarm._trails (snd (Swarm.get_hot_trails min_strength limit now s))) ->
  Forall (fun h => P (Swarm.hot_strength h)) (fst (Swarm.get_hot_trails min_strength limit now s)).
Proof.
  intros Hall. simpl in *.
  destruct (slice_to_firstn limit
              (Swarm.sort_hot
                 (map (fun kt => Swarm.hot_of (snd kt))
                    (filter (fun kt => Qgeb (Swarm.strength (snd kt)) min_strength = true)
                       (map (fun kt => (fst kt, Swarm.evaporate (Swarm.evaporation_rate s) now
                                                  (snd kt)))
                          (Swarm._trails s)))))) as [n ->].
  apply Forall_take. rewrite sort_hot_perm. apply Forall_fmap.
  apply Forall_forall. intros kt Hkt. apply list_elem_of_filter in Hkt as [_ Hkt].
  rewrite Forall_forall in Hall. by apply (Hall kt).
Qed.

(** X6: on a new tracker with an evaporation rate that is not negative and
    a clock that does not run backwards, every trail strength stays between
    0 and 1 through any sequence of [track_operation] and [get_hot_trails]
    calls, and so does every strength a later [get_hot_trails] returns. *)
Theorem trail_strengths_stay_between_0_and_1 :
  forall (sha256_hexdigest : string -> string) (rate : Q) (ops : list tracker_op)
         (T : Q) (min_strength : Q) (limit : Z) (now : Q),
    (0 <= rate)%Q ->
    clock_from T (ops ++ [OpHotTrails min_strength limit now]) ->
    let s := tracker_run sha256_hexdigest ops (Swarm.SwarmTracker_init rate) in
    strengths_in_range s
    /\ strengths_in_range (snd (Swarm.get_hot_trails min_strength limit now s))
    /\ Forall (fun h => (0 <= Swarm.hot_strength h <= 1)%Q)
         (fst (Swarm.get_hot_trails min_strength limit now s)).
Proof.
  intros sha rate ops T min_strength limit now Hrate Hclock s.
  assert (Hall : strengths_in_range
                   (tracker_run sha (ops ++ [OpHotTrails min_strength limit now])
                      (Swarm.SwarmTracker_init rate))).
  { apply (tracker_run_keeps_range sha _ T); try done; constructor. }
  unfold tracker_run in Hall. rewrite foldl_app in Hall. simpl in Hall.
  split; [| split].
  - apply (tracker_run_keeps_range sha ops T); try done; try constructor.
    by apply clock_from_app in Hclock.
  - exact Hall.
  - by apply (hot_trails_come_from_trails _ _ _ _ (fun q => (0 <= q <= 1)%Q)).
Qed.

Lemma trail_strengths_stay_between_0_and_1_witness :
  Forall (fun h => (0 <= Swarm.hot_strength h <= 1)%Q)
    (fst (Swarm.get_hot_trails 0 10 600
            (tracker_run (fun data => data)
               [OpTrack "query" "docs" None 0; OpTrack "query" "docs" None 60;
                OpHotTrails (1 # 2) 10 120; OpTrack "add" "docs" (Some "x") 300]
               (Swarm.SwarmTracker_init (1 # 100))))).
Proof.
  refine (proj2 (proj2 (trail_strengths_stay_between_0_and_1 (fun data => data) (1 # 100)
                          _ 0%Q 0%Q 10 600%Q _ _))).
  - unfold Qle. simpl. lia.
  - simpl. unfold Qle. simpl. lia.
Defined.

(** ** swarm.py: evaporating twice is evaporating once *)
Section lazy_evaporation.
Implicit Types (s : Swarm.SwarmTracker) (t : Swarm.PheromoneTrail) (h : Swarm.HotTrail).








End lazy_evaporation.





Lemma od_keys_map_values {A B} (f : A -> B) (d : list (string * A)) :
  od_keys (map (fun kv => (fst kv, f (snd kv))) d) = od_keys d.
Proof. unfold od_keys. induction d as [|kv d IH]; simpl; [done | by rewrite IH]. Qed.

Lemma filter_all {A} (P : A -> Prop) `{!forall x, Decision (P x)} (l : list A) :
  Forall P l -> filter P l = l.
Proof.
  induction 1 as [|x l Hx Hl IH]; [done |].
  rewrite filter_cons. destruct (decide (P x)); [by rewrite IH | done].
Qed.

(** X9: with [min_strength <= 0] and a [limit] that is at least the number
    of trails, [get_hot_trails] returns every trail, each once: evaporation
    never takes a strength below 0. The call itself adds and removes no
    trail, never returns more entries than there are trails, and leaves the
    operation logs and the rate as they are. *)
Theorem get_hot_trails_can_return_every_trail :
  forall (min_strength : Q) (limit : Z) (now : Q) (s : Swarm.SwarmTracker),
    let result := fst (Swarm.get_hot_trails min_strength limit now s) in
    let s' := snd (Swarm.get_hot_trails min_strength limit now s) in
    od_keys (Swarm._trails s') = od_keys (Swarm._trails s)
    /\ Swarm._operation_patterns s' = Swarm._operation_patterns s
    /\ Swarm.evaporation_rate s' = Swarm.evaporation_rate s
    /\ (length result <= length (Swarm._trails s))%nat
    /\ ((min_strength <= 0)%Q -> Z.of_nat (length (Swarm._trails s)) <= limit ->
        result ≡ₚ map (fun kt => Swarm.hot_of (snd kt)) (Swarm._trails s')
        /\ length result = length (Swarm._trails s)).
Proof.
  intros min_strength limit now s result s'.
  set (hot := map (fun kt => Swarm.hot_of (snd kt))
                (filter (fun kt => Qgeb (Swarm.strength (snd kt)) min_strength = true)
                   (Swarm._trails s'))).
  assert (Hres : result = slice_to limit (Swarm.sort_hot hot)) by reflexivity.
  assert (Hlen' : length (Swarm._trails s') = length (Swarm._trails s)).
  { subst s'. simpl. by rewrite length_map. }
  split; [| split; [reflexivity | split; [reflexivity | split]]].
  - apply od_keys_map_values.
  - destruct (slice_to_firstn limit (Swarm.sort_hot hot)) as [n Hn].
    rewrite Hres, Hn, length_take, (Permutation_length (sort_hot_perm hot)).
    subst hot. rewrite length_map.
    pose proof (length_filter (fun kt => Qgeb (Swarm.strength (snd kt)) min_strength = true)
                  (Swarm._trails s')). lia.
  - intros Hmin Hlimit.
    assert (Hall : filter (fun kt => Qgeb (Swarm.strength (snd kt)) min_strength = true)
                     (Swarm._trails s') = Swarm._trails s').
    { apply filter_all. subst s'. simpl. apply Forall_fmap, Forall_forall.
      intros kt _. simpl. apply Qgeb_true.
      apply Qle_trans with 0%Q; [done | apply py_max_lower]. }
    assert (Hhot : hot = map (fun kt => Swarm.hot_of (snd kt)) (Swarm._trails s')).
    { subst hot. by rewrite Hall. }
    assert (Hwhole : result = Swarm.sort_hot hot).
    { rewrite Hres. destruct (slice_to_nonneg limit (Swarm.sort_hot hot)) as [-> _]; [lia |].
      apply firstn_all2. rewrite (Permutation_length (sort_hot_perm hot)), Hhot, length_map. lia. }
    rewrite Hwhole. split.
    + by rewrite sort_hot_perm, Hhot.
    + by rewrite (Permutation_length (sort_hot_perm hot)), Hhot, length_map.
Qed.

Lemma get_hot_trails_can_return_every_trail_witness :
  length (fst (Swarm.get_hot_trails 0 10 86400 three_trails)) = 3%nat.
Proof.
  refine (proj2 (proj2 (proj2 (proj2 (proj2
            (get_hot_trails_can_return_every_trail 0%Q 10 86400%Q three_trails))))
            _ _)).
  - apply Qle_refl.
  - by vm_compute.
Defined.

(** ** swarm.py: the summary of a collection *)
Section patterns_summary.
Implicit Types (w : list Swarm.Pattern) (counts : gmap string Z).

Lemma foldl_count_operation w counts (op : string) :
  default 0 (foldl Swarm.count_operation counts w !! op)
  = default 0 (counts !! op)
    + Z.of_nat (length (filter (fun p => Swarm.operation p = op) w)).
Proof.
  revert counts. induction w as [|p w IH]; intros counts; simpl; [lia |].
  rewrite IH, filter_cons. unfold Swarm.count_operation.
  destruct (decide (Swarm.operation p = op)) as [->|Hne].
  - rewrite lookup_insert_eq. simpl. lia.
  - by rewrite lookup_insert_ne.
Qed.

Lemma foldl_count_operation_keys w counts (op : string) :
  is_Some (foldl Swarm.count_operation counts w !! op)
  <-> is_Some (counts !! op) \/ exists p, p ∈ w /\ Swarm.operation p = op.
Proof.
  revert counts. induction w as [|p w IH]; intros counts; simpl.
  - split; [by left | intros [? | (p & Hp & _)]; [done | by apply elem_of_nil in Hp]].
  - rewrite IH. unfold Swarm.count_operation. split.
    + intros [Hsome | (p' & Hp' & Hop)].
      * destruct (decide (Swarm.operation p = op)) as [Heq|Hne].
        -- right. exists p. split; [by left | done].
        -- left. by rewrite lookup_insert_ne in Hsome.
      * right. exists p'. split; [by right | done].
    + intros [Hsome | (p' & Hp' & Hop)].
      * left. destruct (decide (Swarm.operation p = op)) as [->|Hne].
        -- rewrite lookup_insert_eq. by eexists.
        -- by rewrite lookup_insert_ne.
      * apply elem_of_cons in Hp' as [-> | Hp'].
        -- left. rewrite Hop, lookup_insert_eq. by eexists.
        -- right. by exists p'.
Qed.
End patterns_summary.

(** X10: for a collection that has been tracked, [get_collection_patterns]
    reports the length of the whole log as [total_operations], the last 10
    records as [patterns], and counts over the last 100 records only: an
    operation type is a key of [operation_counts] exactly when it occurs
    among them, with the number of its occurrences as value, and
    [recent_operations] is the number of them less than 3600 seconds old.
    For a collection without records the short form is returned. *)
Theorem get_collection_patterns_summarises_the_last_100 :
  forall (s : Swarm.SwarmTracker) (coll : string) (now : Q),
    let log := operation_log coll s in
    let window := slice_last 100 log in
    (log = [] -> Swarm.get_collection_patterns coll now s = Swarm.NoPatterns coll)
    /\ (log <> [] ->
        exists counts : gmap string Z,
          Swarm.get_collection_patterns coll now s
          = Swarm.PatternSummary coll (Z.of_nat (length log)) counts
              (Z.of_nat (length (filter (fun p => Qgtb 3600 (now - Swarm.timestamp p) = true)
                                   window)))
              (slice_last 10 log)
          /\ (forall op : string,
                default 0 (counts !! op)
                = Z.of_nat (length (filter (fun p => Swarm.operation p = op) window)))
          /\ (forall op : string,
                is_Some (counts !! op) <-> exists p, p ∈ window /\ Swarm.operation p = op)).
Proof.
  intros s coll now log window. unfold Swarm.get_collection_patterns.
  fold (operation_log coll s). fold log. split.
  - by intros ->.
  - intros Hlog. destruct log as [|p0 log0] eqn:Hl; [done |]. fold window.
    exists (foldl Swarm.count_operation ∅ window). split; [| split].
    + reflexivity.
    + intros op. rewrite foldl_count_operation, lookup_empty. simpl. lia.
    + intros op. rewrite foldl_count_operation_keys, lookup_empty. split.
      * intros [[? Hnone] | ?]; [done | done].
      * by right.
Qed.

Lemma get_collection_patterns_summarises_the_last_100_witness :
  exists counts,
    Swarm.get_collection_patterns "docs" 10 three_trails
    = Swarm.PatternSummary "docs" 3 counts 3 (operation_log "docs" three_trails)
    /\ counts !! "add" = Some 1.
Proof.
  destruct (proj2 (get_collection_patterns_summarises_the_last_100 three_trails "docs" 10%Q))
    as (counts & Heq & Hcount & Hkeys); [by vm_compute |].
  exists counts. split.
  - rewrite Heq. by vm_compute.
  - specialize (Hcount "add"). destruct (proj2 (Hkeys "add")) as [n Hn].
    + exists (Swarm.mkPattern 0 "add" "add:docs:"). split; [| done].
      vm_compute. right. left.
    + rewrite Hn in Hcount. simpl in Hcount. rewrite Hn. f_equal. rewrite Hcount. by vm_compute.
Defined.

(** ** entity_mapper.py: the references of a mapper resolve *)
Section mapper_consistency.
Implicit Types (m : EntityMapper.EntityRelationshipMapper).

Lemma attach_twice_lookup (rid s t k : string) (ents : gmap string EntityMapper.Entity)
    (e' : EntityMapper.Entity) :
  alter (EntityMapper.attach rid) t (alter (EntityMapper.attach rid) s ents) !! k = Some e' ->
  exists e,
    ents !! k = Some e
    /\ EntityMapper.entity_id e' = EntityMapper.entity_id e
    /\ EntityMapper.entity_type e' = EntityMapper.entity_type e
    /\ EntityMapper.properties e' = EntityMapper.properties e
    /\ (k <> s -> k <> t -> e' = e)
    /\ (k = s \/ k = t ->
        EntityMapper.relationships e' = EntityMapper.relationships e ∪ {[rid]})
    /\ EntityMapper.relationships e ⊆ EntityMapper.relationships e'
    /\ EntityMapper.relationships e' ⊆ EntityMapper.relationships e ∪ {[rid]}.
Proof.
  destruct (decide (k = t)) as [Ht|Ht], (decide (k = s)) as [Hs|Hs].
  - rewrite <- Ht, <- Hs, !lookup_alter_eq. destruct (ents !! k) as [e|]; [| done]. simpl.
    intros [= <-]. exists e. simpl. repeat split; try done; try set_solver.
  - rewrite <- Ht, lookup_alter_eq. rewrite lookup_alter_ne by done.
    destruct (ents !! k) as [e|]; [| done]. simpl.
    intros [= <-]. exists e. simpl. repeat split; try done; try set_solver.
  - rewrite lookup_alter_ne by done. rewrite <- Hs, lookup_alter_eq.
    destruct (ents !! k) as [e|]; [| done]. simpl.
    intros [= <-]. exists e. simpl. repeat split; try done; try set_solver.
  - rewrite !lookup_alter_ne by done. intros He. exists e'.
    repeat split; try done; try (intros [?|?]; congruence); set_solver.
Qed.

Lemma add_entity_consistent id ty props m :
  mapper_consistent m -> mapper_consistent (snd (EntityMapper.add_entity id ty props m)).
Proof.
  intros (Hent & Hrel & Hidx & Hpair). unfold mapper_consistent. simpl.
  split; [| split; [| split]].
  - intros k e. destruct (decide (id = k)) as [<-|Hne].
    + rewrite lookup_insert_eq. intros [= <-]. simpl. split; [done | set_solver].
    + rewrite lookup_insert_ne by done. apply Hent.
  - intros rid rel Hrid. destruct (Hrel rid rel Hrid) as (? & ? & ?).
    rewrite dom_insert_L. set_solver.
  - intros ty' ids. rewrite dom_insert_L. destruct (decide (ty = ty')) as [<-|Hne].
    + rewrite lookup_insert_eq. intros [= <-].
      destruct (EntityMapper._entity_index m !! ty) as [ids0|] eqn:E; simpl.
      * specialize (Hidx ty ids0 E). set_solver.
      * set_solver.
    + rewrite lookup_insert_ne by done. intros Hty. specialize (Hidx ty' ids Hty). set_solver.
  - apply Hpair.
Qed.

Lemma add_relationship_consistent rid s t ty props m :
  mapper_consistent m ->
  mapper_consistent (snd (EntityMapper.add_relationship rid s t ty props m)).
Proof.
  intros Hcons.
  destruct (decide (s ∈ dom (EntityMapper._entities m))) as [Hs|Hs];
    [| by rewrite add_relationship_missing by by left].
  destruct (decide (t ∈ dom (EntityMapper._entities m))) as [Ht|Ht];
    [| by rewrite add_relationship_missing by by right].
  rewrite add_relationship_present by done.
  destruct Hcons as (Hent & Hrel & Hidx & Hpair). unfold mapper_consistent. simpl.
  split; [| split; [| split]].
  - intros k e' He'. apply attach_twice_lookup in He' as (e & He & Hid & _ & _ & _ & _ & _ & Hsub).
    destruct (Hent k e He) as [Hk Hrels]. split; [congruence |].
    rewrite dom_insert_L. set_solver.
  - intros rid' rel. rewrite !dom_alter_L. destruct (decide (rid = rid')) as [<-|Hne].
    + rewrite lookup_insert_eq. by intros [= <-].
    + rewrite lookup_insert_ne by done. apply Hrel.
  - intros ty' ids. rewrite !dom_alter_L. apply Hidx.
  - intros st ids. rewrite dom_insert_L. destruct (decide ((s, t) = st)) as [<-|Hne].
    + rewrite lookup_insert_eq. intros [= <-].
      destruct (EntityMapper._relationship_index m !! (s, t)) as [ids0|] eqn:E; simpl.
      * specialize (Hpair (s, t) ids0 E). set_solver.
      * set_solver.
    + rewrite lookup_insert_ne by done. intros Hst. specialize (Hpair st ids Hst). set_solver.
Qed.

Lemma init_consistent : mapper_consistent EntityMapper.EntityRelationshipMapper_init.
Proof.
  unfold mapper_consistent. cbn [EntityMapper.EntityRelationshipMapper_init
    EntityMapper._entities EntityMapper._relationships EntityMapper._entity_index
    EntityMapper._relationship_index].
  split; [| split; [| split]]; intros ? ?; by rewrite lookup_empty.
Qed.

Lemma import_graph_consistent g m : mapper_consistent (EntityMapper.import_graph g m).
Proof.
  unfold EntityMapper.import_graph. cbv zeta.
  assert (H1 : forall l m0, mapper_consistent m0 ->
    mapper_consistent
      (foldl (fun m1 entity_data =>
                snd (EntityMapper.add_entity (EntityMapper.data_id entity_data)
                       (EntityMapper.data_type entity_data)
                       (EntityMapper.data_properties entity_data) m1)) m0 l)).
  { induction l as [|d l IH]; intros m0 H0; [done |]. simpl.
    apply IH. by apply add_entity_consistent. }
  assert (H2 : forall l m0, mapper_consistent m0 ->
    mapper_consistent
      (foldl (fun m1 rel_data =>
                snd (EntityMapper.add_relationship (EntityMapper.rdata_id rel_data)
                       (EntityMapper.rdata_source rel_data) (EntityMapper.rdata_target rel_data)
                       (EntityMapper.rdata_type rel_data)
                       (EntityMapper.rdata_properties rel_data) m1)) m0 l)).
  { induction l as [|d l IH]; intros m0 H0; [done |]. simpl.
    apply IH. by apply add_relationship_consistent. }
  apply H2, H1, init_consistent.
Qed.

Lemma mapper_run_consistent (ops : list mapper_op) m :
  mapper_consistent m -> mapper_consistent (mapper_run ops m).
Proof.
  revert m. induction ops as [|o ops IH]; intros m Hm; [done |].
  unfold mapper_run in *. simpl. apply IH. destruct o; simpl.
  - by apply add_entity_consistent.
  - by apply add_relationship_consistent.
  - apply import_graph_consistent.
Qed.

Lemma getitems_total {A} (d : gmap string A) (ids : list string) :
  Forall (fun id => id ∈ dom d) ids -> exists l, EntityMapper.getitems d ids = Return l.
Proof.
  induction 1 as [|id ids Hid Hall [l IH]]; simpl; [by eexists |].
  apply elem_of_dom in Hid as [a ->]. rewrite IH. by eexists.
Qed.

Lemma connect_loop_total m entity_id type_filter rel_ids connected :
  Forall (fun rid => rid ∈ dom (EntityMapper._relationships m)) rel_ids ->
  exists l, EntityMapper.connect_loop m entity_id type_filter rel_ids connected = Return l.
Proof.
  intros Hall. revert connected.
  induction Hall as [|rid rel_ids Hrid Hall IH]; intros connected; simpl; [by eexists |].
  apply elem_of_dom in Hrid as [rel ->].
  destruct (_ && _); [apply IH |].
  destruct (EntityMapper._entities m !! _); apply IH.
Qed.
End mapper_consistency.

Section no_key_error.
Variable set_iter : gset string -> list string.
Hypothesis set_iter_perm : forall X : gset string, set_iter X ≡ₚ elements X.
Implicit Types (m : EntityMapper.EntityRelationshipMapper).

Lemma set_iter_elem (X : gset string) (x : string) : x ∈ set_iter X <-> x ∈ X.
Proof. by rewrite set_iter_perm, elem_of_elements. Qed.

Lemma set_iter_Forall (X Y : gset string) : X ⊆ Y -> Forall (fun x => x ∈ Y) (set_iter X).
Proof. intros Hsub. apply Forall_forall. intros x Hx. apply Hsub. by apply set_iter_elem. Qed.

Lemma get_connected_total m entity_id type_filter :
  mapper_consistent m ->
  exists l, EntityMapper.get_connected_entities set_iter entity_id type_filter m = Return l.
Proof.
  intros (Hent & _). unfold EntityMapper.get_connected_entities.
  destruct (EntityMapper._entities m !! entity_id) as [e|] eqn:He; [| by eexists].
  apply connect_loop_total, set_iter_Forall. by destruct (Hent _ _ He).
Qed.

Lemma bfs_never_raises m (fuel : nat) target_id max_depth visited queue result :
  mapper_consistent m ->
  EntityMapper.bfs set_iter fuel m target_id max_depth visited queue = Some result ->
  exists path, result = Return path.
Proof.
  intros Hm. revert visited queue. induction fuel as [|fuel IH]; intros visited queue; [done |].
  simpl. destruct queue as [|[current_id path] queue]; [intros [= <-]; by eexists |].
  destruct (_ >=? _); [apply IH |].
  destruct (bool_decide _); [apply IH |].
  destruct (get_connected_total m current_id None Hm) as [connected ->].
  destruct (EntityMapper.scan_connected _ _ _ _ _); [intros [= <-]; by eexists | apply IH].
Qed.
End no_key_error.

(** X11: whatever sequence of [add_entity], [add_relationship] and
    [import_graph] calls built a mapper, its references resolve, and
    therefore the lookups by subscript in [get_connected_entities],
    [get_entities_by_type], [get_relationships_between] and [find_path]
    never raise [KeyError]. *)
Theorem mapper_lookups_never_raise :
  forall (set_iter : gset string -> list string),
    (forall X : gset string, set_iter X ≡ₚ elements X) ->
    forall ops : list mapper_op,
      let m := mapper_run ops EntityMapper.EntityRelationshipMapper_init in
      mapper_consistent m
      /\ (forall entity_id type_filter,
            exists l,
              EntityMapper.get_connected_entities set_iter entity_id type_filter m = Return l)
      /\ (forall entity_type,
            exists l, EntityMapper.get_entities_by_type set_iter entity_type m = Return l)
      /\ (forall source_id target_id,
            exists l,
              EntityMapper.get_relationships_between set_iter source_id target_id m = Return l)
      /\ (forall fuel source_id target_id max_depth result,
            EntityMapper.find_path set_iter fuel source_id target_id max_depth m = Some result ->
            exists path, result = Return path).
Proof.
  intros set_iter Hperm ops m.
  assert (Hm : mapper_consistent m) by apply mapper_run_consistent, init_consistent.
  split; [done |]. split; [| split; [| split]].
  - intros entity_id type_filter. by apply get_connected_total.
  - intros entity_type. unfold EntityMapper.get_entities_by_type.
    apply getitems_total, (set_iter_Forall set_iter Hperm).
    destruct Hm as (_ & _ & Hidx & _).
    destruct (EntityMapper._entity_index m !! entity_type) as [ids|] eqn:E; simpl.
    + by apply (Hidx entity_type).
    + apply empty_subseteq.
  - intros source_id target_id. unfold EntityMapper.get_relationships_between.
    apply getitems_total, (set_iter_Forall set_iter Hperm).
    destruct Hm as (_ & _ & _ & Hpair).
    destruct (EntityMapper._relationship_index m !! (source_id, target_id)) as [ids|] eqn:E;
      simpl.
    + by apply (Hpair (source_id, target_id)).
    + apply empty_subseteq.
  - intros fuel source_id target_id max_depth result. unfold EntityMapper.find_path.
    destruct (_ || _); [intros [= <-]; by eexists |].
    destruct (String.eqb _ _); [intros [= <-]; by eexists |].
    by apply bfs_never_raises.
Qed.

Lemma mapper_lookups_never_raise_witness :
  exists l,
    EntityMapper.get_connected_entities elements "B" None
      (mapper_run [OpAddEntity "A" "User" None; OpAddEntity "B" "User" None;
                   OpAddRelationship "r" "A" "B" "FOLLOWS" None;
                   OpAddEntity "A" "Bot" None]
         EntityMapper.EntityRelationshipMapper_init)
    = Return l.
Proof.
  exact (proj1 (proj2 (mapper_lookups_never_raise elements (fun X => reflexivity _)
                         [OpAddEntity "A" "User" None; OpAddEntity "B" "User" None;
                          OpAddRelationship "r" "A" "B" "FOLLOWS" None;
                          OpAddEntity "A" "Bot" None])) "B" None).
Defined.

(** ** entity_mapper.py: what a found path is *)
Section fresh_ids.
Implicit Types (m : EntityMapper.EntityRelationshipMapper).

Lemma add_entity_adjacency id ty props m :
  adjacency_sound m -> adjacency_sound (snd (EntityMapper.add_entity id ty props m)).
Proof.
  intros Hadj k e rid. simpl. destruct (decide (id = k)) as [<-|Hne].
  - rewrite lookup_insert_eq. intros [= <-]. simpl. by intros ?%elem_of_empty.
  - rewrite lookup_insert_ne by done. apply Hadj.
Qed.

Lemma add_relationship_adjacency rid s t ty props m :
  mapper_consistent m -> adjacency_sound m ->
  rid ∉ dom (EntityMapper._relationships m) ->
  adjacency_sound (snd (EntityMapper.add_relationship rid s t ty props m)).
Proof.
  intros Hcons Hadj Hfresh.
  destruct (decide (s ∈ dom (EntityMapper._entities m))) as [Hs|Hs];
    [| by rewrite add_relationship_missing by by left].
  destruct (decide (t ∈ dom (EntityMapper._entities m))) as [Ht|Ht];
    [| by rewrite add_relationship_missing by by right].
  rewrite add_relationship_present by done.
  intros k e' rid'. simpl. intros He' Hrid'.
  apply attach_twice_lookup in He' as (e & He & _ & _ & _ & Hsame & Hst & _ & Hsub).
  destruct Hcons as (Hent & _). destruct (Hent k e He) as [_ Hdom].
  destruct (decide (rid = rid')) as [<-|Hne].
  - rewrite lookup_insert_eq. eexists. split; [done |]. simpl.
    destruct (decide (k = s)) as [->|Hks]; [by left |].
    destruct (decide (k = t)) as [->|Hkt]; [by right |].
    rewrite (Hsame Hks Hkt) in Hrid'. destruct Hfresh. by apply Hdom.
  - rewrite lookup_insert_ne by done. apply (Hadj k e); [done |].
    apply Hsub in Hrid'. set_solver.
Qed.

Lemma add_entity_pair_index id ty props m :
  pair_index_exact m -> pair_index_exact (snd (EntityMapper.add_entity id ty props m)).
Proof. intros Hpair s t rid. simpl. apply Hpair. Qed.

Lemma add_relationship_pair_index rid s t ty props m :
  pair_index_exact m ->
  rid ∉ dom (EntityMapper._relationships m) ->
  pair_index_exact (snd (EntityMapper.add_relationship rid s t ty props m)).
Proof.
  intros Hpair Hfresh.
  destruct (decide (s ∈ dom (EntityMapper._entities m))) as [Hs|Hs];
    [| by rewrite add_relationship_missing by by left].
  destruct (decide (t ∈ dom (EntityMapper._entities m))) as [Ht|Ht];
    [| by rewrite add_relationship_missing by by right].
  rewrite add_relationship_present by done.
  intros s' t' rid'. simpl. specialize (Hpair s' t' rid').
  assert (Hold : forall rel, EntityMapper._relationships m !! rid' = Some rel -> rid <> rid').
  { intros rel Hrel ->. apply Hfresh, elem_of_dom. by eexists. }
  destruct (decide ((s, t) = (s', t'))) as [[= <- <-]|Hne].
  - rewrite lookup_insert_eq. simpl. rewrite elem_of_union, elem_of_singleton, Hpair. split.
    + intros [(rel & Hrel & ? & ?) | ->].
      * exists rel. by rewrite lookup_insert_ne by by eapply Hold.
      * rewrite lookup_insert_eq. by eexists.
    + intros (rel & Hrel & Hsrc & Htgt). destruct (decide (rid = rid')) as [<-|Hrid].
      * by right.
      * left. rewrite lookup_insert_ne in Hrel by done. by exists rel.
  - rewrite lookup_insert_ne by done. rewrite Hpair. split.
    + intros (rel & Hrel & ? & ?). exists rel. by rewrite lookup_insert_ne by by eapply Hold.
    + intros (rel & Hrel & Hsrc & Htgt). destruct (decide (rid = rid')) as [<-|Hrid].
      * rewrite lookup_insert_eq in Hrel. injection Hrel as <-. simpl in *. congruence.
      * rewrite lookup_insert_ne in Hrel by done. by exists rel.
Qed.

(** A mapper built without reusing a relationship id is well linked. *)
Lemma fresh_run_linked (ops : list mapper_op) m :
  mapper_consistent m -> adjacency_sound m -> pair_index_exact m ->
  fresh_relationship_ids ops m ->
  mapper_consistent (mapper_run ops m)
  /\ adjacency_sound (mapper_run ops m)
  /\ pair_index_exact (mapper_run ops m).
Proof.
  revert m. induction ops as [|o ops IH]; intros m Hcons Hadj Hpair Hfresh; [done |].
  destruct Hfresh as [Ho Hfresh]. unfold mapper_run in *. simpl.
  destruct o as [id ty props | rid s t ty props | g]; [| | done]; simpl in *.
  - apply IH; [by apply add_entity_consistent | by apply add_entity_adjacency
               | by apply add_entity_pair_index | done].
  - apply IH; [by apply add_relationship_consistent | by apply add_relationship_adjacency
               | by apply add_relationship_pair_index | done].
Qed.

Lemma init_linked :
  adjacency_sound EntityMapper.EntityRelationshipMapper_init
  /\ pair_index_exact EntityMapper.EntityRelationshipMapper_init.
Proof.
  split.
  - intros k e rid. simpl. by rewrite lookup_empty.
  - intros s t rid. simpl. rewrite lookup_empty. simpl. split.
    + by intros ?%elem_of_empty.
    + intros (rel & Hrel & _). by rewrite lookup_empty in Hrel.
Qed.
End fresh_ids.

Section path_soundness.
Variable set_iter : gset string -> list string.
Hypothesis set_iter_perm : forall X : gset string, set_iter X ≡ₚ elements X.
Variable m : EntityMapper.EntityRelationshipMapper.
Hypothesis Hcons : mapper_consistent m.
Hypothesis Hadj : adjacency_sound m.

Lemma is_walk_snoc (u v w rid : string) (hops : list (string * string)) :
  is_walk m u hops v -> is_hop m v rid w -> is_walk m u (hops ++ [(v, rid)]) w.
Proof.
  revert u. induction hops as [|[x r] hops IH]; intros u; simpl.
  - intros <- Hhop. split; [done |]. by exists w.
  - intros [-> (w' & Hhop' & Hwalk)] Hhop. split; [done |]. exists w'. split; [done |].
    by apply IH.
Qed.

Lemma connect_loop_hops (cur : string) (ecur : EntityMapper.Entity) type_filter rel_ids
    connected result :
  EntityMapper._entities m !! cur = Some ecur ->
  Forall (fun rid => rid ∈ EntityMapper.relationships ecur) rel_ids ->
  Forall (fun er => is_hop m cur (EntityMapper.relationship_id (snd er))
                      (EntityMapper.entity_id (fst er))) connected ->
  EntityMapper.connect_loop m cur type_filter rel_ids connected = Return result ->
  Forall (fun er => is_hop m cur (EntityMapper.relationship_id (snd er))
                      (EntityMapper.entity_id (fst er))) result.
Proof.
  intros Hcur Hids. revert connected.
  induction Hids as [|rid rel_ids Hrid Hids IH]; intros connected Hconn; simpl.
  - by intros [= <-].
  - destruct (EntityMapper._relationships m !! rid) as [rel|] eqn:Hrel; [| done].
    destruct (_ && _); [by apply IH |].
    match goal with
    | |- context [EntityMapper._entities m !! ?x] =>
        destruct (EntityMapper._entities m !! x) as [other|] eqn:Hother; [| by apply IH]
    end.
    apply IH. apply Forall_app. split; [done |]. repeat constructor. simpl.
    destruct Hcons as (Hent & Hrels & _).
    destruct (Hent _ _ Hother) as [Hoid _]. destruct (Hrels _ _ Hrel) as (Hrid' & _ & _).
    destruct (Hadj cur ecur rid Hcur Hrid) as (rel' & Hrel' & Htouch).
    rewrite Hrel in Hrel'. injection Hrel' as <-.
    exists rel. rewrite Hrid', Hoid. split; [done |].
    split; [| apply elem_of_dom; by eexists].
    destruct (String.eqb_spec (EntityMapper.source_id rel) cur) as [Hsrc|Hsrc].
    + by left.
    + right. by destruct Htouch.
Qed.

Lemma get_connected_hops (cur : string) result :
  EntityMapper.get_connected_entities set_iter cur None m = Return result ->
  Forall (fun er => is_hop m cur (EntityMapper.relationship_id (snd er))
                      (EntityMapper.entity_id (fst er))) result.
Proof.
  unfold EntityMapper.get_connected_entities.
  destruct (EntityMapper._entities m !! cur) as [ecur|] eqn:Hcur; [| by intros [= <-]].
  apply (connect_loop_hops cur ecur); [done | | done].
  apply Forall_forall. intros rid Hrid. by apply (set_iter_elem set_iter set_iter_perm).
Qed.

Lemma scan_connected_walks (source_id target_id cur : string) path connected queue :
  is_walk m source_id path cur ->
  Forall (fun er => is_hop m cur (EntityMapper.relationship_id (snd er))
                      (EntityMapper.entity_id (fst er))) connected ->
  Forall (fun ip => is_walk m source_id (snd ip) (fst ip)) queue ->
  match EntityMapper.scan_connected target_id cur path connected queue with
  | inl found =>
      exists rid, found = (path ++ [(cur, rid)]) ++ [(target_id, "")]
                  /\ is_walk m source_id (path ++ [(cur, rid)]) target_id
  | inr queue' => Forall (fun ip => is_walk m source_id (snd ip) (fst ip)) queue'
  end.
Proof.
  intros Hwalk Hconn. revert queue.
  induction Hconn as [|[e rel] connected Hhop Hconn IH]; intros queue Hq; simpl; [done |].
  simpl in Hhop.
  destruct (String.eqb_spec (EntityMapper.entity_id e) target_id) as [Heq|Hne].
  - exists (EntityMapper.relationship_id rel). rewrite Heq. split; [done |].
    rewrite <- Heq. by apply is_walk_snoc.
  - apply IH. apply Forall_app. split; [done |]. repeat constructor. simpl.
    by apply is_walk_snoc.
Qed.

Lemma bfs_sound (source_id target_id : string) (max_depth : Z) (fuel : nat) visited queue path :
  Forall (fun ip => is_walk m source_id (snd ip) (fst ip)) queue ->
  EntityMapper.bfs set_iter fuel m target_id max_depth visited queue
  = Some (Return (Some path)) ->
  exists hops,
    path = hops ++ [(target_id, "")]
    /\ is_walk m source_id hops target_id
    /\ 1 <= Z.of_nat (length hops) <= max_depth.
Proof.
  revert visited queue. induction fuel as [|fuel IH]; intros visited queue Hq; [done |].
  simpl. destruct queue as [|[cur p] queue]; [done |].
  apply Forall_cons in Hq as [Hp Hq]. simpl in Hp.
  destruct (Z.geb_spec (Z.of_nat (length p)) max_depth) as [|Hdepth]; [by apply IH |].
  destruct (bool_decide _); [by apply IH |].
  destruct (EntityMapper.get_connected_entities set_iter cur None m) as [connected|]
    eqn:Hconn; [| done].
  pose proof (scan_connected_walks source_id target_id cur p connected queue Hp
                (get_connected_hops cur connected Hconn) Hq) as Hscan.
  destruct (EntityMapper.scan_connected target_id cur p connected queue) as [found|queue'].
  - intros [= <-]. destruct Hscan as (rid & -> & Hwalk).
    exists (p ++ [(cur, rid)]). split; [done |]. split; [done |].
    rewrite length_app. simpl. lia.
  - by apply IH.
Qed.
End path_soundness.

(** X12: on a mapper built by [add_entity] and [add_relationship] calls
    that never reuse a relationship id, a path that [find_path] returns for
    two different entities is a real one: it starts at the source, every
    pair in it names an entity and a relationship that has this entity at
    one end and the next entity of the path at the other, it ends with the
    target paired with the empty string, and it has between 1 and
    [max_depth] hops. In particular nothing is found with
    [max_depth <= 0]. *)
Theorem find_path_returns_real_paths :
  forall (set_iter : gset string -> list string),
    (forall X : gset string, set_iter X ≡ₚ elements X) ->
    forall (ops : list mapper_op) (fuel : nat) (source_id target_id : string) (max_depth : Z)
           (path : list (string * string)),
      fresh_relationship_ids ops EntityMapper.EntityRelationshipMapper_init ->
      let m := mapper_run ops EntityMapper.EntityRelationshipMapper_init in
      source_id <> target_id ->
      EntityMapper.find_path set_iter fuel source_id target_id max_depth m
      = Some (Return (Some path)) ->
      exists hops,
        path = hops ++ [(target_id, "")]
        /\ is_walk m source_id hops target_id
        /\ 1 <= Z.of_nat (length hops) <= max_depth.
Proof.
  intros set_iter Hperm ops fuel source_id target_id max_depth path Hfresh m Hne.
  destruct (fresh_run_linked ops EntityMapper.EntityRelationshipMapper_init)
    as (Hcons & Hadj & _); [apply init_consistent | apply init_linked | apply init_linked
                            | done |].
  fold m in Hcons, Hadj.
  unfold EntityMapper.find_path.
  destruct (_ || _); [done |].
  apply String.eqb_neq in Hne. rewrite Hne.
  apply (bfs_sound set_iter Hperm m Hcons Hadj source_id).
  repeat constructor.
Qed.

Lemma find_path_returns_real_paths_witness :
  exists hops,
    [("A", "r1"); ("B", "r2"); ("C", "")] = hops ++ [("C", "")]
    /\ is_walk
         (mapper_run [OpAddEntity "A" "User" None; OpAddEntity "B" "User" None;
                      OpAddEntity "C" "User" None;
                      OpAddRelationship "r1" "A" "B" "FOLLOWS" None;
                      OpAddRelationship "r2" "B" "C" "FOLLOWS" None]
            EntityMapper.EntityRelationshipMapper_init)
         "A" hops "C"
    /\ 1 <= Z.of_nat (length hops) <= 5.
Proof.
  refine (find_path_returns_real_paths elements (fun X => reflexivity _)
            [OpAddEntity "A" "User" None; OpAddEntity "B" "User" None;
             OpAddEntity "C" "User" None;
             OpAddRelationship "r1" "A" "B" "FOLLOWS" None;
             OpAddRelationship "r2" "B" "C" "FOLLOWS" None]
            2%nat "A" "C" 5 _ _ _ _).
  - simpl. repeat split; done.
  - discriminate.
  - by vm_compute.
Defined.

(** ** entity_mapper.py: entities, types and pairs *)
Section mapper_queries.
Variable set_iter : gset string -> list string.
Hypothesis set_iter_perm : forall X : gset string, set_iter X ≡ₚ elements X.
Implicit Types (m : EntityMapper.EntityRelationshipMapper).

Lemma set_iter_empty : set_iter ∅ = [].
Proof. apply Permutation_nil_r. by rewrite set_iter_perm, elements_empty. Qed.

Lemma getitems_elem {A} (d : gmap string A) (ids : list string) (l : list A) (a : A) :
  EntityMapper.getitems d ids = Return l ->
  a ∈ l <-> exists id, id ∈ ids /\ d !! id = Some a.
Proof.
  revert l. induction ids as [|id ids IH]; intros l; simpl.
  - intros [= <-]. split; [by intros ?%elem_of_nil | intros (? & ?%elem_of_nil & _); done].
  - destruct (d !! id) as [a0|] eqn:Hid; [| done].
    destruct (EntityMapper.getitems d ids) as [l0|]; [| done].
    intros [= <-]. rewrite elem_of_cons, (IH l0 eq_refl). split.
    + intros [-> | (id' & Hin & Hl)].
      * exists id. split; [by left | done].
      * exists id'. split; [by right | done].
    + intros (id' & Hin & Hl). apply elem_of_cons in Hin as [-> | Hin].
      * left. congruence.
      * right. by exists id'.
Qed.

Lemma getitems_length {A} (d : gmap string A) (ids : list string) (l : list A) :
  EntityMapper.getitems d ids = Return l -> length l = length ids.
Proof.
  revert l. induction ids as [|id ids IH]; intros l; simpl; [by intros [= <-] |].
  destruct (d !! id); [| done]. destruct (EntityMapper.getitems d ids) as [l0|]; [| done].
  intros [= <-]. simpl. by rewrite (IH l0).
Qed.
End mapper_queries.

(** X13: [add_entity] stores a new record under the id: [get_entity] then
    returns it with an empty relationship set, also when the id had
    relationships before, while the relationships themselves stay in the
    relationship map and the other entities are untouched. Right after the
    call the entity has no connected entities, and [find_path] from it to
    any other id finds nothing. *)
Theorem add_entity_starts_without_relationships :
  forall (set_iter : gset string -> list string),
    (forall X : gset string, set_iter X ≡ₚ elements X) ->
    forall (m : EntityMapper.EntityRelationshipMapper) (id ty : string)
           (props : option (list (string * json))),
      let m' := snd (EntityMapper.add_entity id ty props m) in
      EntityMapper.get_entity id m'
      = Some (EntityMapper.mkEntity id ty (EntityMapper.props_or_empty props) ∅)
      /\ fst (EntityMapper.add_entity id ty props m)
         = EntityMapper.mkEntity id ty (EntityMapper.props_or_empty props) ∅
      /\ (forall k, k <> id -> EntityMapper.get_entity k m' = EntityMapper.get_entity k m)
      /\ EntityMapper._relationships m' = EntityMapper._relationships m
      /\ (forall type_filter,
            EntityMapper.get_connected_entities set_iter id type_filter m' = Return [])
      /\ (forall (fuel : nat) (target_id : string) (max_depth : Z),
            target_id <> id -> (2 <= fuel)%nat ->
            EntityMapper.find_path set_iter fuel id target_id max_depth m'
            = Some (Return None)).
Proof.
  intros set_iter Hperm m id ty props m'.
  assert (Hget : EntityMapper._entities m' !! id
                 = Some (EntityMapper.mkEntity id ty (EntityMapper.props_or_empty props) ∅)).
  { subst m'. simpl. by rewrite lookup_insert_eq. }
  assert (Hconn : forall type_filter,
            EntityMapper.get_connected_entities set_iter id type_filter m' = Return []).
  { intros type_filter. unfold EntityMapper.get_connected_entities. rewrite Hget. simpl.
    by rewrite (set_iter_empty set_iter Hperm). }
  split; [done |]. split; [done |]. split; [| split; [done | split; [done |]]].
  - intros k Hk. subst m'. unfold EntityMapper.get_entity. simpl.
    by rewrite lookup_insert_ne.
  - intros fuel target_id max_depth Hne Hfuel. unfold EntityMapper.find_path.
    destruct (_ || _); [done |].
    assert (E : String.eqb id target_id = false) by (apply String.eqb_neq; congruence).
    rewrite E. destruct fuel as [|[|fuel]]; [lia | lia |].
    cbn [EntityMapper.bfs]. destruct (_ >=? _); [done |].
    rewrite bool_decide_eq_false_2 by apply not_elem_of_empty.
    by rewrite Hconn.
Qed.

Lemma add_entity_starts_without_relationships_witness :
  EntityMapper.find_path elements 2 "A" "B" 5
    (mapper_run [OpAddEntity "A" "User" None; OpAddEntity "B" "User" None;
                 OpAddRelationship "r" "A" "B" "FOLLOWS" None;
                 OpAddEntity "A" "User" None]
       EntityMapper.EntityRelationshipMapper_init)
  = Some (Return None).
Proof.
  refine (proj2 (proj2 (proj2 (proj2 (proj2
            (add_entity_starts_without_relationships elements (fun X => reflexivity _)
               (mapper_run [OpAddEntity "A" "User" None; OpAddEntity "B" "User" None;
                            OpAddRelationship "r" "A" "B" "FOLLOWS" None]
                  EntityMapper.EntityRelationshipMapper_init)
               "A" "User" None))))) 2%nat "B" 5 _ _); [discriminate | lia].
Defined.

(** X14: on a mapper built without reusing a relationship id,
    [get_relationships_between(s, t)] returns exactly the relationships
    stored with source [s] and target [t], as many as the pair's entry of
    the index holds; relationships from [t] to [s] are not among them. *)
Theorem get_relationships_between_is_directed_and_exact :
  forall (set_iter : gset string -> list string),
    (forall X : gset string, set_iter X ≡ₚ elements X) ->
    forall (ops : list mapper_op) (s t : string),
      fresh_relationship_ids ops EntityMapper.EntityRelationshipMapper_init ->
      let m := mapper_run ops EntityMapper.EntityRelationshipMapper_init in
      exists l,
        EntityMapper.get_relationships_between set_iter s t m = Return l
        /\ (forall rel,
              rel ∈ l
              <-> EntityMapper.get_relationship (EntityMapper.relationship_id rel) m = Some rel
                  /\ EntityMapper.source_id rel = s /\ EntityMapper.target_id rel = t)
        /\ length l
           = size (default ∅ (EntityMapper._relationship_index m !! (s, t))).
Proof.
  intros set_iter Hperm ops s t Hfresh m.
  destruct (fresh_run_linked ops EntityMapper.EntityRelationshipMapper_init)
    as (Hcons & _ & Hpair); [apply init_consistent | apply init_linked | apply init_linked
                             | done |].
  fold m in Hcons, Hpair.
  assert (Hl : exists l, EntityMapper.get_relationships_between set_iter s t m = Return l).
  { unfold EntityMapper.get_relationships_between.
    apply getitems_total, (set_iter_Forall set_iter Hperm).
    destruct Hcons as (_ & _ & _ & Hidx).
    destruct (EntityMapper._relationship_index m !! (s, t)) as [ids|] eqn:E; simpl.
    - by apply (Hidx (s, t)).
    - apply empty_subseteq. }
  destruct Hl as [l Hl].
  exists l. split; [done |]. unfold EntityMapper.get_relationships_between in Hl.
  split.
  - intros rel. rewrite (getitems_elem _ _ _ _ Hl). unfold EntityMapper.get_relationship.
    destruct Hcons as (_ & Hrels & _). split.
    + intros (rid & Hin & Hrel). apply (set_iter_elem set_iter Hperm) in Hin.
      apply Hpair in Hin as (rel' & Hrel' & Hsrc & Htgt).
      rewrite Hrel in Hrel'. injection Hrel' as <-.
      destruct (Hrels _ _ Hrel) as [-> _]. done.
    + intros (Hrel & Hsrc & Htgt). exists (EntityMapper.relationship_id rel).
      split; [| done]. apply (set_iter_elem set_iter Hperm), Hpair. by exists rel.
  - rewrite (getitems_length _ _ _ Hl). by rewrite (Permutation_length (Hperm _)).
Qed.

Lemma get_relationships_between_is_directed_and_exact_witness :
  let m := mapper_run [OpAddEntity "A" "User" None; OpAddEntity "B" "User" None;
                       OpAddRelationship "r1" "A" "B" "FOLLOWS" None;
                       OpAddRelationship "r2" "B" "A" "FOLLOWS" None;
                       OpAddRelationship "r3" "A" "B" "BLOCKS" None]
             EntityMapper.EntityRelationshipMapper_init in
  exists l,
    EntityMapper.get_relationships_between elements "A" "B" m = Return l
    /\ (forall rel,
          rel ∈ l
          <-> EntityMapper.get_relationship (EntityMapper.relationship_id rel) m = Some rel
              /\ EntityMapper.source_id rel = "A" /\ EntityMapper.target_id rel = "B")
    /\ length l = size (default ∅ (EntityMapper._relationship_index m !! ("A", "B"))).
Proof.
  refine (get_relationships_between_is_directed_and_exact elements (fun X => reflexivity _)
            [OpAddEntity "A" "User" None; OpAddEntity "B" "User" None;
             OpAddRelationship "r1" "A" "B" "FOLLOWS" None;
             OpAddRelationship "r2" "B" "A" "FOLLOWS" None;
             OpAddRelationship "r3" "A" "B" "BLOCKS" None] "A" "B" _).
  simpl. repeat split; done.
Defined.

(** X15: [get_entities_by_type] reads the type index, to which
    [add_entity] only ever adds. After [add_entity(id, ty)] the new entity
    is listed under [ty], and it is also listed under every type that the
    id was registered with before, although its type is now [ty]. *)
Theorem get_entities_by_type_lists_an_entity_under_its_earlier_types :
  forall (set_iter : gset string -> list string),
    (forall X : gset string, set_iter X ≡ₚ elements X) ->
    forall (ops : list mapper_op) (id ty : string) (props : option (list (string * json))),
      let m := mapper_run ops EntityMapper.EntityRelationshipMapper_init in
      let e := fst (EntityMapper.add_entity id ty props m) in
      let m' := snd (EntityMapper.add_entity id ty props m) in
      EntityMapper.entity_type e = ty
      /\ (exists l, EntityMapper.get_entities_by_type set_iter ty m' = Return l /\ e ∈ l)
      /\ (forall ty',
            id ∈ default ∅ (EntityMapper._entity_index m !! ty') ->
            exists l, EntityMapper.get_entities_by_type set_iter ty' m' = Return l /\ e ∈ l).
Proof.
  intros set_iter Hperm ops id ty props m e m'.
  assert (Hm' : mapper_consistent m').
  { apply add_entity_consistent, mapper_run_consistent, init_consistent. }
  assert (Hlist : forall ty',
            id ∈ default ∅ (EntityMapper._entity_index m' !! ty') ->
            exists l, EntityMapper.get_entities_by_type set_iter ty' m' = Return l /\ e ∈ l).
  { intros ty' Hin.
    assert (Hl : exists l, EntityMapper.get_entities_by_type set_iter ty' m' = Return l).
    { unfold EntityMapper.get_entities_by_type.
      apply getitems_total, (set_iter_Forall set_iter Hperm).
      destruct Hm' as (_ & _ & Hidx & _).
      destruct (EntityMapper._entity_index m' !! ty') as [ids|] eqn:E; simpl.
      - by apply (Hidx ty').
      - apply empty_subseteq. }
    destruct Hl as [l Hl]. exists l. split; [done |].
    unfold EntityMapper.get_entities_by_type in Hl.
    apply (getitems_elem _ _ _ _ Hl). exists id.
    split; [by apply (set_iter_elem set_iter Hperm) |].
    subst m' e. simpl. by rewrite lookup_insert_eq. }
  split; [done |]. split.
  - apply Hlist. subst m'. simpl. rewrite lookup_insert_eq. simpl. set_solver.
  - intros ty' Hin. apply Hlist. subst m'. simpl.
    destruct (decide (ty = ty')) as [<-|Hne].
    + rewrite lookup_insert_eq. simpl. set_solver.
    + by rewrite lookup_insert_ne.
Qed.

Lemma get_entities_by_type_lists_an_entity_under_its_earlier_types_witness :
  exists l,
    EntityMapper.get_entities_by_type elements "User"
      (snd (EntityMapper.add_entity "A" "Bot" None
              (mapper_run [OpAddEntity "A" "User" None]
                 EntityMapper.EntityRelationshipMapper_init)))
    = Return l
    /\ fst (EntityMapper.add_entity "A" "Bot" None
              (mapper_run [OpAddEntity "A" "User" None]
                 EntityMapper.EntityRelationshipMapper_init)) ∈ l.
Proof.
  refine (proj2 (proj2 (get_entities_by_type_lists_an_entity_under_its_earlier_types
                          elements (fun X => reflexivity _) [OpAddEntity "A" "User" None]
                          "A" "Bot" None)) "User" _).
  by vm_compute; set_solver.
Defined.

(** ** server.py: what the path tool reports *)

Lemma scan_connected_found (target_id cur : string) path connected queue found :
  EntityMapper.scan_connected target_id cur path connected queue = inl found ->
  exists rid, found = (path ++ [(cur, rid)]) ++ [(target_id, "")].
Proof.
  revert queue. induction connected as [|[e rel] connected IH]; intros queue; simpl; [done |].
  destruct (String.eqb_spec (EntityMapper.entity_id e) target_id) as [Heq|Hne].
  - intros [= <-]. exists (EntityMapper.relationship_id rel). by rewrite Heq.
  - apply IH.
Qed.

Lemma bfs_found_shape (set_iter : gset string -> list string) (fuel : nat)
    (m : EntityMapper.EntityRelationshipMapper) (target_id : string) (max_depth : Z)
    visited queue path :
  EntityMapper.bfs set_iter fuel m target_id max_depth visited queue
  = Some (Return (Some path)) ->
  exists hops cur rid, path = (hops ++ [(cur, rid)]) ++ [(target_id, "")].
Proof.
  revert visited queue. induction fuel as [|fuel IH]; intros visited queue; [done |].
  simpl. destruct queue as [|[cur p] queue]; [done |].
  destruct (_ >=? _); [apply IH |].
  destruct (bool_decide _); [apply IH |].
  destruct (EntityMapper.get_connected_entities set_iter cur None m) as [connected|]; [| done].
  destruct (EntityMapper.scan_connected target_id cur p connected queue) as [found|queue']
    eqn:Hscan; [| apply IH].
  intros [= <-]. apply scan_connected_found in Hscan as [rid ->]. by exists p, cur, rid.
Qed.

(** X16: the path tool tests the path for truth, so the empty path that
    [find_path] returns from an entity to itself is reported as not found,
    like a missing endpoint. A path that is reported has at least two
    pairs, the last of which is the target with the empty string, its
    [length] counts the pairs (one more than the hops), and source and
    target differ. *)
Theorem path_tool_reports_no_path_from_an_entity_to_itself :
  forall (set_iter : gset string -> list string) (fuel : nat) (max_depth : Z)
         (mapper : EntityMapper.EntityRelationshipMapper),
    (forall entity_id,
       entity_id ∈ dom (EntityMapper._entities mapper) ->
       EntityMapper.find_path set_iter fuel entity_id entity_id max_depth mapper
       = Some (Return (Some []))
       /\ chroma_find_entity_path set_iter fuel entity_id entity_id max_depth mapper
          = Some (Return PathNotFound))
    /\ (forall source_id target_id,
          source_id ∉ dom (EntityMapper._entities mapper)
          \/ target_id ∉ dom (EntityMapper._entities mapper) ->
          chroma_find_entity_path set_iter fuel source_id target_id max_depth mapper
          = Some (Return PathNotFound))
    /\ (forall source_id target_id path len,
          chroma_find_entity_path set_iter fuel source_id target_id max_depth mapper
          = Some (Return (PathFound path len)) ->
          EntityMapper.find_path set_iter fuel source_id target_id max_depth mapper
          = Some (Return (Some path))
          /\ len = Z.of_nat (length path) /\ 2 <= len
          /\ last path = Some (target_id, "")
          /\ source_id <> target_id).
Proof.
  intros set_iter fuel max_depth mapper. split; [| split].
  - intros entity_id Hin.
    assert (E : EntityMapper.find_path set_iter fuel entity_id entity_id max_depth mapper
                = Some (Return (Some []))).
    { unfold EntityMapper.find_path.
      rewrite (bool_decide_eq_false_2 (entity_id ∉ _)) by (intros Hn; by apply Hn).
      simpl. by rewrite String.eqb_refl. }
    split; [done |]. unfold chroma_find_entity_path. by rewrite E.
  - intros source_id target_id Hmiss. unfold chroma_find_entity_path, EntityMapper.find_path.
    destruct Hmiss as [Hs|Ht].
    + by rewrite (bool_decide_eq_true_2 _ Hs).
    + rewrite (bool_decide_eq_true_2 _ Ht). by rewrite orb_true_r.
  - intros source_id target_id path len. unfold chroma_find_entity_path.
    destruct (EntityMapper.find_path set_iter fuel source_id target_id max_depth mapper)
      as [[[[|hop hops]|]|]|] eqn:E; try done.
    intros [= <- <-]. split; [done |]. split; [done |].
    unfold EntityMapper.find_path in E.
    destruct (_ || _); [done |].
    destruct (String.eqb_spec source_id target_id) as [|Hne]; [done |].
    apply bfs_found_shape in E as (p & cur & rid & Heq).
    split; [| split; [| done]].
    + apply (f_equal length) in Heq. rewrite !length_app in Heq. simpl in Heq. lia.
    + by rewrite Heq, last_snoc.
Qed.

Lemma path_tool_reports_no_path_from_an_entity_to_itself_witness :
  chroma_find_entity_path elements 0 "A" "A" 5
    (mapper_run [OpAddEntity "A" "User" None] EntityMapper.EntityRelationshipMapper_init)
  = Some (Return PathNotFound).
Proof.
  refine (proj2 (proj1 (path_tool_reports_no_path_from_an_entity_to_itself elements 0%nat 5
                          (mapper_run [OpAddEntity "A" "User" None]
                             EntityMapper.EntityRelationshipMapper_init)) "A" _)).
  by vm_compute; set_solver.
Defined.

(** ** entity_mapper.py: statistics *)

Lemma sum_counts_insert (counts : gmap string Z) (k : string) (n : Z) :
  sum_counts (<[k := n]> counts) = n - default 0 (counts !! k) + sum_counts counts.
Proof.
  unfold sum_counts. destruct (counts !! k) as [n0|] eqn:E; simpl.
  - rewrite <- (insert_delete_eq counts k n).
    rewrite map_fold_insert_L; [| intros; lia | by rewrite lookup_delete_eq].
    rewrite <- (insert_delete_id counts k n0 E) at 2.
    rewrite map_fold_insert_L; [| intros; lia | by rewrite lookup_delete_eq].
    lia.
  - rewrite map_fold_insert_L; [lia | intros; lia | done].
Qed.

Lemma sum_counts_foldl (dict_rels : list EntityMapper.Relationship) (counts : gmap string Z) :
  sum_counts (foldl EntityMapper.count_relationship_type counts dict_rels)
  = sum_counts counts + Z.of_nat (length dict_rels).
Proof.
  revert counts. induction dict_rels as [|rel rels IH]; intros counts; simpl; [lia |].
  rewrite IH. unfold EntityMapper.count_relationship_type. rewrite sum_counts_insert. lia.
Qed.

Lemma count_foldl_lookup (rels : list EntityMapper.Relationship) (counts : gmap string Z)
    (ty : string) :
  default 0 (foldl EntityMapper.count_relationship_type counts rels !! ty)
  = default 0 (counts !! ty)
    + Z.of_nat (length (filter (fun rel => EntityMapper.relationship_type rel = ty) rels)).
Proof.
  revert counts. induction rels as [|rel rels IH]; intros counts; simpl; [lia |].
  rewrite IH. unfold EntityMapper.count_relationship_type.
  destruct (decide (EntityMapper.relationship_type rel = ty)) as [Heq|Hne].
  - rewrite filter_cons_True by done. rewrite Heq, lookup_insert_eq. simpl. lia.
  - rewrite filter_cons_False by done. by rewrite lookup_insert_ne.
Qed.

Lemma count_foldl_positive (rels : list EntityMapper.Relationship) (counts : gmap string Z) :
  map_Forall (fun _ n => 0 < n) counts ->
  map_Forall (fun _ n => 0 < n) (foldl EntityMapper.count_relationship_type counts rels).
Proof.
  revert counts. induction rels as [|rel rels IH]; intros counts Hpos; simpl; [done |].
  apply IH. unfold EntityMapper.count_relationship_type.
  apply map_Forall_insert_2; [| done].
  destruct (counts !! EntityMapper.relationship_type rel) as [n|] eqn:E; simpl; [| lia].
  specialize (Hpos _ _ E). simpl in Hpos. lia.
Qed.

(** X17: in [get_statistics] the counts per relationship type add up to
    [total_relationships], every type that is listed has a count of at
    least one, and the count of a type is the number of stored
    relationships of that type. [entity_types] gives the size of each
    entry of the type index, which can differ from the number of entities
    that have the type now. *)
Theorem get_statistics_relationship_counts_add_up :
  forall (dict_values : forall A : Type, gmap string A -> list A),
    (forall (A : Type) (d : gmap string A), dict_values A d ≡ₚ map snd (map_to_list d)) ->
    forall m : EntityMapper.EntityRelationshipMapper,
      let stats := EntityMapper.get_statistics dict_values m in
      sum_counts (EntityMapper.relationship_types stats) = EntityMapper.total_relationships stats
      /\ map_Forall (fun _ n => 1 <= n) (EntityMapper.relationship_types stats)
      /\ (forall ty,
            default 0 (EntityMapper.relationship_types stats !! ty)
            = Z.of_nat
                (length (filter (fun kr => EntityMapper.relationship_type (snd kr) = ty)
                           (map_to_list (EntityMapper._relationships m)))))
      /\ (forall ty,
            EntityMapper.entity_types stats !! ty
            = (fun ids : gset string => Z.of_nat (size ids))
                <$> EntityMapper._entity_index m !! ty).
Proof.
  intros dict_values Hvalues m stats. subst stats. unfold EntityMapper.get_statistics. simpl.
  split; [| split; [| split]].
  - rewrite sum_counts_foldl. unfold sum_counts. rewrite map_fold_empty.
    rewrite (Permutation_length (Hvalues _ _)), length_map.
    by rewrite length_map_to_list.
  - eapply map_Forall_impl; [apply count_foldl_positive, map_Forall_empty |].
    simpl. intros; lia.
  - intros ty. rewrite count_foldl_lookup, lookup_empty. cbn [default]. rewrite Z.add_0_l.
    f_equal.
    transitivity (length (filter (fun rel => EntityMapper.relationship_type rel = ty)
                            (map snd (map_to_list (EntityMapper._relationships m))))).
    + apply Permutation_length. by rewrite (Hvalues _ _).
    + generalize (map_to_list (EntityMapper._relationships m)).
      intros l. induction l as [|kr l IH]; [done |]. simpl.
      destruct (decide (EntityMapper.relationship_type (snd kr) = ty)).
      * rewrite !filter_cons_True by done. simpl. by rewrite IH.
      * by rewrite !filter_cons_False by done.
  - intros ty. by rewrite lookup_fmap.
Qed.

Lemma get_statistics_relationship_counts_add_up_witness :
  sum_counts
    (EntityMapper.relationship_types
       (EntityMapper.get_statistics (fun A d => map snd (map_to_list d))
          (mapper_run [OpAddEntity "A" "User" None; OpAddEntity "B" "User" None;
                       OpAddRelationship "r1" "A" "B" "FOLLOWS" None;
                       OpAddRelationship "r2" "B" "A" "FOLLOWS" None;
                       OpAddRelationship "r3" "A" "B" "BLOCKS" None]
             EntityMapper.EntityRelationshipMapper_init)))
  = 3.
Proof.
  exact (proj1 (get_statistics_relationship_counts_add_up
                  (fun A d => map snd (map_to_list d)) (fun A d => reflexivity _)
                  (mapper_run [OpAddEntity "A" "User" None; OpAddEntity "B" "User" None;
                               OpAddRelationship "r1" "A" "B" "FOLLOWS" None;
                               OpAddRelationship "r2" "B" "A" "FOLLOWS" None;
                               OpAddRelationship "r3" "A" "B" "BLOCKS" None]
                     EntityMapper.EntityRelationshipMapper_init))).
Defined.

(** ** entity_mapper.py: export and import *)
Section export_import.
Implicit Types (m : EntityMapper.EntityRelationshipMapper).

Lemma dict_values_elem (dict_values : forall A : Type, gmap string A -> list A) :
  (forall (A : Type) (d : gmap string A), dict_values A d ≡ₚ map snd (map_to_list d)) ->
  forall (A : Type) (d : gmap string A) (a : A),
    a ∈ dict_values A d <-> exists k, d !! k = Some a.
Proof.
  intros Hvalues A d a. rewrite (Hvalues A d). split.
  - intros Hin. apply list_elem_of_fmap in Hin as ([k a'] & Heq & Hin). simpl in Heq.
    subst a'. apply elem_of_map_to_list in Hin. by exists k.
  - intros [k Hk]. apply list_elem_of_fmap. exists (k, a). split; [done |].
    by apply elem_of_map_to_list.
Qed.

(** The first loop of [import_graph]. *)
Lemma import_entities_spec (ds : list EntityMapper.EntityData) m0 :
  let M := foldl (fun m1 entity_data =>
                    snd (EntityMapper.add_entity (EntityMapper.data_id entity_data)
                           (EntityMapper.data_type entity_data)
                           (EntityMapper.data_properties entity_data) m1)) m0 ds in
  EntityMapper._relationships M = EntityMapper._relationships m0
  /\ EntityMapper._relationship_index M = EntityMapper._relationship_index m0
  /\ (forall k,
        (exists d, d ∈ ds /\ EntityMapper.data_id d = k
                   /\ EntityMapper._entities M !! k
                      = Some (EntityMapper.mkEntity k (EntityMapper.data_type d)
                                (EntityMapper.props_or_empty (EntityMapper.data_properties d))
                                ∅))
        \/ ((forall d, d ∈ ds -> EntityMapper.data_id d <> k)
            /\ EntityMapper._entities M !! k = EntityMapper._entities m0 !! k))
  /\ (forall ty id,
        id ∈ default ∅ (EntityMapper._entity_index M !! ty)
        <-> id ∈ default ∅ (EntityMapper._entity_index m0 !! ty)
            \/ exists d, d ∈ ds /\ EntityMapper.data_id d = id /\ EntityMapper.data_type d = ty).
Proof.
  revert m0. induction ds as [|d ds IH]; intros m0; cbv zeta.
  - simpl. split; [done |]. split; [done |]. split.
    + intros k. right. split; [| done]. by intros d ?%elem_of_nil.
    + intros ty id. split; [by left |]. intros [? | (d & ?%elem_of_nil & _)]; done.
  - cbn [foldl].
    destruct (IH (snd (EntityMapper.add_entity (EntityMapper.data_id d)
                         (EntityMapper.data_type d) (EntityMapper.data_properties d) m0)))
      as (Hrel & Hpidx & Hent & Hidx).
    split; [by rewrite Hrel |]. split; [by rewrite Hpidx |]. split.
    + intros k. destruct (Hent k) as [(d' & Hin & Hid & Hk) | [Hno Hk]].
      * left. exists d'. split; [by right | done].
      * destruct (decide (EntityMapper.data_id d = k)) as [Heq|Hne].
        -- left. exists d. split; [by left |]. split; [done |].
           rewrite Hk. simpl. by rewrite Heq, lookup_insert_eq.
        -- right. split.
           ++ intros d' [->|Hin]%elem_of_cons; [done | by apply Hno].
           ++ rewrite Hk. simpl. by rewrite lookup_insert_ne.
    + intros ty id. rewrite Hidx. simpl.
      destruct (decide (EntityMapper.data_type d = ty)) as [Heq|Hne].
      * rewrite Heq, lookup_insert_eq. simpl. rewrite elem_of_union, elem_of_singleton. split.
        -- intros [[Hin | ->] | (d' & Hin & Hid & Hty)].
           ++ by left.
           ++ right. exists d. split; [by left | done].
           ++ right. exists d'. split; [by right | done].
        -- intros [Hin | (d' & [->|Hin]%elem_of_cons & Hid & Hty)].
           ++ left. by left.
           ++ left. right. done.
           ++ right. by exists d'.
      * rewrite lookup_insert_ne by done. split.
        -- intros [Hin | (d' & Hin & Hid & Hty)]; [by left |].
           right. exists d'. split; [by right | done].
        -- intros [Hin | (d' & [->|Hin]%elem_of_cons & Hid & Hty)]; [by left | done |].
           right. by exists d'.
Qed.
End export_import.

Section import_relationships.
Implicit Types (m : EntityMapper.EntityRelationshipMapper).

(** The second loop of [import_graph], when every relationship read has
    both endpoints among the entities. *)
Lemma import_relationships_spec (rs : list EntityMapper.RelationshipData) m0 :
  (forall r, r ∈ rs ->
     EntityMapper.rdata_source r ∈ dom (EntityMapper._entities m0)
     /\ EntityMapper.rdata_target r ∈ dom (EntityMapper._entities m0)) ->
  let M := foldl (fun m1 rel_data =>
                    snd (EntityMapper.add_relationship (EntityMapper.rdata_id rel_data)
                           (EntityMapper.rdata_source rel_data)
                           (EntityMapper.rdata_target rel_data)
                           (EntityMapper.rdata_type rel_data)
                           (EntityMapper.rdata_properties rel_data) m1)) m0 rs in
  EntityMapper._entity_index M = EntityMapper._entity_index m0
  /\ dom (EntityMapper._entities M) = dom (EntityMapper._entities m0)
  /\ (forall rid,
        (exists r, r ∈ rs /\ EntityMapper.rdata_id r = rid
                   /\ EntityMapper._relationships M !! rid
                      = Some (EntityMapper.mkRelationship rid (EntityMapper.rdata_source r)
                                (EntityMapper.rdata_target r) (EntityMapper.rdata_type r)
                                (EntityMapper.props_or_empty
                                   (EntityMapper.rdata_properties r))))
        \/ ((forall r, r ∈ rs -> EntityMapper.rdata_id r <> rid)
            /\ EntityMapper._relationships M !! rid = EntityMapper._relationships m0 !! rid))
  /\ (forall k e',
        EntityMapper._entities M !! k = Some e' ->
        exists e,
          EntityMapper._entities m0 !! k = Some e
          /\ EntityMapper.entity_id e' = EntityMapper.entity_id e
          /\ EntityMapper.entity_type e' = EntityMapper.entity_type e
          /\ EntityMapper.properties e' = EntityMapper.properties e
          /\ (forall rid,
                rid ∈ EntityMapper.relationships e'
                <-> rid ∈ EntityMapper.relationships e
                    \/ exists r, r ∈ rs /\ EntityMapper.rdata_id r = rid
                                 /\ (EntityMapper.rdata_source r = k
                                     \/ EntityMapper.rdata_target r = k)))
  /\ (forall s t rid,
        rid ∈ default ∅ (EntityMapper._relationship_index M !! (s, t))
        <-> rid ∈ default ∅ (EntityMapper._relationship_index m0 !! (s, t))
            \/ exists r, r ∈ rs /\ EntityMapper.rdata_id r = rid
                         /\ EntityMapper.rdata_source r = s /\ EntityMapper.rdata_target r = t).
Proof.
  revert m0. induction rs as [|r rs IH]; intros m0 Hends; cbv zeta.
  - simpl. split; [done |]. split; [done |]. split; [| split].
    + intros rid. right. split; [| done]. by intros r ?%elem_of_nil.
    + intros k e' He'. exists e'. repeat split; try done.
      * by left.
      * intros [? | (r & ?%elem_of_nil & _)]; done.
    + intros s t rid. split; [by left |]. intros [? | (r & ?%elem_of_nil & _)]; done.
  - cbn [foldl].
    destruct (Hends r) as [Hsrc Htgt]; [by left |].
    rewrite (add_relationship_present _ _ _ _ _ _ Hsrc Htgt). cbn [snd].
    match goal with |- context [foldl _ ?M1 rs] => set (m1 := M1) end.
    assert (Hdom1 : dom (EntityMapper._entities m1) = dom (EntityMapper._entities m0)).
    { subst m1. simpl. by rewrite !dom_alter_L. }
    destruct (IH m1) as (Hidx & Hdom & Hrel & Hent & Hpidx).
    { intros r' Hr'. rewrite Hdom1. apply Hends. by right. }
    split; [by rewrite Hidx |]. split; [by rewrite Hdom |]. split; [| split].
    + intros rid. destruct (Hrel rid) as [(r' & Hin & Hid & Hk) | [Hno Hk]].
      * left. exists r'. split; [by right | done].
      * destruct (decide (EntityMapper.rdata_id r = rid)) as [Heq|Hne].
        -- left. exists r. split; [by left |]. split; [done |].
           rewrite Hk. subst m1. simpl. by rewrite Heq, lookup_insert_eq.
        -- right. split.
           ++ intros r' [->|Hin]%elem_of_cons; [done | by apply Hno].
           ++ rewrite Hk. subst m1. simpl. by rewrite lookup_insert_ne.
    + intros k e' He'. destruct (Hent k e' He') as (e1 & He1 & Hid & Hty & Hprops & Hrels).
      subst m1. simpl in He1.
      apply attach_twice_lookup in He1
        as (e & He & Hid1 & Hty1 & Hprops1 & Hsame & Hadd & _ & _).
      exists e. split; [done |]. split; [congruence |]. split; [congruence |].
      split; [congruence |]. intros rid. rewrite Hrels.
      destruct (decide (k = EntityMapper.rdata_source r \/ k = EntityMapper.rdata_target r))
        as [Hk|Hk].
      * rewrite (Hadd Hk), elem_of_union, elem_of_singleton. split.
        -- intros [[Hin | ->] | (r' & Hin & Hid' & Hend)].
           ++ by left.
           ++ right. exists r. split; [by left |]. split; [done |].
              destruct Hk as [->| ->]; [by left | by right].
           ++ right. exists r'. split; [by right | done].
        -- intros [Hin | (r' & [->|Hin]%elem_of_cons & Hid' & Hend)].
           ++ left. by left.
           ++ left. by right.
           ++ right. by exists r'.
      * assert (Hks : k <> EntityMapper.rdata_source r) by (intros ->; apply Hk; by left).
        assert (Hkt : k <> EntityMapper.rdata_target r) by (intros ->; apply Hk; by right).
        rewrite (Hsame Hks Hkt). split.
        -- intros [Hin | (r' & Hin & Hid' & Hend)]; [by left |].
           right. exists r'. split; [by right | done].
        -- intros [Hin | (r' & [->|Hin]%elem_of_cons & Hid' & Hend)]; [by left | |].
           ++ destruct Hend; congruence.
           ++ right. by exists r'.
    + intros s t rid. rewrite Hpidx. subst m1. simpl.
      destruct (decide ((EntityMapper.rdata_source r, EntityMapper.rdata_target r) = (s, t)))
        as [Heq|Hne].
      * rewrite Heq, lookup_insert_eq. simpl. injection Heq as Hs Ht.
        rewrite elem_of_union, elem_of_singleton. split.
        -- intros [[Hin | ->] | (r' & Hin & Hid' & Hs' & Ht')].
           ++ by left.
           ++ right. exists r. split; [by left | done].
           ++ right. exists r'. split; [by right | done].
        -- intros [Hin | (r' & [->|Hin]%elem_of_cons & Hid' & Hs' & Ht')].
           ++ left. by left.
           ++ left. by right.
           ++ right. by exists r'.
      * rewrite lookup_insert_ne by done. split.
        -- intros [Hin | (r' & Hin & Hid' & Hs' & Ht')]; [by left |].
           right. exists r'. split; [by right | done].
        -- intros [Hin | (r' & [->|Hin]%elem_of_cons & Hid' & Hs' & Ht')]; [by left | |].
           ++ congruence.
           ++ right. by exists r'.
Qed.

Section round_trip.
Variable set_iter : gset string -> list string.
Variable dict_values : forall A : Type, gmap string A -> list A.
Hypothesis dict_values_perm :
  forall (A : Type) (d : gmap string A), dict_values A d ≡ₚ map snd (map_to_list d).
Variable m : EntityMapper.EntityRelationshipMapper.
Hypothesis m_consistent : mapper_consistent m.

Lemma exported_entity_elem (d : EntityMapper.EntityData) :
  d ∈ exported_entity_data set_iter dict_values m <-> exists e,
               EntityMapper._entities m !! EntityMapper.entity_id e = Some e
               /\ d = EntityMapper.mkEntityData (EntityMapper.entity_id e)
                        (EntityMapper.entity_type e) (Some (EntityMapper.properties e)).
Proof.
  unfold exported_entity_data. simpl. split.
  - intros Hd. apply list_elem_of_fmap in Hd as (ed & -> & Hed).
    apply list_elem_of_fmap in Hed as (e & -> & He).
    apply (dict_values_elem dict_values dict_values_perm) in He as [k Hk].
    exists e. split; [| done]. destruct m_consistent as (Hent & _).
    destruct (Hent k e Hk) as [-> _]. done.
  - intros (e & He & ->). apply list_elem_of_fmap.
    exists (EntityMapper.Entity_to_dict set_iter e). split; [done |].
    apply list_elem_of_fmap. exists e. split; [done |].
    apply (dict_values_elem dict_values dict_values_perm). by eexists.
Qed.

Lemma exported_relationship_elem (r : EntityMapper.RelationshipData) :
  r ∈ exported_relationship_data set_iter dict_values m <-> exists rel,
               EntityMapper._relationships m !! EntityMapper.relationship_id rel = Some rel
               /\ r = EntityMapper.mkRelationshipData (EntityMapper.relationship_id rel)
                        (EntityMapper.source_id rel) (EntityMapper.target_id rel)
                        (EntityMapper.relationship_type rel)
                        (Some (EntityMapper.rel_properties rel)).
Proof.
  unfold exported_relationship_data. simpl. split.
  - intros Hr. apply list_elem_of_fmap in Hr as (rd & -> & Hrd).
    apply list_elem_of_fmap in Hrd as (rel & -> & Hrel).
    apply (dict_values_elem dict_values dict_values_perm) in Hrel as [k Hk].
    exists rel. split; [| done]. destruct m_consistent as (_ & Hrels & _).
    destruct (Hrels k rel Hk) as [-> _]. done.
  - intros (rel & Hrel & ->). apply list_elem_of_fmap.
    exists (EntityMapper.Relationship_to_dict rel). split; [done |].
    apply list_elem_of_fmap. exists rel. split; [done |].
    apply (dict_values_elem dict_values dict_values_perm). by eexists.
Qed.

Lemma export_import_consistent m0 :
  let m' := EntityMapper.import_graph
              (EntityMapper.graph_data_of_export
                 (EntityMapper.export_graph set_iter dict_values m)) m0 in
  EntityMapper._relationships m' = EntityMapper._relationships m
  /\ (forall k, EntityMapper._entities m !! k = None -> EntityMapper._entities m' !! k = None)
  /\ (forall k e,
        EntityMapper._entities m !! k = Some e ->
        exists e',
          EntityMapper._entities m' !! k = Some e'
          /\ EntityMapper.entity_id e' = EntityMapper.entity_id e
          /\ EntityMapper.entity_type e' = EntityMapper.entity_type e
          /\ EntityMapper.properties e' = EntityMapper.properties e
          /\ (forall rid,
                rid ∈ EntityMapper.relationships e'
                <-> exists rel,
                      EntityMapper._relationships m !! rid = Some rel
                      /\ (EntityMapper.source_id rel = k \/ EntityMapper.target_id rel = k)))
  /\ (forall ty id,
        id ∈ default ∅ (EntityMapper._entity_index m' !! ty)
        <-> exists e, EntityMapper._entities m !! id = Some e
                      /\ EntityMapper.entity_type e = ty)
  /\ pair_index_exact m'.
Proof.
  intros m'. subst m'. unfold EntityMapper.import_graph. cbv zeta.
  fold (exported_entity_data set_iter dict_values m).
  fold (exported_relationship_data set_iter dict_values m).
  set (ds := exported_entity_data set_iter dict_values m).
  set (rs := exported_relationship_data set_iter dict_values m).
  destruct m_consistent as (Hcent & Hcrel & _).
  destruct (import_entities_spec ds EntityMapper.EntityRelationshipMapper_init)
    as (Hrel1 & Hpidx1 & Hent1 & Hidx1).
  match goal with |- context [foldl ?f (foldl ?g ?i ds) rs] => set (m1 := foldl g i ds) in * end.
  assert (Hm1 : forall k,
            EntityMapper._entities m1 !! k
            = (fun e => EntityMapper.mkEntity (EntityMapper.entity_id e)
                          (EntityMapper.entity_type e) (EntityMapper.properties e) ∅)
                <$> EntityMapper._entities m !! k).
  { intros k. destruct (Hent1 k) as [(d & Hin & Hid & Hk) | [Hno Hk]].
    - apply exported_entity_elem in Hin as (e & He & ->). simpl in Hid, Hk.
      rewrite Hid in He. by rewrite Hk, He, <- Hid.
    - rewrite Hk. simpl. rewrite lookup_empty.
      destruct (EntityMapper._entities m !! k) as [e|] eqn:He; [| done].
      destruct (Hcent k e He) as [Hid _]. exfalso.
      apply (Hno (EntityMapper.mkEntityData (EntityMapper.entity_id e)
                    (EntityMapper.entity_type e) (Some (EntityMapper.properties e))));
        [| done].
      apply exported_entity_elem. exists e. by rewrite Hid. }
  assert (Hdom1 : dom (EntityMapper._entities m1) = dom (EntityMapper._entities m)).
  { apply set_eq. intros k. rewrite !elem_of_dom, Hm1. by rewrite fmap_is_Some. }
  destruct (import_relationships_spec rs m1) as (Hidx & Hdom & Hrel & Hent & Hpidx).
  { intros r Hr. apply exported_relationship_elem in Hr as (rel & Hk & ->). simpl.
    rewrite Hdom1. destruct (Hcrel _ _ Hk) as (_ & ? & ?). done. }
  match goal with |- context [foldl ?f m1 rs] => set (m2 := foldl f m1 rs) in * end.
  assert (Hrels : EntityMapper._relationships m2 = EntityMapper._relationships m).
  { apply map_eq. intros rid. destruct (Hrel rid) as [(r & Hin & Hid & Hk) | [Hno Hk]].
    - apply exported_relationship_elem in Hin as (rel & Hrid & ->). simpl in Hid, Hk.
      rewrite Hid in Hrid. rewrite Hk, Hrid, <- Hid. by destruct rel.
    - rewrite Hk, Hrel1. simpl. rewrite lookup_empty.
      destruct (EntityMapper._relationships m !! rid) as [rel|] eqn:Hrid; [| done].
      destruct (Hcrel rid rel Hrid) as [Hid _]. exfalso.
      apply (Hno (EntityMapper.mkRelationshipData (EntityMapper.relationship_id rel)
                    (EntityMapper.source_id rel) (EntityMapper.target_id rel)
                    (EntityMapper.relationship_type rel)
                    (Some (EntityMapper.rel_properties rel)))); [| done].
      apply exported_relationship_elem. exists rel. by rewrite Hid. }
  assert (Hrs : forall rid (P : EntityMapper.Relationship -> Prop)
                       (Q : EntityMapper.RelationshipData -> Prop),
            (forall rel, P rel <-> Q (EntityMapper.mkRelationshipData
                                        (EntityMapper.relationship_id rel)
                                        (EntityMapper.source_id rel)
                                        (EntityMapper.target_id rel)
                                        (EntityMapper.relationship_type rel)
                                        (Some (EntityMapper.rel_properties rel)))) ->
            (exists r, r ∈ rs /\ EntityMapper.rdata_id r = rid /\ Q r)
            <-> exists rel, EntityMapper._relationships m !! rid = Some rel /\ P rel).
  { intros rid P Q HPQ. split.
    - intros (r & Hin & Hid & Hq).
      apply exported_relationship_elem in Hin as (rel & Hrid & ->). simpl in Hid.
      subst rid. exists rel. split; [done | by apply HPQ].
    - intros (rel & Hrid & Hp). destruct (Hcrel rid rel Hrid) as [Hid _]. subst rid.
      eexists. split; [apply exported_relationship_elem; by exists rel |].
      split; [done | by apply HPQ]. }
  split; [done |]. split; [| split; [| split]].
  - intros k Hk. apply not_elem_of_dom. rewrite Hdom, Hdom1. by apply not_elem_of_dom.
  - intros k e He.
    assert (Hin : k ∈ dom (EntityMapper._entities m2)).
    { rewrite Hdom, Hdom1. apply elem_of_dom. by eexists. }
    apply elem_of_dom in Hin as [e' He']. exists e'. split; [done |].
    destruct (Hent k e' He') as (e1 & He1 & Hid & Hty & Hprops & Hin).
    rewrite Hm1, He in He1. simpl in He1. injection He1 as <-. simpl in *.
    split; [done |]. split; [done |]. split; [done |].
    intros rid. rewrite Hin. rewrite <- (Hrs rid
      (fun rel => EntityMapper.source_id rel = k \/ EntityMapper.target_id rel = k)
      (fun r => EntityMapper.rdata_source r = k \/ EntityMapper.rdata_target r = k)); [| done].
    split; [intros [?%elem_of_empty | ?]; done | by right].
  - intros ty id. rewrite Hidx, Hidx1. simpl. rewrite lookup_empty. simpl. split.
    + intros [?%elem_of_empty | (d & Hin & Hid & Hty)]; [done |].
      apply exported_entity_elem in Hin as (e & He & ->). simpl in *.
      exists e. by rewrite <- Hid.
    + intros (e & He & Hty). right. destruct (Hcent id e He) as [Hid _].
      eexists. split; [apply exported_entity_elem; exists e; by rewrite Hid |]. done.
  - intros s t rid. rewrite Hpidx, Hpidx1, Hrels. simpl. rewrite lookup_empty. simpl.
    rewrite <- (Hrs rid
      (fun rel => EntityMapper.source_id rel = s /\ EntityMapper.target_id rel = t)
      (fun r => EntityMapper.rdata_source r = s /\ EntityMapper.rdata_target r = t)); [| done].
    split; [intros [?%elem_of_empty | ?]; done | by right].
Qed.
End round_trip.
End import_relationships.

(** X18: exporting a mapper built through the interface and importing the
    export gives a mapper with the same relationships and with the same
    entities as to id, type and properties. The rest is rebuilt from them:
    an entity holds exactly the relationships that have it as source or
    target (also those it had lost by being added again), the type index
    lists an id under the type the entity has now and under no other, and
    the pair index lists exactly the relationships from the first entity
    to the second. The mapper that receives the import does not matter. *)
Theorem export_then_import_rebuilds_the_graph :
  forall (set_iter : gset string -> list string)
         (dict_values : forall A : Type, gmap string A -> list A),
    (forall (A : Type) (d : gmap string A), dict_values A d ≡ₚ map snd (map_to_list d)) ->
    forall (ops : list mapper_op) (m0 : EntityMapper.EntityRelationshipMapper),
      let m := mapper_run ops EntityMapper.EntityRelationshipMapper_init in
      let m' := EntityMapper.import_graph
                  (EntityMapper.graph_data_of_export
                     (EntityMapper.export_graph set_iter dict_values m)) m0 in
      EntityMapper._relationships m' = EntityMapper._relationships m
      /\ (forall k, EntityMapper.get_entity k m = None -> EntityMapper.get_entity k m' = None)
      /\ (forall k e,
            EntityMapper.get_entity k m = Some e ->
            exists e',
              EntityMapper.get_entity k m' = Some e'
              /\ EntityMapper.entity_id e' = EntityMapper.entity_id e
              /\ EntityMapper.entity_type e' = EntityMapper.entity_type e
              /\ EntityMapper.properties e' = EntityMapper.properties e
              /\ (forall rid,
                    rid ∈ EntityMapper.relationships e'
                    <-> exists rel,
                          EntityMapper.get_relationship rid m = Some rel
                          /\ (EntityMapper.source_id rel = k
                              \/ EntityMapper.target_id rel = k)))
      /\ (forall ty id,
            id ∈ default ∅ (EntityMapper._entity_index m' !! ty)
            <-> exists e, EntityMapper.get_entity id m = Some e
                          /\ EntityMapper.entity_type e = ty)
      /\ pair_index_exact m'.
Proof.
  intros set_iter dict_values Hvalues ops m0 m m'.
  apply (export_import_consistent set_iter dict_values Hvalues m).
  apply mapper_run_consistent, init_consistent.
Qed.

Lemma export_then_import_rebuilds_the_graph_witness :
  EntityMapper._relationships
    (EntityMapper.import_graph
       (EntityMapper.graph_data_of_export
          (EntityMapper.export_graph elements (fun A d => map snd (map_to_list d))
             (mapper_run [OpAddEntity "A" "User" None; OpAddEntity "B" "User" None;
                          OpAddRelationship "r" "A" "B" "FOLLOWS" None;
                          OpAddEntity "A" "Bot" None]
                EntityMapper.EntityRelationshipMapper_init)))
       EntityMapper.EntityRelationshipMapper_init)
  = EntityMapper._relationships
      (mapper_run [OpAddEntity "A" "User" None; OpAddEntity "B" "User" None;
                   OpAddRelationship "r" "A" "B" "FOLLOWS" None;
                   OpAddEntity "A" "Bot" None]
         EntityMapper.EntityRelationshipMapper_init).
Proof.
  exact (proj1 (export_then_import_rebuilds_the_graph elements
                  (fun A d => map snd (map_to_list d)) (fun A d => reflexivity _)
                  [OpAddEntity "A" "User" None; OpAddEntity "B" "User" None;
                   OpAddRelationship "r" "A" "B" "FOLLOWS" None;
                   OpAddEntity "A" "Bot" None]
                  EntityMapper.EntityRelationshipMapper_init)).
Defined.

(** ** swarm.py: the code smell monitor *)
Section smell_monitor.
Context {Filter : Type}.
Variable json_dumps : Filter -> string.
Implicit Types (mon : Swarm.CodeSmellMonitor) (params : Swarm.Params (Filter := Filter)).

(** The smells that one call finds. *)
Lemma run_checks_app (operation_type collection_name : string) params (now : Q)
    (checks : list (string * (string -> string -> Swarm.Params (Filter := Filter)
                               -> option Swarm.CheckResult)))
    (acc : list Swarm.Smell * list Swarm.Smell) :
  foldl (Swarm.run_check operation_type collection_name params now) acc checks
  = (fst acc ++ fst (foldl (Swarm.run_check operation_type collection_name params now)
                       ([], []) checks),
     snd acc ++ fst (foldl (Swarm.run_check operation_type collection_name params now)
                       ([], []) checks)).
Proof.
  revert acc. induction checks as [|check checks IH]; intros acc.
  - simpl. rewrite !app_nil_r. by destruct acc.
  - cbn [foldl]. rewrite IH. rewrite (IH (Swarm.run_check _ _ _ _ ([], []) check)).
    unfold Swarm.run_check. destruct (snd check _ _ _); simpl.
    + by rewrite <- !app_assoc.
    + done.
Qed.

Lemma analyze_operation_unfold (operation_type collection_name : string) params (now : Q) mon :
  let found := fst (Swarm.analyze_operation json_dumps operation_type collection_name
                      params now Swarm.CodeSmellMonitor_init) in
  Swarm.analyze_operation json_dumps operation_type collection_name params now mon
  = (found,
     Swarm.mkCodeSmellMonitor
       (if Z.of_nat (length (Swarm._smells mon ++ found)) >? 1000
        then slice_last 1000 (Swarm._smells mon ++ found)
        else Swarm._smells mon ++ found)).
Proof.
  unfold Swarm.analyze_operation. cbv zeta. rewrite run_checks_app. cbn [fst snd].
  rewrite (run_checks_app _ _ _ _ _ ([], Swarm._smells Swarm.CodeSmellMonitor_init)).
  cbn [fst snd]. done.
Qed.

Lemma found_types (operation_type collection_name : string) params (now : Q) mon :
  map Swarm.smell_type
    (fst (Swarm.analyze_operation json_dumps operation_type collection_name
            params now mon))
  = (if String.eqb operation_type "query" && (default 0 (Swarm.n_results params) >? 100)
     then ["excessive_queries"] else [])
    ++ (if String.eqb operation_type "add"
           && match Swarm.documents params with
              | Some docs => Z.of_nat (length docs) >? 1000
              | None => false
              end
        then ["large_batch_size"] else [])
    ++ (match Swarm.where_ params with
        | Some (Some filter) =>
            if Z.of_nat (String.length (json_dumps filter)) >? 500
            then ["inefficient_filtering"] else []
        | _ => []
        end).
Proof.
  rewrite analyze_operation_unfold. cbn [fst].
  unfold Swarm.analyze_operation, Swarm._checks. cbn [foldl fst snd].
  unfold Swarm.run_check. cbn [fst snd].
  unfold Swarm._check_excessive_queries, Swarm._check_large_batch_size,
    Swarm._check_inefficient_filtering, Swarm._check_duplicate_operations.
  destruct (String.eqb operation_type "query" && _);
    destruct (String.eqb operation_type "add");
    destruct (Swarm.documents params) as [docs|];
    try destruct (Z.of_nat (length docs) >? 1000);
    destruct (Swarm.where_ params) as [[filter|]|];
    try destruct (Z.of_nat (String.length (json_dumps filter)) >? 500);
    reflexivity.
Qed.

Lemma found_smells_known (operation_type collection_name : string) params (now : Q) mon :
  Forall (fun smell =>
            Swarm.smell_operation smell = operation_type
            /\ Swarm.smell_collection smell = collection_name
            /\ Swarm.smell_timestamp smell = now
            /\ ((Swarm.smell_type smell = "excessive_queries"
                 /\ Swarm.smell_severity smell = "warning")
                \/ (Swarm.smell_type smell = "large_batch_size"
                    /\ Swarm.smell_severity smell = "warning")
                \/ (Swarm.smell_type smell = "inefficient_filtering"
                    /\ Swarm.smell_severity smell = "info")))
    (fst (Swarm.analyze_operation json_dumps operation_type collection_name
            params now mon)).
Proof.
  rewrite analyze_operation_unfold. cbn [fst].
  unfold Swarm.analyze_operation, Swarm._checks. cbn [foldl fst snd].
  unfold Swarm.run_check. cbn [fst snd].
  unfold Swarm._check_excessive_queries, Swarm._check_large_batch_size,
    Swarm._check_inefficient_filtering, Swarm._check_duplicate_operations.
  destruct (String.eqb operation_type "query" && _);
    destruct (String.eqb operation_type "add");
    destruct (Swarm.documents params) as [docs|];
    try destruct (Z.of_nat (length docs) >? 1000);
    destruct (Swarm.where_ params) as [[filter|]|];
    try destruct (Z.of_nat (String.length (json_dumps filter)) >? 500);
    cbn [app fst snd]; repeat (apply Forall_cons; split; [cbn; naive_solver |]);
    constructor.
Qed.

Lemma analyze_operation_stored (operation_type collection_name : string) params (now : Q) mon :
  let found := fst (Swarm.analyze_operation json_dumps operation_type collection_name
                      params now mon) in
  let mon' := snd (Swarm.analyze_operation json_dumps operation_type collection_name
                     params now mon) in
  (length found <= 3)%nat
  /\ Swarm._smells mon' `suffix_of` Swarm._smells mon ++ found
  /\ length (Swarm._smells mon')
     = Nat.min 1000 (length (Swarm._smells mon) + length found)
  /\ found `suffix_of` Swarm._smells mon'.
Proof.
  cbv zeta.
  assert (Hlen : (length (fst (Swarm.analyze_operation json_dumps operation_type
                                 collection_name params now mon)) <= 3)%nat).
  { rewrite <- (length_map Swarm.smell_type), found_types.
    destruct (String.eqb operation_type "query" && _);
      destruct (String.eqb operation_type "add" && _);
      destruct (Swarm.where_ params) as [[filter|]|];
      try destruct (Z.of_nat (String.length (json_dumps filter)) >? 500);
      simpl; lia. }
  split; [done |]. revert Hlen. rewrite analyze_operation_unfold. cbv zeta. cbn [fst snd].
  set (found := fst (Swarm.analyze_operation json_dumps operation_type collection_name
                       params now Swarm.CodeSmellMonitor_init)).
  intros Hlen.
  destruct (Z.gtb_spec (Z.of_nat (length (Swarm._smells mon ++ found))) 1000) as [Hgt|Hle].
  - cbn [Swarm._smells]. rewrite length_app in Hgt. unfold slice_last.
    split; [apply suffix_drop |]. split.
    + rewrite length_skipn, length_app. lia.
    + rewrite length_app. rewrite drop_app_le by lia. by apply suffix_app_r.
  - cbn [Swarm._smells]. rewrite length_app in Hle. split; [done |]. split.
    + rewrite length_app. lia.
    + by apply suffix_app_r.
Qed.

Lemma monitor_run_known (calls : list (analyze_call Filter)) mon :
  (length (Swarm._smells mon) <= 1000)%nat ->
  Forall (fun smell =>
            (Swarm.smell_type smell = "excessive_queries"
             /\ Swarm.smell_severity smell = "warning")
            \/ (Swarm.smell_type smell = "large_batch_size"
                /\ Swarm.smell_severity smell = "warning")
            \/ (Swarm.smell_type smell = "inefficient_filtering"
                /\ Swarm.smell_severity smell = "info")) (Swarm._smells mon) ->
  (length (Swarm._smells (monitor_run json_dumps calls mon)) <= 1000)%nat
  /\ Forall (fun smell =>
               (Swarm.smell_type smell = "excessive_queries"
                /\ Swarm.smell_severity smell = "warning")
               \/ (Swarm.smell_type smell = "large_batch_size"
                   /\ Swarm.smell_severity smell = "warning")
               \/ (Swarm.smell_type smell = "inefficient_filtering"
                   /\ Swarm.smell_severity smell = "info"))
       (Swarm._smells (monitor_run json_dumps calls mon)).
Proof.
  revert mon. induction calls as [|c calls IH]; intros mon Hlen Hknown; [done |].
  unfold monitor_run in *. cbn [foldl]. unfold monitor_step at 2 4.
  destruct (analyze_operation_stored (call_operation c) (call_collection c) (call_params c)
              (call_time c) mon) as (_ & Hsuffix & Hlen' & _).
  apply IH.
  - rewrite Hlen'. lia.
  - destruct Hsuffix as [dropped Heq].
    assert (Hall : Forall (fun smell =>
               (Swarm.smell_type smell = "excessive_queries"
                /\ Swarm.smell_severity smell = "warning")
               \/ (Swarm.smell_type smell = "large_batch_size"
                   /\ Swarm.smell_severity smell = "warning")
               \/ (Swarm.smell_type smell = "inefficient_filtering"
                   /\ Swarm.smell_severity smell = "info"))
             (Swarm._smells mon
              ++ fst (Swarm.analyze_operation json_dumps (call_operation c)
                        (call_collection c) (call_params c) (call_time c) mon))).
    { apply Forall_app. split; [done |].
      eapply Forall_impl; [apply found_smells_known |]. simpl. naive_solver. }
    rewrite Heq in Hall. by apply Forall_app in Hall as [_ Hall].
Qed.
End smell_monitor.

(** Counting the smells by a key. *)
Lemma count_smell_lookup (key : Swarm.Smell -> string) (l : list Swarm.Smell)
    (counts : gmap string Z) (k : string) :
  default 0 (foldl (Swarm.count_smell key) counts l !! k)
  = default 0 (counts !! k) + Z.of_nat (length (filter (fun smell => key smell = k) l)).
Proof.
  revert counts. induction l as [|smell l IH]; intros counts; simpl; [lia |].
  rewrite IH. unfold Swarm.count_smell.
  destruct (decide (key smell = k)) as [Heq|Hne].
  - rewrite filter_cons_True by done. rewrite Heq, lookup_insert_eq. simpl. lia.
  - rewrite filter_cons_False by done. by rewrite lookup_insert_ne.
Qed.

Lemma count_smell_keys (key : Swarm.Smell -> string) (l : list Swarm.Smell)
    (counts : gmap string Z) (k : string) :
  is_Some (foldl (Swarm.count_smell key) counts l !! k)
  <-> is_Some (counts !! k) \/ exists smell, smell ∈ l /\ key smell = k.
Proof.
  revert counts. induction l as [|smell l IH]; intros counts; simpl.
  - split; [by left | intros [? | (smell & Hin & _)]; [done | by apply elem_of_nil in Hin]].
  - rewrite IH. unfold Swarm.count_smell. split.
    + intros [Hsome | (smell' & Hin & Hk)].
      * destruct (decide (key smell = k)) as [Heq|Hne].
        -- right. exists smell. split; [by left | done].
        -- left. by rewrite lookup_insert_ne in Hsome.
      * right. exists smell'. split; [by right | done].
    + intros [Hsome | (smell' & [->|Hin]%elem_of_cons & Hk)].
      * left. destruct (decide (key smell = k)) as [Heq|Hne].
        -- by rewrite Heq, lookup_insert_eq.
        -- by rewrite lookup_insert_ne.
      * left. by rewrite Hk, lookup_insert_eq.
      * right. by exists smell'.
Qed.

Lemma count_smell_sum (key : Swarm.Smell -> string) (l : list Swarm.Smell)
    (counts : gmap string Z) :
  sum_counts (foldl (Swarm.count_smell key) counts l)
  = sum_counts counts + Z.of_nat (length l).
Proof.
  revert counts. induction l as [|smell l IH]; intros counts; simpl; [lia |].
  rewrite IH. unfold Swarm.count_smell. rewrite sum_counts_insert. lia.
Qed.

(** X19: [analyze_operation] never keeps more than 1000 smells. It appends
    what it finds (at most three smells) to the stored list and then keeps
    the last 1000, so the smells of the call itself are always kept and the
    oldest ones are dropped. *)
Theorem analyze_operation_keeps_the_last_1000_smells :
  forall (Filter : Type) (json_dumps : Filter -> string),
    (forall (calls : list (analyze_call Filter)),
       (length (Swarm._smells (monitor_run json_dumps calls Swarm.CodeSmellMonitor_init))
        <= 1000)%nat)
    /\ (forall (operation_type collection_name : string)
               (params : Swarm.Params (Filter := Filter)) (now : Q)
               (mon : Swarm.CodeSmellMonitor),
          let found := fst (Swarm.analyze_operation json_dumps operation_type collection_name
                              params now mon) in
          let mon' := snd (Swarm.analyze_operation json_dumps operation_type collection_name
                             params now mon) in
          (length found <= 3)%nat
          /\ Swarm._smells mon' `suffix_of` Swarm._smells mon ++ found
          /\ length (Swarm._smells mon')
             = Nat.min 1000 (length (Swarm._smells mon) + length found)
          /\ found `suffix_of` Swarm._smells mon').
Proof.
  intros Filter json_dumps. split.
  - intros calls. apply monitor_run_known; [simpl; lia | constructor].
  - intros. apply analyze_operation_stored.
Qed.

(** X20: what [analyze_operation] reports. ["excessive_queries"] exactly
    for a ["query"] with [n_results] above 100 (100 itself is accepted and
    an absent [n_results] counts as 0), ["large_batch_size"] exactly for an
    ["add"] of more than 1000 documents, ["inefficient_filtering"] exactly
    for a ["where"] dictionary whose JSON text is longer than 500
    characters, whatever the operation, and ["duplicate_operations"]
    never. Each type is reported at most once, every smell carries the
    operation, the collection and the time of the call, and the result
    does not depend on the smells found before. *)
Theorem analyze_operation_reports_by_threshold :
  forall (Filter : Type) (json_dumps : Filter -> string)
         (operation_type collection_name : string)
         (params : Swarm.Params (Filter := Filter)) (now : Q) (mon : Swarm.CodeSmellMonitor),
    let found := fst (Swarm.analyze_operation json_dumps operation_type collection_name
                        params now mon) in
    let types := map Swarm.smell_type found in
    ("excessive_queries" ∈ types
     <-> operation_type = "query" /\ 100 < default 0 (Swarm.n_results params))
    /\ ("large_batch_size" ∈ types
        <-> operation_type = "add"
            /\ exists docs, Swarm.documents params = Some docs /\ (1000 < length docs)%nat)
    /\ ("inefficient_filtering" ∈ types
        <-> exists filter,
              Swarm.where_ params = Some (Some filter)
              /\ (500 < String.length (json_dumps filter))%nat)
    /\ ("duplicate_operations" ∉ types)
    /\ NoDup types
    /\ Forall (fun smell =>
                 Swarm.smell_operation smell = operation_type
                 /\ Swarm.smell_collection smell = collection_name
                 /\ Swarm.smell_timestamp smell = now) found
    /\ found = fst (Swarm.analyze_operation json_dumps operation_type collection_name
                      params now Swarm.CodeSmellMonitor_init).
Proof.
  intros Filter json_dumps operation_type collection_name params now mon found types.
  assert (Htypes := found_types json_dumps operation_type collection_name params now mon).
  fold found in Htypes. fold types in Htypes.
  assert (Hq : String.eqb operation_type "query" && (default 0 (Swarm.n_results params) >? 100)
               = true
               <-> operation_type = "query" /\ 100 < default 0 (Swarm.n_results params)).
  { rewrite andb_true_iff, String.eqb_eq, Z.gtb_lt. done. }
  assert (Ha : String.eqb operation_type "add"
               && match Swarm.documents params with
                  | Some docs => Z.of_nat (length docs) >? 1000
                  | None => false
                  end = true
               <-> operation_type = "add"
                   /\ exists docs, Swarm.documents params = Some docs
                                   /\ (1000 < length docs)%nat).
  { rewrite andb_true_iff, String.eqb_eq. destruct (Swarm.documents params) as [docs|].
    - rewrite Z.gtb_lt. split.
      + intros [? ?]. split; [done |]. exists docs. split; [done | lia].
      + intros [? (docs' & [= <-] & ?)]. split; [done | lia].
    - split; [intros [_ ?]; done | intros [_ (? & ? & _)]; done]. }
  assert (Hw : match Swarm.where_ params with
               | Some (Some filter) =>
                   if Z.of_nat (String.length (json_dumps filter)) >? 500
                   then ["inefficient_filtering"] else []
               | _ => []
               end = ["inefficient_filtering"]
               <-> exists filter,
                     Swarm.where_ params = Some (Some filter)
                     /\ (500 < String.length (json_dumps filter))%nat).
  { destruct (Swarm.where_ params) as [[filter|]|].
    - destruct (Z.gtb_spec (Z.of_nat (String.length (json_dumps filter))) 500).
      + split; [intros _; exists filter; split; [done | lia] | done].
      + split; [done | intros (f & [= <-] & ?); lia].
    - split; [done | intros (? & ? & _); done].
    - split; [done | intros (? & ? & _); done]. }
  set (w := match Swarm.where_ params with
            | Some (Some filter) =>
                if Z.of_nat (String.length (json_dumps filter)) >? 500
                then ["inefficient_filtering"] else []
            | _ => []
            end) in *.
  assert (Hw' : w = ["inefficient_filtering"] \/ w = []).
  { subst w. destruct (Swarm.where_ params) as [[filter|]|]; [| by right | by right].
    destruct (Z.of_nat (String.length (json_dumps filter)) >? 500); [left | right];
      reflexivity. }
  rewrite <- Hq, <- Ha, <- Hw. rewrite Htypes. clear Htypes Hq Ha Hw. clearbody w.
  split; [| split; [| split; [| split; [| split; [| split]]]]].
  - destruct (_ && _), (_ && _), Hw' as [-> | ->]; cbn [app];
      rewrite ?elem_of_cons, ?elem_of_nil; naive_solver.
  - destruct (String.eqb operation_type "query" && _), (_ && _), Hw' as [-> | ->]; cbn [app];
      rewrite ?elem_of_cons, ?elem_of_nil; naive_solver.
  - destruct (String.eqb operation_type "query" && _), (_ && _), Hw' as [Hw | Hw];
      rewrite Hw; cbn [app]; rewrite ?elem_of_cons, ?elem_of_nil; naive_solver.
  - destruct (String.eqb operation_type "query" && _), (_ && _), Hw' as [-> | ->]; cbn [app];
      rewrite ?elem_of_cons, ?elem_of_nil; naive_solver.
  - destruct (String.eqb operation_type "query" && _), (_ && _), Hw' as [-> | ->]; cbn [app];
      repeat (apply NoDup_cons; split; [rewrite ?elem_of_cons, ?elem_of_nil; naive_solver |]);
      apply NoDup_nil_2.
  - eapply Forall_impl; [apply found_smells_known |]. simpl. naive_solver.
  - subst found. by rewrite analyze_operation_unfold.
Qed.

(** X21: the report of a monitor that was filled through
    [analyze_operation]. Without smells it is the short report. Otherwise
    [total_smells] is the number of stored smells, between 1 and 1000; the
    counts by type and the counts by severity each add up to it; the types
    are among the three that a check can report and the severities are
    ["warning"] and ["info"]; the ["info"] count is that of
    ["inefficient_filtering"]; [recent] is the last ten stored smells. *)
Theorem get_smell_report_counts_add_up :
  forall (Filter : Type) (json_dumps : Filter -> string) (calls : list (analyze_call Filter)),
    let mon := monitor_run json_dumps calls Swarm.CodeSmellMonitor_init in
    match Swarm.get_smell_report mon with
    | Swarm.NoSmells => Swarm._smells mon = []
    | Swarm.SmellSummary total_smells by_type by_severity recent =>
        total_smells = Z.of_nat (length (Swarm._smells mon))
        /\ 1 <= total_smells <= 1000
        /\ sum_counts by_type = total_smells
        /\ sum_counts by_severity = total_smells
        /\ (forall k, is_Some (by_type !! k) ->
              k = "excessive_queries" \/ k = "large_batch_size" \/ k = "inefficient_filtering")
        /\ (forall k, is_Some (by_severity !! k) -> k = "warning" \/ k = "info")
        /\ default 0 (by_severity !! "info") = default 0 (by_type !! "inefficient_filtering")
        /\ recent = slice_last 10 (Swarm._smells mon)
    end.
Proof.
  intros Filter json_dumps calls mon.
  destruct (monitor_run_known json_dumps calls Swarm.CodeSmellMonitor_init)
    as [Hlen Hknown]; [simpl; lia | constructor |].
  fold mon in Hlen, Hknown. unfold Swarm.get_smell_report.
  destruct (Swarm._smells mon) as [|smell smells] eqn:E; [done |]. rewrite <- E in *.
  assert (Hpos : (1 <= length (Swarm._smells mon))%nat) by (rewrite E; simpl; lia).
  split; [done |]. split; [lia |].
  split; [by rewrite count_smell_sum |]. split; [by rewrite count_smell_sum |].
  split; [| split; [| split; [| done]]].
  - intros k [Hk | (s & Hin & Hs)]%count_smell_keys.
    + rewrite lookup_empty in Hk. by destruct Hk.
    + rewrite Forall_forall in Hknown. apply Hknown in Hin. naive_solver.
  - intros k [Hk | (s & Hin & Hs)]%count_smell_keys.
    + rewrite lookup_empty in Hk. by destruct Hk.
    + rewrite Forall_forall in Hknown. apply Hknown in Hin. naive_solver.
  - rewrite !count_smell_lookup, lookup_empty. simpl. f_equal. f_equal.
    clear E Hlen Hpos. induction Hknown as [|s l Hs Hl IH]; [done |].
    rewrite !filter_cons.
    destruct (decide (Swarm.smell_severity s = "info")),
      (decide (Swarm.smell_type s = "inefficient_filtering")); simpl;
      try (by rewrite IH); destruct Hs as [[Ht Hv] | [[Ht Hv] | [Ht Hv]]]; congruence.
Qed.

Lemma analyze_operation_reports_by_threshold_witness :
  "excessive_queries"
  ∈ map Swarm.smell_type
      (fst (Swarm.analyze_operation (fun filter : string => filter) "query" "docs"
              (Swarm.mkParams (Some 101) None None) 0 Swarm.CodeSmellMonitor_init))
  /\ ~ ("excessive_queries"
        ∈ map Swarm.smell_type
            (fst (Swarm.analyze_operation (fun filter : string => filter) "query" "docs"
                    (Swarm.mkParams (Some 100) None None) 0 Swarm.CodeSmellMonitor_init))).
Proof.
  split.
  - apply (proj1 (analyze_operation_reports_by_threshold string (fun filter => filter)
                    "query" "docs" (Swarm.mkParams (Some 101) None None) 0
                    Swarm.CodeSmellMonitor_init)).
    split; [reflexivity | simpl; lia].
  - intros Hin.
    apply (proj1 (analyze_operation_reports_by_threshold string (fun filter => filter)
                    "query" "docs" (Swarm.mkParams (Some 100) None None) 0
                    Swarm.CodeSmellMonitor_init)) in Hin.
    simpl in Hin. lia.
Defined.
